(** * Label3D conversion scripts: calibration export and COCO flattening

    A shallow embedding of the conversion logic of
    [demos/multical2label3d.py], [demos/l3d2coco.py] and
    [demos/prepare_label3d_poses.py], with the properties of the
    specification stated and proved over it.

    Conventions of the embedding:
    - Python [int] is [Z]; NumPy shapes are [nat].
    - a double is a [spec_float] of the Standard Library (binary64:
      precision 53, maximal exponent 1024), so NaN and the infinities are
      values of their own;
    - a Python [dict] is a [gmap]; a raised exception is the [Raise] case
      of [result], with the class of the exception and without its
      message; [print]ed warnings are collected in a log of [warning]
      events (debug prints are left out);
    - what the file system answers (a directory created, a file written)
      is an argument of the function that asks;
    - loops that thread the output dictionary and the identifier counters
      are written in a state-and-exception monad. *)

From Stdlib Require Import ZArith QArith Qminmax Lia.
From Stdlib Require Import Floats.SpecFloat.
From stdpp Require Import gmap strings list fin_maps pretty sorting.

(* ===================================================================== *)
(** * Python values: exceptions, doubles, rounding                        *)
(* ===================================================================== *)

(** Exceptions, told apart by their class; the message is not modelled. *)
Inductive exn :=
  | ValueError | KeyError | IndexError | OverflowError | TypeError
  | FileNotFoundError | OSError.

Inductive result (A : Type) :=
  | Ok (a : A)
  | Raise (e : exn).
Arguments Ok {A} a.
Arguments Raise {A} e.

Definition rbind {A B} (r : result A) (k : A -> result B) : result B :=
  match r with
  | Ok a => k a
  | Raise e => Raise e
  end.

Notation "'try!' x ':=' r 'in' k" := (rbind r (fun x => k))
  (at level 10, x pattern, r at level 100, k at level 200).

(** [[f(x) for x in l]]: the first exception ends the comprehension. *)
Fixpoint rmap {A B} (f : A -> result B) (l : list A) : result (list B) :=
  match l with
  | [] => Ok []
  | x :: l' =>
      try! y := f x in
      try! ys := rmap f l' in
      Ok (y :: ys)
  end.

(** State and exceptions: a computation takes the state, and gives the
    state it leaves with its value or the exception it raised. *)
Definition SE (S A : Type) : Type := S -> S * result A.

Definition ret {S A} (a : A) : SE S A := fun s => (s, Ok a).

Definition bind {S A B} (m : SE S A) (k : A -> SE S B) : SE S B :=
  fun s => match m s with
           | (s', Ok a) => k a s'
           | (s', Raise e) => (s', Raise e)
           end.

Definition lift {S A} (r : result A) : SE S A := fun s => (s, r).
Definition get {S} : SE S S := fun s => (s, Ok s).
Definition modify {S} (f : S -> S) : SE S unit := fun s => (f s, Ok tt).

Notation "'do' x <- m ; k" := (bind m (fun x => k))
  (at level 10, x pattern, m at level 100, k at level 200).

(** A [for] loop whose body may raise. *)
Fixpoint for_each {S A} (l : list A) (body : A -> SE S unit) : SE S unit :=
  match l with
  | [] => ret tt
  | x :: l' => do _ <- body x; for_each l' body
  end.

(** [l[i]] for a list and a non-negative index. *)
Definition getitem {A} (l : list A) (i : Z) : result A :=
  match l !! Z.to_nat i with
  | Some x => Ok x
  | None => Raise IndexError
  end.

Abbreviation float := spec_float.

Module Float.

Definition prec : Z := 53.
Definition emax : Z := 1024.

(** [0.0], [1.0] and [1000.0] in canonical binary64 form. *)
Definition zero : float := S754_zero false.
Definition one : float := S754_finite false 4503599627370496 (-52).
Definition thousand : float := S754_finite false 8796093022208000 (-43).

(** [a * b] on doubles. *)
Definition mul (a b : float) : float := SFmul prec emax a b.

(** [a >= b] on doubles (false as soon as one side is NaN). *)
Definition geb (a b : float) : bool := SFleb b a.

(** [np.isnan]. *)
Definition isnan (x : float) : bool :=
  match x with
  | S754_nan => true
  | _ => false
  end.

(** [math.isinf] *)
Definition isinf (x : float) : bool :=
  match x with
  | S754_infinity _ => true
  | _ => false
  end.

Definition is_finite (x : float) : bool :=
  match x with
  | S754_zero _ | S754_finite _ _ _ => true
  | _ => false
  end.

(** Nearest integer to [n/d] for [d > 0], ties to the even neighbour. *)
Definition round_half_even (n d : Z) : Z :=
  let q := (n / d)%Z in
  let r := (n mod d)%Z in
  match (2 * r ?= d)%Z with
  | Lt => q
  | Gt => (q + 1)%Z
  | Eq => if Z.even q then q else (q + 1)%Z
  end.

(** [int(round(x))] for a Python float [x]: Python rounds half to even
    and raises on NaN and on the infinities. *)
Definition py_round (x : float) : result Z :=
  match x with
  | S754_zero _ => Ok 0%Z
  | S754_nan => Raise ValueError
  | S754_infinity _ => Raise OverflowError
  | S754_finite s m e =>
      let v := if (0 <=? e)%Z then (Zpos m * 2 ^ e)%Z
               else round_half_even (Zpos m) (2 ^ (- e)) in
      Ok (if s then (- v)%Z else v)
  end.

(** [int(round(q))] for a float that holds the rational [q] exactly. *)
Definition py_round_Q (q : Q) : Z := round_half_even (Qnum q) (Zpos (Qden q)).

(** The double nearest to the integer [n], ties to the even mantissa; an
    infinity when [n] is too large for a double. *)
Definition of_Z (n : Z) : float := binary_normalize prec emax n 0 false.

(** [float(n)] for a Python [int]: correctly rounded, and
    [OverflowError] when [n] is too large for a double. *)
Definition of_int (n : Z) : result float :=
  match of_Z n with
  | S754_infinity _ => Raise OverflowError
  | f => Ok f
  end.

(** [a - b] on doubles. *)
Definition sub (a b : float) : float := SFsub prec emax a b.

(** Python's two-argument [max] and [min] on doubles: the second argument
    is taken when it is greater (smaller) than the first, and the first is
    kept otherwise, also on a tie and on NaN. *)
Definition fmax (a b : float) : float := if SFltb a b then b else a.
Definition fmin (a b : float) : float := if SFltb b a then b else a.

(** The rational a finite double holds (0 for the others). *)
Definition to_Q (x : float) : Q :=
  match x with
  | S754_finite s m e =>
      let v := if (0 <=? e)%Z then inject_Z (Zpos m * 2 ^ e)
               else Qmake (Zpos m) (Z.to_pos (2 ^ (- e))) in
      if s then Qopp v else v
  | _ => 0%Q
  end.

End Float.

(** Python's [range(n)] for an [int] n. *)
Definition py_range (n : Z) : list Z := Z.of_nat <$> seq 0 (Z.to_nat n).

(** [sub in s] for strings. *)
Fixpoint contains (sub s : string) : bool :=
  match s with
  | EmptyString => String.prefix sub EmptyString
  | String _ s' => String.prefix sub s || contains sub s'
  end.

(** NumPy arrays of doubles, of one or two dimensions, and the operations
    the scripts apply to them. *)
Inductive ndarray :=
  | Arr1 (v : list float)
  | Arr2 (rows : list (list float)).

Definition flatten (a : ndarray) : list float :=
  match a with
  | Arr1 v => v
  | Arr2 rows => concat rows
  end.

(** [a.T] of a two-dimensional array given by its rows. *)
Definition transpose (rows : list (list float)) : list (list float) :=
  match rows with
  | [] => []
  | r0 :: _ => (fun j => omap (fun row : list float => row !! j) rows) <$> seq 0 (length r0)
  end.

(** [a.reshape(3, 1)]: three elements, whatever the shape, one per row. *)
Definition reshape_3_1 (a : ndarray) : result (list (list float)) :=
  match flatten a with
  | [x; y; z] => Ok [[x]; [y]; [z]]
  | _ => Raise ValueError
  end.

(** [np.asarray(l).reshape(-1, 1)]: a column. *)
Definition reshape_col (l : list float) : list (list float) := (fun x => [x]) <$> l.

(** [np.asarray(rows, dtype=np.float64)] and [np.array(rows)] of a list of
    lists of numbers: rows of one length make an array, anything else
    raises [ValueError]. *)
Definition rectangular (rows : list (list float)) : bool :=
  match rows with
  | [] => true
  | r0 :: rest => forallb (fun r => Nat.eqb (length r) (length r0)) rest
  end.

Definition asarray2 (rows : list (list float)) : result (list (list float)) :=
  if rectangular rows then Ok rows else Raise ValueError.

(** [a[i, j]] of a two-dimensional array. *)
Definition getitem2 (rows : list (list float)) (i j : nat) : result float :=
  match rows !! i with
  | Some row => match row !! j with
                | Some x => Ok x
                | None => Raise IndexError
                end
  | None => Raise IndexError
  end.

(* ===================================================================== *)
(** * multical2label3d.py                                                  *)
(* ===================================================================== *)

Module Multical.

(** One entry of the pose table: [{'R': ..., 'T': ...}]. *)
Record pose := { pose_R : list (list float); pose_T : list float }.

Inductive warning :=
  | WarnRefNotIdentity (ref_cam : string)
  | WarnRefMissing (ref_cam : string)
  | WarnDirectPose (cam_name : string)
  | WarnRefNotIdentityJson (ref_cam : string)
  | WarnRefMissingJson (ref_cam : string)
  | WarnDirectPoseJson (cam_name : string)
  | WarnRadialInaccurate (coeffs_len : nat)
  | WarnTangentialInaccurate.

Definition identity3 : list (list float) :=
  [[Float.one; Float.zero; Float.zero];
   [Float.zero; Float.one; Float.zero];
   [Float.zero; Float.zero; Float.one]].

Definition zero3 : list float := [Float.zero; Float.zero; Float.zero].

Section Extrinsics.

(** [np.allclose(R, np.identity(3), atol=1e-6)] and
    [np.allclose(T, [0.0, 0.0, 0.0], atol=1e-6)]: NumPy's own code,
    taken as given. Each returns a boolean, or raises when its argument
    does not make an array that broadcasts against the 3x3 identity or the
    three zeros (a 2x2 rotation, say). *)
Variable allclose_identity : list (list float) -> result bool.
Variable allclose_zero : list float -> result bool.

(** [not np.allclose(R, ...) or not np.allclose(T, ...)]: the translation
    is compared only when the rotation is close to the identity. *)
Definition not_identity_or_not_zero (R_w_cam : list (list float)) (T_w_cam : list float)
  : result bool :=
  try! close_R := allclose_identity R_w_cam in
  if negb close_R then Ok true
  else
    try! close_T := allclose_zero T_w_cam in
    Ok (negb close_T).

Definition get_extrinsics (pose_data : gmap string pose) (cam_name ref_cam : string)
  : list warning * result (list (list float) * list float) :=
  if decide (cam_name = ref_cam) then
    match pose_data !! ref_cam with
    | Some p =>
        let R_w_cam := pose_R p in
        let T_w_cam := pose_T p in
        match not_identity_or_not_zero R_w_cam T_w_cam with
        | Raise e => ([], Raise e)
        | Ok warn =>
            (if warn then [WarnRefNotIdentity ref_cam] else [], Ok (R_w_cam, T_w_cam))
        end
    | None => ([WarnRefMissing ref_cam], Ok (identity3, zero3))
    end
  else
    match pose_data !! cam_name with
    | Some p => ([WarnDirectPose cam_name], Ok (pose_R p, pose_T p))
    | None =>
        let pose_key := cam_name +:+ "_to_" +:+ ref_cam in
        match pose_data !! pose_key with
        | None => ([], Raise KeyError)
        | Some p => ([], Ok (pose_R p, pose_T p))
        end
    end.

Definition get_extrinsics_json (pose_data : gmap string pose) (cam_name ref_cam : string)
  : list warning * result (list (list float) * list float) :=
  if decide (cam_name = ref_cam) then
    match pose_data !! ref_cam with
    | Some p =>
        let R_w_cam := pose_R p in
        let T_w_cam := pose_T p in
        match not_identity_or_not_zero R_w_cam T_w_cam with
        | Raise e => ([], Raise e)
        | Ok warn =>
            (if warn then [WarnRefNotIdentityJson ref_cam] else [], Ok (R_w_cam, T_w_cam))
        end
    | None => ([WarnRefMissingJson ref_cam], Ok (identity3, zero3))
    end
  else
    match (match pose_data !! cam_name with
           | Some p => if negb (contains "_to_" cam_name) then Some p else None
           | None => None
           end) with
    | Some p => ([WarnDirectPoseJson cam_name], Ok (pose_R p, pose_T p))
    | None =>
        let pose_key := cam_name +:+ "_to_" +:+ ref_cam in
        match pose_data !! pose_key with
        | None => ([], Raise KeyError)
        | Some p => ([], Ok (pose_R p, pose_T p))
        end
    end.

End Extrinsics.

(** What [extract_distortion] can receive: an array (PKL input), a
    Python list whose items are numbers or lists (JSON input), or
    anything else. *)
Inductive py_item :=
  | PyNum (x : float)
  | PyList (l : list float).

Inductive dist_input :=
  | DistArray (a : ndarray)
  | DistList (items : list py_item)
  | DistOther.

Definition coeffs_of (dist_coeffs : dist_input) : result (list float) :=
  match dist_coeffs with
  | DistArray a => Ok (flatten a)
  | DistList (PyList row :: _) => Ok row
  | _ => Raise ValueError
  end.

(** [[coeffs[i] for i in indices if i < coeffs_len]] *)
Definition coeffs_present (coeffs : list float) (indices : list nat) : list float :=
  omap (fun i => if decide (i < length coeffs)%nat then coeffs !! i else None) indices.

Definition pad_zeros (indices : list nat) (present : list float) : list float :=
  present ++ replicate (length indices - length present) Float.zero.

Definition k_indices : list nat := [0; 1; 4]%nat.
Definition p_indices : list nat := [2; 3]%nat.

Definition extract_distortion (dist_coeffs : dist_input)
  : list warning * result (list float * list float) :=
  match coeffs_of dist_coeffs with
  | Raise e => ([], Raise e)
  | Ok coeffs =>
      let coeffs_len := length coeffs in
      let RadialDistortion := pad_zeros k_indices (coeffs_present coeffs k_indices) in
      let TangentialDistortion := pad_zeros p_indices (coeffs_present coeffs p_indices) in
      ((if decide (coeffs_len < 2)%nat then [WarnRadialInaccurate coeffs_len] else [])
       ++ (if decide (coeffs_len < 4)%nat then [WarnTangentialInaccurate] else []),
       Ok (RadialDistortion, TangentialDistortion))
  end.

(** The dictionary written to [<cam>_params.mat]. *)
Record mat_dict := {
  mat_K : list (list float);
  mat_r : list (list float);
  mat_t : list (list float);
  mat_RDistort : list (list float);
  mat_TDistort : list (list float);
  mat_image_size : list Z
}.

(** "Prepare Data for .mat file" in [main]: the record of one camera from
    its intrinsic matrix, split distortion, world-to-camera pose (metres)
    and image size. The intrinsic matrix and the rotation are lists of
    lists that [np.asarray] turns into arrays, or refuses; the translation
    is the array [np.asarray] makes of it. *)
Definition camera_mat_dict (K_original : list (list float))
    (RDistort TDistort : list float)
    (R_w_cam : list (list float)) (T_w_cam : ndarray) (img_size : list Z)
  : result mat_dict :=
  try! K_np_original := asarray2 K_original in
  try! R_w_cam_np := asarray2 R_w_cam in
  let T_w_cam_np := T_w_cam in
  let r_final_for_mat := transpose R_w_cam_np in
  try! T_w_cam_col_m := reshape_3_1 T_w_cam_np in
  let T_w_cam_col_mm := (fun row : list float => (fun x => Float.mul x Float.thousand) <$> row) <$> T_w_cam_col_m in
  let t_final_for_mat_mm_row := transpose T_w_cam_col_mm in
  try! fx := getitem2 K_np_original 0 0 in
  try! fy := getitem2 K_np_original 1 1 in
  try! cx := getitem2 K_np_original 0 2 in
  try! cy := getitem2 K_np_original 1 2 in
  let K_label3d := [[fx; Float.zero; Float.zero];
                    [Float.zero; fy; Float.zero];
                    [cx; cy; Float.one]] in
  Ok {| mat_K := K_label3d;
        mat_r := r_final_for_mat;
        mat_t := t_final_for_mat_mm_row;
        mat_RDistort := reshape_col RDistort;
        mat_TDistort := reshape_col TDistort;
        mat_image_size := img_size |}.

End Multical.

(* ===================================================================== *)
(** * l3d2coco.py                                                          *)
(* ===================================================================== *)

Module L3d.

Local Open Scope Z_scope.

(** [camPoints], of shape (nMarkers, nCams, 2, nSessionFrames):
    [cp_xy m c f] is the pair [(camPoints[m,c,0,f], camPoints[m,c,1,f])]. *)
Record cam_points := {
  cp_markers : nat;
  cp_cams : nat;
  cp_frames : nat;
  cp_xy : Z -> Z -> Z -> float * float
}.

(** [status], of shape (nMarkers, nCams, nSessionFrames). *)
Record status_array := {
  st_markers : nat;
  st_cams : nat;
  st_frames : nat;
  st_val : Z -> Z -> Z -> Z
}.

(** What is read from the Label3D .mat file, as the script sees it once
    loaded: [camPoints] with its four dimensions and [status] with its
    three. ([loadmat(..., simplify_cells=True)] drops a dimension of size
    one and loads an empty array with one dimension; on such a tensor the
    script raises [IndexError] at a [shape] lookup, before any image is
    built: a file reaches the loops with a tensor of this form only when
    no stored dimension is below two, see [Spec.loaded_as_stored].)
    [imageSize] holds (height, width) per camera, integral as MATLAB
    writes them; [cameraNamesToSave] is the list of names once parsed and
    stripped. The file holds the [skeleton] struct with its [joint_names],
    as Label3D writes it: the script looks the names up and makes no other
    use of them. *)
Record l3d_data := {
  camPoints : cam_points;
  status : status_array;
  imageSize : list (Z * Z);
  framesToLabel : list Z;
  nAnimalsInSession : option Z;
  skeleton_nAnimals : option Z;
  cameraNamesToSave : list string
}.

(** The base skeleton file: joint names and 1-based edges. *)
Record base_skeleton := {
  joint_names : list string;
  joints_idx : list (list Z)
}.

Record image := {
  img_id : Z;
  img_width : Z;
  img_height : Z;
  img_file_name : string
}.

Record annotation := {
  ann_id : Z;
  ann_image_id : Z;
  ann_category_id : Z;
  ann_iscrowd : Z;
  ann_area : float;
  ann_bbox : list Z;
  ann_num_keypoints : Z;
  ann_keypoints : list Z
}.

Record category := {
  cat_id : Z;
  cat_name : string;
  cat_supercategory : string;
  cat_keypoints : list string;
  cat_skeleton : list (list Z)
}.

Record coco_output := {
  images : list image;
  annotations : list annotation;
  categories : list category
}.

(** The mutable state of the conversion loop. *)
Record state := {
  coco : coco_output;
  image_id_counter : Z;
  annotation_id_counter : Z
}.

Definition M : Type -> Type := SE state.

(** [f"{n:06d}"] *)
Definition fmt_06d (n : Z) : string :=
  let sign := if decide (n < 0) then "-"%string else ""%string in
  let digits := pretty (Z.abs_N n) in
  sign +:+ String.concat "" (replicate (6 - String.length sign - String.length digits) "0"%string)
       +:+ digits.

Definition add_image (im : image) (s : state) : state :=
  {| coco := {| images := images (coco s) ++ [im];
                annotations := annotations (coco s);
                categories := categories (coco s) |};
     image_id_counter := image_id_counter s;
     annotation_id_counter := annotation_id_counter s |}.

Definition add_annotation (a : annotation) (s : state) : state :=
  {| coco := {| images := images (coco s);
                annotations := annotations (coco s) ++ [a];
                categories := categories (coco s) |};
     image_id_counter := image_id_counter s;
     annotation_id_counter := annotation_id_counter s |}.

Definition incr_image_id (s : state) : state :=
  {| coco := coco s;
     image_id_counter := image_id_counter s + 1;
     annotation_id_counter := annotation_id_counter s |}.

Definition incr_annotation_id (s : state) : state :=
  {| coco := coco s;
     image_id_counter := image_id_counter s;
     annotation_id_counter := annotation_id_counter s + 1 |}.

(** Label3D status enums. *)
Definition L3D_STATUS_UNLABELED : Z := 0.
Definition L3D_STATUS_INITIALIZED : Z := 1.
Definition L3D_STATUS_LABELED : Z := 2.
Definition L3D_STATUS_INVISIBLE : Z := 3.

(** [n_animals_in_session = int(...)], read or inferred. *)
Definition read_n_animals (d : l3d_data) : result Z :=
  match nAnimalsInSession d with
  | Some n => Ok n
  | None =>
      match skeleton_nAnimals d with
      | Some n => Ok n
      | None => Raise ValueError
      end
  end.

(** The four-way case on markers and animals: the animal count to loop
    over and [keypoints_per_animal]. Python's [%] and [//] are [mod] and
    [/] of [Z] (both round towards minus infinity). *)
Definition keypoints_config (num_total_markers n_animals_in_session num_base_keypoints : Z)
  : result (Z * Z) :=
  if decide (num_total_markers = 0 /\ n_animals_in_session > 0) then
    Ok (n_animals_in_session, num_base_keypoints)
  else if decide (n_animals_in_session = 0 /\ num_total_markers > 0) then
    Ok (1, num_total_markers)
  else if decide (n_animals_in_session = 0 /\ num_total_markers = 0) then
    Ok (n_animals_in_session, 0)
  else if decide (num_total_markers mod n_animals_in_session <> 0) then
    Raise ValueError
  else
    Ok (n_animals_in_session, num_total_markers / n_animals_in_session).

(** [camera_names_l3d]: the parsed names, or default names when there are
    none or not one per camera. *)
Definition camera_names (d : l3d_data) : list string :=
  let parsed_camera_names := cameraNamesToSave d in
  if decide (parsed_camera_names = [] \/
             length parsed_camera_names <> cp_cams (camPoints d)) then
    (fun i => "Cam_default_" +:+ pretty (i + 1)) <$> py_range (Z.of_nat (cp_cams (camPoints d)))
  else parsed_camera_names.

(** The two slices taken for one animal instance:
    [camPoints[start:end, cam, :, frame]] and [status[start:end, cam, frame]],
    each with its first dimension and its rows. *)
Record instance_slices := {
  kps_len : Z;
  kps : Z -> float * float;
  status_len : Z;
  status_vals : Z -> Z
}.

(** Length of [a[start:stop]] along an axis of size [dim], for
    non-negative bounds. *)
Definition slice_len (dim start stop : Z) : Z :=
  Z.max 0 (Z.min stop dim - Z.min start dim).

(** The slices of an instance; indexing [status] at a camera or frame it
    does not have raises. *)
Definition take_slices (d : l3d_data) (marker_start_idx marker_end_idx cam_idx frame_s_idx : Z)
  : result instance_slices :=
  let cp := camPoints d in
  let st := status d in
  if decide (cam_idx < Z.of_nat (st_cams st) /\ frame_s_idx < Z.of_nat (st_frames st)) then
    Ok {| kps_len := slice_len (Z.of_nat (cp_markers cp)) marker_start_idx marker_end_idx;
          kps := fun k => cp_xy cp (marker_start_idx + k) cam_idx frame_s_idx;
          status_len := slice_len (Z.of_nat (st_markers st)) marker_start_idx marker_end_idx;
          status_vals := fun k => st_val st (marker_start_idx + k) cam_idx frame_s_idx |}
  else Raise IndexError.

(** Body of the keypoint loop up to [v = temp_v]: the triplet (x, y, v)
    of canonical joint [kpt_i]. *)
Definition decode_kpt (inst : instance_slices)
    (keypoints_per_animal img_width img_height kpt_i : Z) : result (Z * Z * Z) :=
  if decide (kpt_i < keypoints_per_animal) then
    if decide (kpt_i < kps_len inst /\ kpt_i < status_len inst) then
      let x_l3d := fst (kps inst kpt_i) in
      let y_l3d := snd (kps inst kpt_i) in
      let status_val := status_vals inst kpt_i in
      if negb (Float.isnan x_l3d) && negb (Float.isnan y_l3d) then
        try! x := Float.py_round x_l3d in
        try! y := Float.py_round y_l3d in
        let temp_v :=
          if decide (x < 0 \/ y < 0 \/ x >= img_width \/ y >= img_height) then 0
          else if decide (status_val = L3D_STATUS_INVISIBLE) then 1
          else if decide (status_val = L3D_STATUS_INITIALIZED \/
                          status_val = L3D_STATUS_LABELED) then 2
          else 0 in
        Ok (x, y, temp_v)
      else Ok (0, 0, 0)
    else Ok (0, 0, 0)
  else Ok (0, 0, 0).

(** What the keypoint loop accumulates. *)
Record kp_acc := {
  coco_keypoints_flat : list Z;
  num_labeled_kps_for_instance : Z;
  visible_xs : list Z;
  visible_ys : list Z
}.

Definition kp_acc_init : kp_acc :=
  {| coco_keypoints_flat := []; num_labeled_kps_for_instance := 0;
     visible_xs := []; visible_ys := [] |}.

(** End of the loop body: extend the flat list, count, collect. *)
Definition kp_acc_push (acc : kp_acc) (xyv : Z * Z * Z) : kp_acc :=
  let '(x, y, v) := xyv in
  {| coco_keypoints_flat := coco_keypoints_flat acc ++ [x; y; v];
     num_labeled_kps_for_instance :=
       if decide (v > 0) then num_labeled_kps_for_instance acc + 1
       else num_labeled_kps_for_instance acc;
     visible_xs := if decide (v = 2) then visible_xs acc ++ [x] else visible_xs acc;
     visible_ys := if decide (v = 2) then visible_ys acc ++ [y] else visible_ys acc |}.

(** [for kpt_i in range(num_base_keypoints): ...] *)
Fixpoint decode_loop (inst : instance_slices)
    (keypoints_per_animal img_width img_height : Z) (l : list Z) (acc : kp_acc)
  : result kp_acc :=
  match l with
  | [] => Ok acc
  | kpt_i :: l' =>
      try! xyv := decode_kpt inst keypoints_per_animal img_width img_height kpt_i in
      decode_loop inst keypoints_per_animal img_width img_height l' (kp_acc_push acc xyv)
  end.

(** [min(l)] and [max(l)] of a list; they raise on an empty one. *)
Definition list_min (l : list Z) : result Z :=
  match l with
  | [] => Raise ValueError
  | x :: l' => Ok (foldl Z.min x l')
  end.

Definition list_max (l : list Z) : result Z :=
  match l with
  | [] => Raise ValueError
  | x :: l' => Ok (foldl Z.max x l')
  end.

(** [bbox_float], in doubles as the code computes it: the integers are
    converted by [float(...)], which rounds past 2^53 and raises past the
    range of doubles, and the width and height are differences of
    doubles. *)
Definition bbox_float (vxs vys : list Z) (img_width img_height : Z)
  : result (list float) :=
  match vxs with
  | _ :: _ =>
      try! min_x := list_min vxs in
      try! min_x_f := Float.of_int min_x in
      try! max_x := list_max vxs in
      try! max_x_f := Float.of_int max_x in
      try! min_y := list_min vys in
      try! min_y_f := Float.of_int min_y in
      try! max_y := list_max vys in
      try! max_y_f := Float.of_int max_y in
      let min_x_f_clipped := Float.fmax Float.zero min_x_f in
      let min_y_f_clipped := Float.fmax Float.zero min_y_f in
      try! width_1 := Float.of_int (img_width - 1) in
      let max_x_f_clipped := Float.fmin width_1 max_x_f in
      try! height_1 := Float.of_int (img_height - 1) in
      let max_y_f_clipped := Float.fmin height_1 max_y_f in
      let bbox_w_f := Float.fmax Float.zero (Float.sub max_x_f_clipped min_x_f_clipped) in
      let bbox_h_f := Float.fmax Float.zero (Float.sub max_y_f_clipped min_y_f_clipped) in
      Ok [min_x_f_clipped; min_y_f_clipped; bbox_w_f; bbox_h_f]
  | [] => Ok [Float.zero; Float.zero; Float.zero; Float.zero]
  end.

Definition category_id : Z := 1.

(** Body of [for animal_inst_idx in range(n_animals_in_session)]. *)
Definition process_instance (d : l3d_data)
    (keypoints_per_animal num_base_keypoints : Z)
    (frame_s_idx cam_idx current_image_id img_width img_height animal_inst_idx : Z)
  : M unit :=
  let cp := camPoints d in
  let num_total_markers := Z.of_nat (cp_markers cp) in
  let marker_start_idx := animal_inst_idx * keypoints_per_animal in
  let marker_end_idx := marker_start_idx + keypoints_per_animal in
  if decide (marker_end_idx > num_total_markers) then ret tt
  else if decide (~ (marker_start_idx < marker_end_idx /\
                     marker_end_idx <= Z.of_nat (cp_markers cp) /\
                     cam_idx < Z.of_nat (cp_cams cp) /\
                     frame_s_idx < Z.of_nat (cp_frames cp))) then ret tt
  else
    do inst <- lift (take_slices d marker_start_idx marker_end_idx cam_idx frame_s_idx);
    do acc <- lift (decode_loop inst keypoints_per_animal img_width img_height
                      (py_range num_base_keypoints) kp_acc_init);
    if decide (visible_xs acc = [] /\ num_labeled_kps_for_instance acc = 0) then ret tt
    else
      do _ <- modify incr_annotation_id;
      do bbox_f <- lift (bbox_float (visible_xs acc) (visible_ys acc) img_width img_height);
      do bbox_coco <- lift (rmap Float.py_round bbox_f);
      do area <- lift (Float.of_int (bbox_coco !!! 2%nat * bbox_coco !!! 3%nat));
      do s <- get;
      modify (add_annotation
                {| ann_id := annotation_id_counter s;
                   ann_image_id := current_image_id;
                   ann_category_id := category_id;
                   ann_iscrowd := 0;
                   ann_area := area;
                   ann_bbox := bbox_coco;
                   ann_num_keypoints := num_labeled_kps_for_instance acc;
                   ann_keypoints := coco_keypoints_flat acc |}).

(** Body of [for cam_idx in range(num_cameras)]. *)
Definition process_camera (d : l3d_data)
    (n_animals_in_session keypoints_per_animal num_base_keypoints : Z)
    (frame_s_idx original_frame_id cam_idx : Z) : M unit :=
  do _ <- modify incr_image_id;
  do s <- get;
  let current_image_id := image_id_counter s in
  do hw <- lift (getitem (imageSize d) cam_idx);
  let img_height := fst hw in
  let img_width := snd hw in
  let cam_name :=
    match camera_names d !! Z.to_nat cam_idx with
    | Some name => name
    | None => "Cam_" +:+ pretty (cam_idx + 1)
    end in
  do _ <- modify (add_image
                    {| img_id := current_image_id;
                       img_width := img_width;
                       img_height := img_height;
                       img_file_name :=
                         cam_name +:+ "_frame_" +:+ fmt_06d original_frame_id +:+ ".jpg" |});
  if decide (n_animals_in_session = 0) then ret tt
  else
    for_each (py_range n_animals_in_session)
      (process_instance d keypoints_per_animal num_base_keypoints
         frame_s_idx cam_idx current_image_id img_width img_height).

(** Body of [for frame_s_idx in range(num_session_frames)]. *)
Definition process_frame (d : l3d_data)
    (n_animals_in_session keypoints_per_animal num_base_keypoints : Z)
    (frame_s_idx : Z) : M unit :=
  do original_frame_id <- lift (getitem (framesToLabel d) frame_s_idx);
  for_each (py_range (Z.of_nat (cp_cams (camPoints d))))
    (process_camera d n_animals_in_session keypoints_per_animal num_base_keypoints
       frame_s_idx original_frame_id).

(** Nothing built yet: the state of a run that stops before
    [coco_output] is created. *)
Definition nothing_built : state :=
  {| coco := {| images := []; annotations := []; categories := [] |};
     image_id_counter := 0;
     annotation_id_counter := 0 |}.

Definition initial_state (sk : base_skeleton) : state :=
  {| coco := {| images := [];
                annotations := [];
                categories :=
                  [ {| cat_id := 1;
                       cat_name := "monkey";
                       cat_supercategory := "monkey";
                       cat_keypoints := joint_names sk;
                       cat_skeleton := (fun edge : list Z => (fun idx => idx - 1) <$> edge)
                                         <$> joints_idx sk |} ] |};
     image_id_counter := 0;
     annotation_id_counter := 0 |}.

(** [l3d_to_coco]: the final state of the conversion and whether it ran
    to the end ([Ok]: the output is then written to the JSON file) or
    raised. *)
Definition l3d_to_coco (d : l3d_data) (sk : base_skeleton) : state * result unit :=
  let num_total_markers := Z.of_nat (cp_markers (camPoints d)) in
  let num_base_keypoints := Z.of_nat (length (joint_names sk)) in
  match (try! n := read_n_animals d in
         keypoints_config num_total_markers n num_base_keypoints) with
  | Raise e => (nothing_built, Raise e)
  | Ok (n_animals_in_session, keypoints_per_animal) =>
      for_each (py_range (Z.of_nat (cp_frames (camPoints d))))
        (process_frame d n_animals_in_session keypoints_per_animal num_base_keypoints)
        (initial_state sk)
  end.

(** "Save COCO JSON File". [output_dir] is
    [os.path.dirname(output_coco_path)]: [os.makedirs] raises
    [FileNotFoundError] on the empty string, the directory part of a bare
    file name. [file_system_accepts] says whether the file system lets the
    directory be created (or has it) and the file be opened for writing;
    when it does not, [OSError] is raised. *)
Definition save (output_dir : string) (file_system_accepts : bool) (s : state)
  : result coco_output :=
  if decide (output_dir = ""%string) then Raise FileNotFoundError
  else if file_system_accepts then Ok (coco s)
  else Raise OSError.

(** The content of the JSON file, when one is written. *)
Definition written_file (d : l3d_data) (sk : base_skeleton)
    (output_dir : string) (file_system_accepts : bool) : option coco_output :=
  match l3d_to_coco d sk with
  | (s, Ok _) =>
      match save output_dir file_system_accepts s with
      | Ok out => Some out
      | Raise _ => None
      end
  | (_, Raise _) => None
  end.

End L3d.

(* ===================================================================== *)
(** * prepare_label3d_poses.py                                             *)
(* ===================================================================== *)

Module Prepare.

(** A coordinate as found in the JSON: a number, given by the double
    [float(...)] makes of it; an integer past the range of doubles, on
    which [float(...)] raises [OverflowError]; [null]; or a value on which
    [float(...)] raises [ValueError] (a string that is no number). *)
Inductive json_coord :=
  | JNum (x : float)
  | JHuge
  | JNull
  | JBad.

(** One instance of a frame. [instance_id] is the identifier already
    turned into a string, when there is one. *)
Record instance_json := {
  instance_id : option string;
  keypoints : list (list json_coord);
  keypoint_scores : list float
}.

(** One entry of [instance_info] or [image_predictions], with
    [actual_frame_id] resolved: [frame_id] itself for a video file, the
    number parsed from [image_path] for an image file. *)
Record frame_json := {
  actual_frame_id : option Z;
  instances : list instance_json
}.

(** The two output arrays, [cam_points_data] of shape
    (markers, cams, 2, frames) and [status_data] of shape
    (markers, cams, frames): a cell that was never written holds the
    fill value, [nan] for the first and [0] for the second. *)
Record arrays := {
  total_num_markers : nat;
  num_processed_cams : nat;
  num_processed_frames : nat;
  cam_points_data : gmap (nat * nat * nat) (float * float);
  status_data : gmap (nat * nat * nat) N
}.

(** [np.full(..., np.nan)] and [np.zeros(..., dtype=np.uint8)]. *)
Definition new_arrays (markers cams frames : nat) : arrays :=
  {| total_num_markers := markers;
     num_processed_cams := cams;
     num_processed_frames := frames;
     cam_points_data := ∅;
     status_data := ∅ |}.

Definition status_at (a : arrays) (idx : nat * nat * nat) : N :=
  default 0%N (status_data a !! idx).

Definition cam_points_at (a : arrays) (idx : nat * nat * nat) : float * float :=
  default (S754_nan, S754_nan) (cam_points_data a !! idx).

Definition in_bounds (a : arrays) (idx : nat * nat * nat) : Prop :=
  (idx.1.1 < total_num_markers a /\ idx.1.2 < num_processed_cams a /\
   idx.2 < num_processed_frames a)%nat.

#[global] Instance in_bounds_dec a idx : Decision (in_bounds a idx).
Proof. unfold in_bounds. apply _. Defined.

(** [cam_points_data[m, c, :, f] = [px, py]] *)
Definition set_cam_points (idx : nat * nat * nat) (xy : float * float) : SE arrays unit :=
  fun a =>
    if decide (in_bounds a idx) then
      ({| total_num_markers := total_num_markers a;
          num_processed_cams := num_processed_cams a;
          num_processed_frames := num_processed_frames a;
          cam_points_data := <[idx := xy]> (cam_points_data a);
          status_data := status_data a |}, Ok tt)
    else (a, Raise IndexError).

(** [status_data[m, c, f] = v] *)
Definition set_status (idx : nat * nat * nat) (v : N) : SE arrays unit :=
  fun a =>
    if decide (in_bounds a idx) then
      ({| total_num_markers := total_num_markers a;
          num_processed_cams := num_processed_cams a;
          num_processed_frames := num_processed_frames a;
          cam_points_data := cam_points_data a;
          status_data := <[idx := v]> (status_data a) |}, Ok tt)
    else (a, Raise IndexError).

#[global] Instance json_coord_inhabited : Inhabited json_coord := populate JNull.

(** [c is None] *)
Definition is_none (c : json_coord) : bool :=
  match c with
  | JNull => true
  | _ => false
  end.

(** [float(c)] *)
Definition to_float (c : json_coord) : result float :=
  match c with
  | JNum x => Ok x
  | JHuge => Raise OverflowError
  | JNull => Raise TypeError
  | JBad => Raise ValueError
  end.

(** [except (ValueError, TypeError)] *)
Definition value_or_type_error (e : exn) : bool :=
  match e with
  | ValueError | TypeError => true
  | _ => false
  end.

(** [try: m except <classes>: pass]: an exception of another class goes
    on, and what was done before the exception stays done. *)
Definition try_except {S} (handled : exn -> bool) (m : SE S unit) : SE S unit :=
  fun s => match m s with
           | (s', Ok u) => (s', Ok u)
           | (s', Raise e) => if handled e then (s', Ok tt) else (s', Raise e)
           end.

Section Populate.

Variable num_keypoints_per_instance : nat.
Variable kpt_score_threshold : float.
Variable frame_id_to_mat_idx_map : gmap Z nat.
Variable instance_id_to_slot_idx_map : gmap string nat.

(** Body of [for joint_idx in range(num_keypoints_per_instance)]. *)
Definition process_joint (cam_idx mat_frame_idx marker_offset : nat)
    (kps_list : list (list json_coord)) (scores_list : list float)
    (joint_idx : nat) : SE arrays unit :=
  let global_marker_idx := (marker_offset + joint_idx)%nat in
  do point_xy <- lift (getitem kps_list (Z.of_nat joint_idx));
  let score :=
    match scores_list !! joint_idx with
    | Some sc => sc
    | None => kpt_score_threshold
    end in
  if Float.geb score kpt_score_threshold
     && bool_decide (length point_xy = 2%nat)
     && negb (is_none (point_xy !!! 0%nat) || is_none (point_xy !!! 1%nat))
  then
    try_except value_or_type_error
      (do px <- lift (to_float (point_xy !!! 0%nat));
       do py <- lift (to_float (point_xy !!! 1%nat));
       do _ <- set_cam_points (global_marker_idx, cam_idx, mat_frame_idx) (px, py);
       set_status (global_marker_idx, cam_idx, mat_frame_idx) 1%N)
  else ret tt.

(** Body of [for inst_json in instances_for_frame]. *)
Definition process_instance (cam_idx mat_frame_idx : nat) (inst_json : instance_json)
  : SE arrays unit :=
  let json_instance_id_str := default "None"%string (instance_id inst_json) in
  match instance_id_to_slot_idx_map !! json_instance_id_str with
  | None => ret tt
  | Some instance_slot_idx =>
      let kps_list := keypoints inst_json in
      let scores_list := keypoint_scores inst_json in
      if decide (length kps_list = num_keypoints_per_instance /\
                 (scores_list = [] \/ length scores_list = num_keypoints_per_instance)) then
        let marker_offset := (instance_slot_idx * num_keypoints_per_instance)%nat in
        for_each (seq 0 num_keypoints_per_instance)
          (process_joint cam_idx mat_frame_idx marker_offset kps_list scores_list)
      else ret tt
  end.

(** Body of [for frame_content in current_frames_in_cam]. *)
Definition process_frame (cam_idx : nat) (frame_content : frame_json) : SE arrays unit :=
  match actual_frame_id frame_content with
  | None => ret tt
  | Some fid =>
      match frame_id_to_mat_idx_map !! fid with
      | None => ret tt
      | Some mat_frame_idx =>
          for_each (instances frame_content) (process_instance cam_idx mat_frame_idx)
      end
  end.

(** "Populating data arrays": every camera with its index and its
    frames (none when its JSON holds no data). *)
Definition populate (cameras : list (list frame_json)) : SE arrays unit :=
  for_each (zip (seq 0 (length cameras)) cameras)
    (fun '(cam_idx, current_frames_in_cam) =>
       for_each current_frames_in_cam (process_frame cam_idx)).

End Populate.

(** Array preparation and population, from the discovered dimensions:
    the arrays as they stand when the script stops. *)
Definition prepare_arrays (num_keypoints_per_instance num_distinct_instances num_frames : nat)
    (kpt_score_threshold : float)
    (frame_id_to_mat_idx_map : gmap Z nat)
    (instance_id_to_slot_idx_map : gmap string nat)
    (cameras : list (list frame_json)) : arrays * result unit :=
  populate num_keypoints_per_instance kpt_score_threshold
    frame_id_to_mat_idx_map instance_id_to_slot_idx_map cameras
    (new_arrays (num_distinct_instances * num_keypoints_per_instance) (length cameras) num_frames).

End Prepare.

(* ===================================================================== *)
(** * More of Python: sorting, enumeration, try/except                    *)
(* ===================================================================== *)

(** The order of Python on [str]: by code point, which on the UTF-8 bytes
    of a [string] is the byte-wise lexicographic order. *)
Definition string_le (a b : string) : Prop := String.leb a b = true.

#[global] Instance string_le_dec : RelDecision string_le.
Proof. intros a b. unfold string_le. apply _. Defined.

(** [sorted(list(s))] for a set of integers and for a set of strings. A
    set has no duplicates, and these orders are total: the result is the
    one sorted arrangement of the elements. *)
Definition sorted_ints (s : gset Z) : list Z := merge_sort Z.le (elements s).
Definition sorted_strings (s : gset string) : list string :=
  merge_sort string_le (elements s).

(** [{x: i for i, x in enumerate(l)}]: on a repeated key the last index
    stays. *)
Definition enumerate_map `{Countable K} (l : list K) : gmap K nat :=
  list_to_map (reverse (zip l (seq 0 (length l)))).

(** [try: m except Exception: pass]: what was done before the exception
    stays done. *)
Definition catch {S} (m : SE S unit) : SE S unit :=
  fun s => match m s with
           | (s', Ok u) => (s', Ok u)
           | (s', Raise _) => (s', Ok tt)
           end.

(* ===================================================================== *)
(** * multical2label3d.py: main, on a JSON file                            *)
(* ===================================================================== *)

Module MulticalMain.

(** One entry of [json_data['cameras']]. *)
Record intrinsics := {
  intr_K : list (list float);
  intr_dist : Multical.dist_input;
  intr_image_size : list Z
}.

(** The parsed file: either top-level key may be missing. [camera_poses]
    is given by its items in file order (as for every [dict], no key comes
    twice); [cameras] is only ever looked up and sorted. *)
Record json_data := {
  cameras : option (gmap string intrinsics);
  camera_poses : option (list (string * Multical.pose))
}.

(** What the loop over the cameras builds: the files saved, the counter,
    and the warnings printed. *)
Record progress := {
  saved : list (string * Multical.mat_dict);
  processed_count : nat;
  printed : list Multical.warning
}.

(** How [main] ends: by one of its early returns, by the exception of
    [os.makedirs], which nothing catches, or after the loop over the
    cameras. *)
Inductive outcome :=
  | NoReference
  | MissingKeys
  | NoCameras
  | Uncaught (e : exn)
  | Finished (p : progress).

Definition print_all (ws : list Multical.warning) (p : progress) : progress :=
  {| saved := saved p; processed_count := processed_count p;
     printed := printed p ++ ws |}.

Definition save (file : string) (m : Multical.mat_dict) (p : progress) : progress :=
  {| saved := saved p ++ [(file, m)]; processed_count := processed_count p;
     printed := printed p |}.

Definition count_one (p : progress) : progress :=
  {| saved := saved p; processed_count := S (processed_count p);
     printed := printed p |}.

(** A helper call that prints its warnings and returns or raises. *)
Definition call {A} (r : list Multical.warning * result A) : SE progress A :=
  fun p => (print_all (fst r) p, snd r).

Section Main.

Variable allclose_identity : list (list float) -> result bool.
Variable allclose_zero : list float -> result bool.

(** The [try] block of the detection loop: both arrays are made and both
    comparisons run before the results are combined. *)
Definition check_reference (pose_info : Multical.pose) : result bool :=
  try! R := asarray2 (Multical.pose_R pose_info) in
  let T := Multical.pose_T pose_info in
  try! is_identity_R := allclose_identity R in
  try! is_zero_T := allclose_zero T in
  Ok (is_identity_R && is_zero_T).

(** The file system: what "Create Output Directory" does (nothing when
    the directory exists, [os.makedirs] otherwise, which may raise), and
    whether [savemat] manages to write a file of a given name. *)
Variable create_output_dir : result unit.
Variable file_system_accepts : string -> bool.

(** [savemat(mat_filepath, mat_dict, ...)] *)
Definition savemat (file : string) (m : Multical.mat_dict) : SE progress unit :=
  fun p => if file_system_accepts file then (save file m p, Ok tt)
           else (p, Raise OSError).

(** "Auto-detect Reference Camera from JSON": the first key without
    ["_to_"] whose rotation is close to the identity and whose translation
    is close to zero. An entry whose check raises is passed over
    ([except Exception: continue]). *)
Fixpoint detect_reference_camera (items : list (string * Multical.pose)) : option string :=
  match items with
  | [] => None
  | (pose_key, pose_info) :: rest =>
      if negb (contains "_to_" pose_key) then
        match check_reference pose_info with
        | Ok true => Some pose_key
        | Ok false => detect_reference_camera rest
        | Raise _ => detect_reference_camera rest
        end
      else detect_reference_camera rest
  end.

(** Body of the [try] of the loop over the cameras. *)
Definition export_camera (all_intrinsics : gmap string intrinsics)
    (poses : gmap string Multical.pose) (detected_ref_cam cam_name : string)
  : SE progress unit :=
  match all_intrinsics !! cam_name with
  | None => ret tt
  | Some intr =>
      let K_original := intr_K intr in
      let dist_coeffs := intr_dist intr in
      let img_size := intr_image_size intr in
      do distort <- call (Multical.extract_distortion dist_coeffs);
      do pose <- call (Multical.get_extrinsics_json allclose_identity allclose_zero
                         poses cam_name detected_ref_cam);
      do m <- lift (Multical.camera_mat_dict K_original (fst distort) (snd distort)
                      (fst pose) (Arr1 (snd pose)) img_size);
      do _ <- savemat (cam_name +:+ "_params.mat") m;
      modify count_one
  end.

Definition main (j : json_data) : outcome :=
  match (match camera_poses j with
         | Some items => detect_reference_camera items
         | None => None
         end) with
  | None => NoReference
  | Some detected_ref_cam =>
      match cameras j, camera_poses j with
      | Some all_intrinsics, Some items =>
          let target_cameras := sorted_strings (dom all_intrinsics) in
          if decide (target_cameras = []) then NoCameras
          else
            match create_output_dir with
            | Raise e => Uncaught e
            | Ok _ =>
                Finished
                  (fst (for_each target_cameras
                          (fun cam_name =>
                             catch (export_camera all_intrinsics (list_to_map items)
                                      detected_ref_cam cam_name))
                          {| saved := []; processed_count := 0; printed := [] |}))
            end
      | _, _ => MissingKeys
      end
  end.

End Main.

End MulticalMain.

(* ===================================================================== *)
(** * prepare_label3d_poses.py: main, from the loaded camera files        *)
(* ===================================================================== *)

Module PrepareMain.

(** What is saved to the .mat file. *)
Record output := {
  precomputed : Prepare.arrays;
  processed_frame_ids : list Z;
  discovered_instance_ids : list string
}.

(** The script stops with [parser.error], raises, saves, or prints the
    error of a [savemat] that failed. *)
Inductive outcome :=
  | ParserError
  | Raised (e : exn) (a : Prepare.arrays)
  | Saved (out : output)
  | SaveFailed (out : output).

(** [np.array(sorted_frame_ids, dtype=int)] takes the integers of 64
    bits, and raises [OverflowError] on any other. *)
Definition fits_int64 (n : Z) : bool := (- 2 ^ 63 <=? n)%Z && (n <? 2 ^ 63)%Z.

(** "Discover all unique frame IDs and instance IDs" *)
Definition all_frame_ids_set (cameras : list (list Prepare.frame_json)) : gset Z :=
  list_to_set (omap Prepare.actual_frame_id (concat cameras)).

Definition all_instance_ids_set (cameras : list (list Prepare.frame_json)) : gset string :=
  list_to_set (omap Prepare.instance_id (concat (Prepare.instances <$> concat cameras))).

(** [main], from the number of joints of the skeleton and the frames of
    every camera whose file could be loaded. [savemat_writes] says whether
    [scipy.io.savemat] manages to write the output file. *)
Definition main (num_keypoints_per_instance : nat) (kpt_score_threshold : float)
    (savemat_writes : bool)
    (cameras : list (list Prepare.frame_json)) : outcome :=
  if decide (num_keypoints_per_instance = 0%nat) then ParserError
  else if decide (cameras = []) then ParserError
  else if decide (all_frame_ids_set cameras = ∅) then ParserError
  else if decide (all_instance_ids_set cameras = ∅) then ParserError
  else
    let sorted_frame_ids := sorted_ints (all_frame_ids_set cameras) in
    let sorted_instance_ids := sorted_strings (all_instance_ids_set cameras) in
    let num_distinct_instances := length sorted_instance_ids in
    let num_processed_frames := length sorted_frame_ids in
    let frame_id_to_mat_idx_map := enumerate_map sorted_frame_ids in
    let instance_id_to_slot_idx_map := enumerate_map sorted_instance_ids in
    match Prepare.prepare_arrays num_keypoints_per_instance num_distinct_instances
            num_processed_frames kpt_score_threshold frame_id_to_mat_idx_map
            instance_id_to_slot_idx_map cameras with
    | (a, Ok _) =>
        if forallb fits_int64 sorted_frame_ids then
          let output_data_dict :=
            {| precomputed := a;
               processed_frame_ids := sorted_frame_ids;
               discovered_instance_ids := sorted_instance_ids |} in
          if savemat_writes then Saved output_data_dict
          else SaveFailed output_data_dict
        else Raised OverflowError a
    | (a, Raise e) => Raised e a
    end.

End PrepareMain.

(* ===================================================================== *)
(** * create_coco_skeleton.py                                              *)
(* ===================================================================== *)

Module Skeleton.

Local Open Scope Z_scope.

Definition joint_names : list string :=
  ["nose"; "left_eye"; "right_eye"; "left_ear"; "right_ear";
   "left_shoulder"; "right_shoulder"; "left_elbow"; "right_elbow";
   "left_wrist"; "right_wrist"; "left_hip"; "right_hip";
   "left_knee"; "right_knee"; "left_ankle"; "right_ankle"]%string.

Definition joints_idx : list (list Z) :=
  [[1; 2]; [2; 4]; [1; 3]; [3; 5]; [4; 6]; [5; 7];
   [6; 7]; [12; 13]; [6; 12]; [7; 13];
   [6; 8]; [8; 10];
   [7; 9]; [9; 11];
   [12; 14]; [14; 16];
   [13; 15]; [15; 17]].

Definition blue : list Z := [0; 0; 1].
Definition red : list Z := [1; 0; 0].
Definition yellow : list Z := [1; 1; 0].
Definition purple : list Z := [1; 0; 1].
Definition cyan : list Z := [0; 1; 1].
Definition white : list Z := [1; 1; 1].

Definition colors : list (list Z) :=
  [yellow; yellow; yellow; yellow; yellow; yellow;
   white; white; white; white;
   blue; blue;
   red; red;
   cyan; cyan;
   purple; purple].

(** [a.shape[1]] of a two-dimensional array given by its rows; an array
    built from no row has no second dimension. *)
Definition shape1 {A} (rows : list (list A)) : result nat :=
  match rows with
  | [] => Raise IndexError
  | row :: _ => Ok (length row)
  end.

(** The "Validation" block, on any names, connections and colours. *)
Definition validate (names : list string) (idx : list (list Z)) (cols : list (list Z))
  : result unit :=
  let num_connections := length idx in
  let num_colors := length cols in
  if decide (num_connections <> num_colors) then Raise ValueError
  else
    try! c := shape1 idx in
    if decide (c <> 2%nat) then Raise ValueError
    else
      try! cc := shape1 cols in
      if decide (cc <> 3%nat) then Raise ValueError
      else
        try! hi := L3d.list_max (concat idx) in
        if decide (hi > Z.of_nat (length names)) then Raise ValueError
        else
          try! lo := L3d.list_min (concat idx) in
          if decide (lo < 1) then Raise ValueError
          else Ok tt.

(** The skeleton file as [l3d_to_coco] reads it back. *)
Definition as_base_skeleton (names : list string) (idx : list (list Z)) : L3d.base_skeleton :=
  {| L3d.joint_names := names; L3d.joints_idx := idx |}.

End Skeleton.

(* ===================================================================== *)
(** * The specification's own words, as definitions                        *)
(* ===================================================================== *)

Module Spec.

(** "Any index beyond the input length is substituted with 0.0." *)
Definition coeff_or_zero (coeffs : list float) (i : nat) : float :=
  default Float.zero (coeffs !! i).

(** "radial = values at source indices {0,1,4}; tangential = values at
    indices {2,3}." *)
Definition split_distortion (coeffs : list float) : list float * list float :=
  (coeff_or_zero coeffs <$> [0; 1; 4]%nat, coeff_or_zero coeffs <$> [2; 3]%nat).

(** "A warning is issued whenever fewer than 2 (radial) or 4 (tangential)
    coefficients are present." *)
Definition split_warnings (coeffs : list float) : list Multical.warning :=
  (if decide (length coeffs < 2)%nat
   then [Multical.WarnRadialInaccurate (length coeffs)] else [])
  ++ (if decide (length coeffs < 4)%nat then [Multical.WarnTangentialInaccurate] else []).

Section Annotation.

Local Open Scope Z_scope.

(** The triplets of an instance, flattened to [x, y, v, x, y, v, ...]. *)
Definition flat_triplets (ts : list (Z * Z * Z)) : list Z :=
  concat ((fun t : Z * Z * Z => [t.1.1; t.1.2; t.2]) <$> ts).

(** "count(v>0 for all points)" *)
Definition count_labeled (ts : list (Z * Z * Z)) : Z :=
  Z.of_nat (length (filter (fun t : Z * Z * Z => 0 < t.2) ts)).

(** "only points with v==2" *)
Definition fully_visible (ts : list (Z * Z * Z)) : list (Z * Z * Z) :=
  filter (fun t : Z * Z * Z => t.2 = 2) ts.

(** Minimum and maximum of the non-empty list [x :: l]. *)
Definition least (x : Z) (l : list Z) : Z := foldr Z.min x l.
Definition greatest (x : Z) (l : list Z) : Z := foldr Z.max x l.

(** "min and max over those points; clip extrema into [0, image_w-1] and
    [0, image_h-1] before computing width/height; width/height floor at 0;
    round each of [x,y,w,h]; [0,0,0,0] if no such points exist." *)
Definition bbox (ts : list (Z * Z * Z)) (image_w image_h : Z) : list Z :=
  match fully_visible ts with
  | [] => [0; 0; 0; 0]
  | p :: ps =>
      let min_x := least p.1.1 ((fun t : Z * Z * Z => t.1.1) <$> ps) in
      let max_x := greatest p.1.1 ((fun t : Z * Z * Z => t.1.1) <$> ps) in
      let min_y := least p.1.2 ((fun t : Z * Z * Z => t.1.2) <$> ps) in
      let max_y := greatest p.1.2 ((fun t : Z * Z * Z => t.1.2) <$> ps) in
      let x0 := Qmax 0 (inject_Z min_x) in
      let y0 := Qmax 0 (inject_Z min_y) in
      let x1 := Qmin (inject_Z (image_w - 1)) (inject_Z max_x) in
      let y1 := Qmin (inject_Z (image_h - 1)) (inject_Z max_y) in
      Float.py_round_Q <$> [x0; y0; Qmax 0 (x1 - x0)%Q; Qmax 0 (y1 - y0)%Q]
  end.

(** The instance with index [animal] of a (frame, camera) pair is
    processed: its marker range lies in the keypoint tensor and the status
    tensor has the camera and the frame. *)
Definition processed (d : L3d.l3d_data) (kpa frame cam animal : Z) : Prop :=
  let cp := L3d.camPoints d in
  let st := L3d.status d in
  animal * kpa + kpa <= Z.of_nat (L3d.cp_markers cp) /\
  0 < kpa /\
  cam < Z.of_nat (L3d.cp_cams cp) /\
  frame < Z.of_nat (L3d.cp_frames cp) /\
  cam < Z.of_nat (L3d.st_cams st) /\
  frame < Z.of_nat (L3d.st_frames st).

(** No coordinate of the instance is an infinity. *)
Definition no_infinite_coordinate (d : L3d.l3d_data) (kpa frame cam animal : Z) : Prop :=
  forall k, 0 <= k < kpa ->
    Float.isinf (fst (L3d.cp_xy (L3d.camPoints d) (animal * kpa + k) cam frame)) = false /\
    Float.isinf (snd (L3d.cp_xy (L3d.camPoints d) (animal * kpa + k) cam frame)) = false.

(** The record built for an instance with triplets [ts]. *)
Definition annotation_of (id image_id : Z) (ts : list (Z * Z * Z)) (image_w image_h : Z)
  : L3d.annotation :=
  let box := bbox ts image_w image_h in
  {| L3d.ann_id := id;
     L3d.ann_image_id := image_id;
     L3d.ann_category_id := 1;
     L3d.ann_iscrowd := 0;
     L3d.ann_area := Float.of_Z (box !!! 2%nat * box !!! 3%nat);
     L3d.ann_bbox := box;
     L3d.ann_num_keypoints := count_labeled ts;
     L3d.ann_keypoints := flat_triplets ts |}.

(** An image of at most 2^53 pixels: its pixel coordinates, their
    differences and the area of a box inside it are integers that doubles
    hold exactly. *)
Definition exact_sizes (image_w image_h : Z) : Prop := image_w * image_h <= 2 ^ 53.

(** The keypoint tensor is loaded with the four dimensions it was stored
    with: none of markers, cameras and frames is below two. *)
Definition loaded_as_stored (d : L3d.l3d_data) : Prop :=
  (2 <= L3d.cp_markers (L3d.camPoints d))%nat /\
  (2 <= L3d.cp_cams (L3d.camPoints d))%nat /\
  (2 <= L3d.cp_frames (L3d.camPoints d))%nat.

(** Every camera of the file has an image of at most 2^53 pixels. *)
Definition exact_image_sizes (d : L3d.l3d_data) : Prop :=
  Forall (fun hw : Z * Z => exact_sizes hw.2 hw.1) (L3d.imageSize d).

(** A well-formed file: sizes and frame labels for every camera and frame
    of the keypoint tensor, a status tensor covering it, and no infinite
    coordinate. *)
Definition well_formed (d : L3d.l3d_data) : Prop :=
  let cp := L3d.camPoints d in
  let st := L3d.status d in
  (L3d.cp_cams cp <= length (L3d.imageSize d))%nat /\
  (L3d.cp_frames cp <= length (L3d.framesToLabel d))%nat /\
  (L3d.cp_markers cp <= L3d.st_markers st)%nat /\
  (L3d.cp_cams cp <= L3d.st_cams st)%nat /\
  (L3d.cp_frames cp <= L3d.st_frames st)%nat /\
  (forall m c f,
     Float.isinf (fst (L3d.cp_xy cp m c f)) = false /\
     Float.isinf (snd (L3d.cp_xy cp m c f)) = false).

(** The same file with another value under [nAnimalsInSession]. *)
Definition with_n_animals (n : option Z) (d : L3d.l3d_data) : L3d.l3d_data :=
  {| L3d.camPoints := L3d.camPoints d;
     L3d.status := L3d.status d;
     L3d.imageSize := L3d.imageSize d;
     L3d.framesToLabel := L3d.framesToLabel d;
     L3d.nAnimalsInSession := n;
     L3d.skeleton_nAnimals := L3d.skeleton_nAnimals d;
     L3d.cameraNamesToSave := L3d.cameraNamesToSave d |}.

End Annotation.

Section Identifiers.

Local Open Scope Z_scope.

(** The name under which camera [j] is written. *)
Definition camera_name (d : L3d.l3d_data) (j : Z) : string :=
  match L3d.camera_names d !! Z.to_nat j with
  | Some name => name
  | None => "Cam_" +:+ pretty (j + 1)
  end.

(** [im] is the image record of camera [j] (0-based) of frame [i]
    (0-based): identifier [i * num_cameras + j + 1], the size of camera
    [j], and the file name of camera [j] at the label of frame [i]. *)
Definition image_of (d : L3d.l3d_data) (i j : Z) (im : L3d.image) : Prop :=
  L3d.img_id im = i * Z.of_nat (L3d.cp_cams (L3d.camPoints d)) + j + 1 /\
  getitem (L3d.imageSize d) j = Ok (L3d.img_height im, L3d.img_width im) /\
  exists fid,
    getitem (L3d.framesToLabel d) i = Ok fid /\
    L3d.img_file_name im
    = camera_name d j +:+ "_frame_" +:+ L3d.fmt_06d fid +:+ ".jpg".

(** The image at position [p] of the output is the one of frame
    [p / num_cameras] and camera [p mod num_cameras]. *)
Definition images_in_order (d : L3d.l3d_data) (ims : list L3d.image) : Prop :=
  forall (p : nat) im, ims !! p = Some im ->
    image_of d (Z.of_nat p / Z.of_nat (L3d.cp_cams (L3d.camPoints d)))
               (Z.of_nat p mod Z.of_nat (L3d.cp_cams (L3d.camPoints d))) im.

(** Identifiers 1, 2, 3, ... in list order. *)
Definition consecutive_from_one (ids : list Z) : Prop :=
  forall (p : nat) id, ids !! p = Some id -> id = Z.of_nat p + 1.

(** Values that never go down along the list. *)
Definition nondecreasing (l : list Z) : Prop :=
  forall (p q : nat) a b, (p <= q)%nat -> l !! p = Some a -> l !! q = Some b -> a <= b.

(** Annotations in traversal order among [k] images: identifiers
    1, 2, 3, ...; the image identifiers never go down; each is the
    identifier of one of the [k] images. *)
Definition annotations_in_order (k : Z) (anns : list L3d.annotation) : Prop :=
  consecutive_from_one (L3d.ann_id <$> anns) /\
  nondecreasing (L3d.ann_image_id <$> anns) /\
  Forall (fun a => 1 <= L3d.ann_image_id a <= k) anns.

(** What holds of the state between two iterations, with [k] images built
    so far... *)
Definition between_iterations (d : L3d.l3d_data) (k : Z) (s : L3d.state) : Prop :=
  L3d.image_id_counter s = k /\
  Z.of_nat (length (L3d.images (L3d.coco s))) = k /\
  L3d.annotation_id_counter s = Z.of_nat (length (L3d.annotations (L3d.coco s))) /\
  images_in_order d (L3d.images (L3d.coco s)) /\
  annotations_in_order k (L3d.annotations (L3d.coco s)).

(** ... and what holds of it at any point, also when the run has raised. *)
Definition at_any_point (d : L3d.l3d_data) (s : L3d.state) : Prop :=
  images_in_order d (L3d.images (L3d.coco s)) /\
  annotations_in_order (Z.of_nat (length (L3d.images (L3d.coco s))))
    (L3d.annotations (L3d.coco s)).

End Identifiers.

Section OutputShape.

Local Open Scope Z_scope.

(** A flat keypoint list read back three by three. *)
Fixpoint triplets (flat : list Z) : list (Z * Z * Z) :=
  match flat with
  | x :: y :: v :: rest => (x, y, v) :: triplets rest
  | _ => []
  end.

(** An annotation as COCO readers expect it, for a category of [nbk]
    keypoints: [keypoints] is [nbk] whole triplets with v among 0, 1, 2;
    [num_keypoints] counts the triplets with v > 0 and is at least 1; the
    category is 1 and [iscrowd] is 0. *)
Definition annotation_shape (nbk : Z) (a : L3d.annotation) : Prop :=
  let ts := triplets (L3d.ann_keypoints a) in
  L3d.ann_keypoints a = flat_triplets ts /\
  Z.of_nat (length ts) = nbk /\
  Z.of_nat (length (L3d.ann_keypoints a)) = 3 * nbk /\
  Forall (fun t : Z * Z * Z => t.2 = 0 \/ t.2 = 1 \/ t.2 = 2) ts /\
  L3d.ann_num_keypoints a = count_labeled ts /\
  1 <= L3d.ann_num_keypoints a <= nbk /\
  L3d.ann_category_id a = 1 /\
  L3d.ann_iscrowd a = 0.

(** The box of an annotation against its image: four non-negative
    integers [x, y, w, h] with the box inside the image, the area the
    double [float(w * h)], which holds [w * h] exactly, every labelled
    keypoint inside the image and every keypoint with v = 2 inside the
    box. *)
Definition box_in_image (a : L3d.annotation) (im : L3d.image) : Prop :=
  exists x y w h,
    L3d.ann_bbox a = [x; y; w; h] /\
    0 <= x /\ 0 <= y /\ 0 <= w /\ 0 <= h /\
    x + w <= L3d.img_width im - 1 /\
    y + h <= L3d.img_height im - 1 /\
    L3d.ann_area a = Float.of_Z (w * h) /\
    (Float.to_Q (L3d.ann_area a) == inject_Z (w * h))%Q /\
    Forall (fun t : Z * Z * Z =>
              (0 < t.2 -> 0 <= t.1.1 < L3d.img_width im /\
                          0 <= t.1.2 < L3d.img_height im) /\
              (t.2 = 2 -> x <= t.1.1 <= x + w /\ y <= t.1.2 <= y + h))
           (triplets (L3d.ann_keypoints a)).

(** Every annotation of the state is well shaped and belongs to an image
    of the state, which its box fits when the image has at most 2^53
    pixels. *)
Definition annotations_fit (nbk : Z) (s : L3d.state) : Prop :=
  Forall (fun a =>
            annotation_shape nbk a /\
            exists im,
              L3d.images (L3d.coco s) !! Z.to_nat (L3d.ann_image_id a - 1) = Some im /\
              L3d.img_id im = L3d.ann_image_id a /\
              (exact_sizes (L3d.img_width im) (L3d.img_height im) -> box_in_image a im))
         (L3d.annotations (L3d.coco s)).

(** Between two iterations the annotations fit and the image counter is
    the number of images. *)
Definition fit_between (nbk : Z) (s : L3d.state) : Prop :=
  annotations_fit nbk s /\
  L3d.image_id_counter s = Z.of_nat (length (L3d.images (L3d.coco s))).

End OutputShape.

(** The two arrays go together: the same cells were written in both, all
    of them inside the arrays, and a written status is 1. *)
Definition arrays_consistent (a : Prepare.arrays) : Prop :=
  dom (Prepare.status_data a) = dom (Prepare.cam_points_data a) /\
  map_Forall (fun _ v => v = 1%N) (Prepare.status_data a) /\
  (forall idx, idx ∈ dom (Prepare.cam_points_data a) -> Prepare.in_bounds a idx).

(** The shape of the arrays. *)
Definition arrays_shape (a : Prepare.arrays) : nat * nat * nat :=
  (Prepare.total_num_markers a, Prepare.num_processed_cams a,
   Prepare.num_processed_frames a).

(** The property carried through the loops: consistent arrays of a fixed
    shape. *)
Definition arrays_kept (shape : nat * nat * nat) (a : Prepare.arrays) : Prop :=
  arrays_consistent a /\ arrays_shape a = shape.

Section Provenance.

Variable num_keypoints_per_instance : nat.
Variable kpt_score_threshold : float.
Variable frame_id_to_mat_idx_map : gmap Z nat.
Variable instance_id_to_slot_idx_map : gmap string nat.

(** Joint [joint_idx] of an instance is kept, with coordinates [xy]: the
    instance has one keypoint per joint of the skeleton and no score or
    one score per joint; the score of the joint (the threshold itself when
    there is no score) reaches the threshold; and the keypoint is a pair
    of numbers, [xy]. *)
Definition kept_joint (inst_json : Prepare.instance_json) (joint_idx : nat)
    (xy : float * float) : Prop :=
  length (Prepare.keypoints inst_json) = num_keypoints_per_instance /\
  (Prepare.keypoint_scores inst_json = []
   \/ length (Prepare.keypoint_scores inst_json) = num_keypoints_per_instance) /\
  Float.geb (default kpt_score_threshold (Prepare.keypoint_scores inst_json !! joint_idx))
            kpt_score_threshold = true /\
  Prepare.keypoints inst_json !! joint_idx = Some [Prepare.JNum xy.1; Prepare.JNum xy.2].

(** Cell [(marker, camera, column)] is the cell of a kept joint of the
    camera files: the joint of an instance of a frame of that camera, the
    column being the one of the frame identifier and the marker the joint
    within the slot of the instance identifier (["None"] for an instance
    without identifier). *)
Definition cell_of (cameras : list (list Prepare.frame_json))
    (idx : nat * nat * nat) (xy : float * float) : Prop :=
  exists current_frames_in_cam frame_content inst_json fid instance_slot_idx joint_idx,
    cameras !! idx.1.2 = Some current_frames_in_cam /\
    frame_content ∈ current_frames_in_cam /\
    inst_json ∈ Prepare.instances frame_content /\
    Prepare.actual_frame_id frame_content = Some fid /\
    frame_id_to_mat_idx_map !! fid = Some idx.2 /\
    instance_id_to_slot_idx_map !! default "None"%string (Prepare.instance_id inst_json)
    = Some instance_slot_idx /\
    idx.1.1 = (instance_slot_idx * num_keypoints_per_instance + joint_idx)%nat /\
    (joint_idx < num_keypoints_per_instance)%nat /\
    kept_joint inst_json joint_idx xy.

(** Every stored pair comes from a kept joint of its cell. *)
Definition stored_from (cameras : list (list Prepare.frame_json)) (a : Prepare.arrays)
  : Prop :=
  forall idx xy, Prepare.cam_points_data a !! idx = Some xy -> cell_of cameras idx xy.

End Provenance.

(** Some keypoint of the camera files has a coordinate past the range of
    doubles. *)
Definition oversized_coordinate (cameras : list (list Prepare.frame_json)) : Prop :=
  exists current_frames_in_cam frame_content inst_json point_xy,
    current_frames_in_cam ∈ cameras /\
    frame_content ∈ current_frames_in_cam /\
    inst_json ∈ Prepare.instances frame_content /\
    point_xy ∈ Prepare.keypoints inst_json /\
    Prepare.JHuge ∈ point_xy.

(** Every cell of [status_data] that was written holds 1. *)
Definition only_initialized (a : Prepare.arrays) : Prop :=
  map_Forall (fun _ v => v = 1%N) (Prepare.status_data a).

Section ExportedFiles.

Variable allclose_identity : list (list float) -> result bool.
Variable allclose_zero : list float -> result bool.

(** A comparison that returned [True]. *)
Definition holds (r : result bool) : bool :=
  match r with
  | Ok b => b
  | Raise _ => false
  end.

(** A pose entry that can be the reference camera: a key without
    ["_to_"], a rotation that makes an array and is close to the identity,
    a translation close to zero. *)
Definition is_reference (entry : string * Multical.pose) : bool :=
  negb (contains "_to_" entry.1)
  && rectangular (Multical.pose_R entry.2)
  && holds (allclose_identity (Multical.pose_R entry.2))
  && holds (allclose_zero (Multical.pose_T entry.2)).

(** The record of one camera, when it has intrinsics and its distortion,
    its pose and its matrices can all be computed. *)
Definition camera_record (all_intrinsics : gmap string MulticalMain.intrinsics)
    (poses : gmap string Multical.pose) (ref_cam cam_name : string)
  : option Multical.mat_dict :=
  match all_intrinsics !! cam_name with
  | None => None
  | Some intr =>
      match snd (Multical.extract_distortion (MulticalMain.intr_dist intr)),
            snd (Multical.get_extrinsics_json allclose_identity allclose_zero
                   poses cam_name ref_cam) with
      | Ok distort, Ok pose =>
          match Multical.camera_mat_dict (MulticalMain.intr_K intr)
                  (fst distort) (snd distort) (fst pose) (Arr1 (snd pose))
                  (MulticalMain.intr_image_size intr) with
          | Ok m => Some m
          | Raise _ => None
          end
      | _, _ => None
      end
  end.

Variable file_system_accepts : string -> bool.

(** One file per camera that has a record and whose file the file system
    accepts, in the order of the cameras. *)
Definition files_of (all_intrinsics : gmap string MulticalMain.intrinsics)
    (poses : gmap string Multical.pose) (ref_cam : string) (cams : list string)
  : list (string * Multical.mat_dict) :=
  omap (fun cam_name =>
          let file := (cam_name +:+ "_params.mat")%string in
          if file_system_accepts file
          then (fun m => (file, m)) <$> camera_record all_intrinsics poses ref_cam cam_name
          else None) cams.

End ExportedFiles.

End Spec.

(* ===================================================================== *)
(** * Sample inputs                                                        *)
(* ===================================================================== *)

Module Sample.

(** A few doubles in canonical form. *)
Definition half : float := S754_finite false 4503599627370496 (-53).
Definition quarter : float := S754_finite false 4503599627370496 (-54).
Definition two : float := S754_finite false 4503599627370496 (-51).
Definition ten : float := S754_finite false 5629499534213120 (-49).
Definition twenty : float := S754_finite false 5629499534213120 (-48).
Definition minus_five : float := S754_finite true 5629499534213120 (-50).
Definition five_hundred : float := S754_finite false 8796093022208000 (-44).

(** A quarter turn about the z axis, and a translation. *)
Definition R_direct : list (list float) :=
  [[Float.zero; Float.one; Float.zero];
   [SFopp Float.one; Float.zero; Float.zero];
   [Float.zero; Float.zero; Float.one]].
Definition T_direct : list float := [half; Float.zero; quarter].
Definition T_relative : list float := [two; half; Float.zero].

Definition direct_pose : Multical.pose :=
  {| Multical.pose_R := R_direct; Multical.pose_T := T_direct |}.
Definition relative_pose : Multical.pose :=
  {| Multical.pose_R := Multical.identity3; Multical.pose_T := T_relative |}.

(** A pose table with the relative key only, and one that also has a
    direct entry for the same camera. *)
Definition relative_only : gmap string Multical.pose :=
  {[ "Cam_B_to_Cam_A"%string := relative_pose ]}.
Definition direct_and_relative : gmap string Multical.pose :=
  <[ "Cam_B"%string := direct_pose ]> relative_only.

(** A comparison that gives the same answer on every array. *)
Definition always (b : bool) {A} (_ : A) : result bool := Ok b.

Definition K_standard : list (list float) :=
  [[five_hundred; Float.zero; ten];
   [Float.zero; five_hundred; twenty];
   [Float.zero; Float.zero; Float.one]].

(** One camera of 100x100 pixels, one frame, one animal of three markers:
    the first at (10, 10), the second at (-5, 20), the third not labelled
    (NaN); every status is LABELED. *)
Definition scenario_points : L3d.cam_points :=
  {| L3d.cp_markers := 3; L3d.cp_cams := 1; L3d.cp_frames := 1;
     L3d.cp_xy := fun m _ _ =>
       if decide (m = 0%Z) then (ten, ten)
       else if decide (m = 1%Z) then (minus_five, twenty)
       else (S754_nan, S754_nan) |}.

Definition scenario_status : L3d.status_array :=
  {| L3d.st_markers := 3; L3d.st_cams := 1; L3d.st_frames := 1;
     L3d.st_val := fun _ _ _ => L3d.L3D_STATUS_LABELED |}.

Definition scenario : L3d.l3d_data :=
  {| L3d.camPoints := scenario_points;
     L3d.status := scenario_status;
     L3d.imageSize := [(100, 100)%Z];
     L3d.framesToLabel := [7%Z];
     L3d.nAnimalsInSession := Some 1%Z;
     L3d.skeleton_nAnimals := None;
     L3d.cameraNamesToSave := ["Cam_A"%string] |}.

(** A session of two cameras of 100x100 pixels and two frames, labelled
    7 and 8, with one animal of three markers: in the first frame the
    first camera sees the first marker at (10, 10) and the second at
    (-5, 20); every other coordinate is NaN; every status is LABELED. *)
Definition session_points : L3d.cam_points :=
  {| L3d.cp_markers := 3; L3d.cp_cams := 2; L3d.cp_frames := 2;
     L3d.cp_xy := fun m c f =>
       if decide (c = 0%Z /\ f = 0%Z /\ m = 0%Z) then (ten, ten)
       else if decide (c = 0%Z /\ f = 0%Z /\ m = 1%Z) then (minus_five, twenty)
       else (S754_nan, S754_nan) |}.

Definition session_status : L3d.status_array :=
  {| L3d.st_markers := 3; L3d.st_cams := 2; L3d.st_frames := 2;
     L3d.st_val := fun _ _ _ => L3d.L3D_STATUS_LABELED |}.

Definition session : L3d.l3d_data :=
  {| L3d.camPoints := session_points;
     L3d.status := session_status;
     L3d.imageSize := [(100, 100)%Z; (100, 100)%Z];
     L3d.framesToLabel := [7%Z; 8%Z];
     L3d.nAnimalsInSession := Some 1%Z;
     L3d.skeleton_nAnimals := None;
     L3d.cameraNamesToSave := ["Cam_A"%string; "Cam_B"%string] |}.

(** The same file, said to hold two animals. *)
Definition scenario_two_animals : L3d.l3d_data :=
  {| L3d.camPoints := scenario_points;
     L3d.status := scenario_status;
     L3d.imageSize := [(100, 100)%Z];
     L3d.framesToLabel := [7%Z];
     L3d.nAnimalsInSession := Some 2%Z;
     L3d.skeleton_nAnimals := None;
     L3d.cameraNamesToSave := ["Cam_A"%string] |}.

Definition skeleton3 : L3d.base_skeleton :=
  {| L3d.joint_names := ["nose"; "neck"; "tail"]%string;
     L3d.joints_idx := [[1; 2]; [2; 3]]%Z |}.

(** The annotation that [scenario] gives. *)
Definition scenario_annotation : L3d.annotation :=
  {| L3d.ann_id := 1; L3d.ann_image_id := 1; L3d.ann_category_id := 1;
     L3d.ann_iscrowd := 0; L3d.ann_area := Float.zero;
     L3d.ann_bbox := [10; 10; 0; 0]%Z;
     L3d.ann_num_keypoints := 1;
     L3d.ann_keypoints := [10; 10; 2; -5; 20; 0; 0; 0; 0]%Z |}.

(** The slices of the only instance of [scenario]. *)
Definition scenario_slices : L3d.instance_slices :=
  {| L3d.kps_len := 3;
     L3d.kps := fun k => L3d.cp_xy scenario_points (0 + k) 0 0;
     L3d.status_len := 3;
     L3d.status_vals := fun k => L3d.st_val scenario_status (0 + k) 0 0 |}.

(** One camera, one frame labelled 5, one instance "0" of two joints: the
    first at (10, 20), the second with a [null] coordinate. *)
Definition pose_results : list (list Prepare.frame_json) :=
  [[ {| Prepare.actual_frame_id := Some 5%Z;
        Prepare.instances :=
          [ {| Prepare.instance_id := Some "0"%string;
               Prepare.keypoints :=
                 [[Prepare.JNum ten; Prepare.JNum twenty];
                  [Prepare.JNull; Prepare.JNum ten]];
               Prepare.keypoint_scores := [half; half] |} ] |} ]].

Definition prepared : Prepare.arrays * result unit :=
  Prepare.prepare_arrays 2 1 1 quarter {[ 5%Z := 0%nat ]} {[ "0"%string := 0%nat ]}
    pose_results.

(** A calibration file of two cameras: [Cam_A] is the reference, [Cam_B]
    is given relative to it. *)
Definition intrinsics_standard : MulticalMain.intrinsics :=
  {| MulticalMain.intr_K := K_standard;
     MulticalMain.intr_dist :=
       Multical.DistList
         [Multical.PyList [half; quarter; Float.zero; Float.zero; Float.zero]];
     MulticalMain.intr_image_size := [100; 100]%Z |}.

Definition reference_pose : Multical.pose :=
  {| Multical.pose_R := Multical.identity3; Multical.pose_T := Multical.zero3 |}.

Definition calibration_poses : list (string * Multical.pose) :=
  [("Cam_B_to_Cam_A"%string, relative_pose); ("Cam_A"%string, reference_pose)].

Definition calibration : MulticalMain.json_data :=
  {| MulticalMain.cameras :=
       Some {[ "Cam_A"%string := intrinsics_standard;
               "Cam_B"%string := intrinsics_standard ]};
     MulticalMain.camera_poses := Some calibration_poses |}.

(** A stand-in for the two comparisons: a 3x3 rotation is taken for the
    identity when it is the identity, a translation of three numbers for
    zero when it is zero, and arrays of another shape are refused. *)
Definition exactly_identity (R : list (list float)) : result bool :=
  if bool_decide (length R = 3%nat /\ Forall (fun row => length row = 3%nat) R)
  then Ok (bool_decide (Forall2 (Forall2 (fun a b => SFeqb a b = true)) R Multical.identity3))
  else Raise ValueError.
Definition exactly_zero (T : list float) : result bool :=
  if bool_decide (length T = 3%nat)
  then Ok (bool_decide (Forall2 (fun a b => SFeqb a b = true) T Multical.zero3))
  else Raise ValueError.

End Sample.

(* ===================================================================== *)
(** * Properties of multical2label3d.py                                    *)
(* ===================================================================== *)

Section ExtrinsicsProps.

Variable allclose_identity : list (list float) -> result bool.
Variable allclose_zero : list float -> result bool.

Local Abbreviation get_extrinsics :=
  (Multical.get_extrinsics allclose_identity allclose_zero).
Local Abbreviation get_extrinsics_json :=
  (Multical.get_extrinsics_json allclose_identity allclose_zero).

Lemma get_extrinsics_no_direct pose_data cam_name ref_cam :
  cam_name <> ref_cam ->
  pose_data !! cam_name = None ->
  get_extrinsics pose_data cam_name ref_cam
  = match pose_data !! (cam_name +:+ "_to_" +:+ ref_cam) with
    | None => ([], Raise KeyError)
    | Some p => ([], Ok (Multical.pose_R p, Multical.pose_T p))
    end.
Proof.
  intros Hne Hnone. unfold Multical.get_extrinsics.
  destruct (decide (cam_name = ref_cam)) as [Heq|_]; [contradiction|].
  now rewrite Hnone.
Qed.

Lemma get_extrinsics_json_no_direct pose_data cam_name ref_cam :
  cam_name <> ref_cam ->
  pose_data !! cam_name = None ->
  get_extrinsics_json pose_data cam_name ref_cam
  = match pose_data !! (cam_name +:+ "_to_" +:+ ref_cam) with
    | None => ([], Raise KeyError)
    | Some p => ([], Ok (Multical.pose_R p, Multical.pose_T p))
    end.
Proof.
  intros Hne Hnone. unfold Multical.get_extrinsics_json.
  destruct (decide (cam_name = ref_cam)) as [Heq|_]; [contradiction|].
  now rewrite Hnone.
Qed.

(** C8. For a non-reference camera whose name is not a key of the pose
    table, both resolution functions raise [KeyError] when the relative key
    ["{cam}_to_{ref}"] is absent, and return exactly the (R, T) stored under
    it, with no warning, when it is present. *)
Theorem relative_key_lookup pose_data cam_name ref_cam :
  cam_name <> ref_cam ->
  pose_data !! cam_name = None ->
  (pose_data !! (cam_name +:+ "_to_" +:+ ref_cam) = None ->
     get_extrinsics pose_data cam_name ref_cam = ([], Raise KeyError) /\
     get_extrinsics_json pose_data cam_name ref_cam = ([], Raise KeyError)) /\
  (forall p, pose_data !! (cam_name +:+ "_to_" +:+ ref_cam) = Some p ->
     get_extrinsics pose_data cam_name ref_cam
       = ([], Ok (Multical.pose_R p, Multical.pose_T p)) /\
     get_extrinsics_json pose_data cam_name ref_cam
       = ([], Ok (Multical.pose_R p, Multical.pose_T p))).
Proof.
  intros Hne Hnone.
  rewrite (get_extrinsics_no_direct _ _ _ Hne Hnone).
  rewrite (get_extrinsics_json_no_direct _ _ _ Hne Hnone).
  split.
  - intros ->. split; reflexivity.
  - intros p ->. split; reflexivity.
Qed.

(** C2, as the code has it. For a non-reference camera with a direct entry
    under its own name, [get_extrinsics] returns that entry's (R, T) with
    the direct-pose warning, whatever the table holds under the relative
    key; [get_extrinsics_json] does the same when the name has no ["_to_"]
    in it, and otherwise goes to the relative key. *)
Theorem direct_entry_taken_first pose_data cam_name ref_cam p :
  cam_name <> ref_cam ->
  pose_data !! cam_name = Some p ->
  get_extrinsics pose_data cam_name ref_cam
    = ([Multical.WarnDirectPose cam_name], Ok (Multical.pose_R p, Multical.pose_T p)) /\
  (contains "_to_" cam_name = false ->
   get_extrinsics_json pose_data cam_name ref_cam
     = ([Multical.WarnDirectPoseJson cam_name], Ok (Multical.pose_R p, Multical.pose_T p))) /\
  (contains "_to_" cam_name = true ->
   get_extrinsics_json pose_data cam_name ref_cam
     = match pose_data !! (cam_name +:+ "_to_" +:+ ref_cam) with
       | None => ([], Raise KeyError)
       | Some q => ([], Ok (Multical.pose_R q, Multical.pose_T q))
       end).
Proof.
  intros Hne Hsome.
  unfold Multical.get_extrinsics, Multical.get_extrinsics_json.
  destruct (decide (cam_name = ref_cam)) as [Heq|_]; [contradiction|].
  rewrite Hsome. repeat split.
  - intros ->. reflexivity.
  - intros ->. reflexivity.
Qed.

End ExtrinsicsProps.

(** C8 at a table that holds the relative key of [Cam_B] only. *)
Lemma relative_key_lookup_witness :
  "Cam_B"%string <> "Cam_A"%string /\
  Sample.relative_only !! "Cam_B"%string = None /\
  Multical.get_extrinsics (Sample.always true) (Sample.always true)
    Sample.relative_only "Cam_B" "Cam_A"
  = ([], Ok (Multical.identity3, Sample.T_relative)).
Proof.
  split; [discriminate|]. split; [reflexivity|].
  refine (proj1 (proj2 (relative_key_lookup (Sample.always true) (Sample.always true)
                          Sample.relative_only "Cam_B" "Cam_A" _ _)
                   Sample.relative_pose _));
    [discriminate | reflexivity | reflexivity].
Defined.

(** C2 as stated fails: with both a direct entry and the relative key in
    the table, neither function returns the pose stored under the relative
    key; both return the direct entry. *)
Lemma direct_entry_preferred_over_relative_key :
  "Cam_B"%string <> "Cam_A"%string /\
  Sample.direct_and_relative !! "Cam_B"%string = Some Sample.direct_pose /\
  Sample.direct_and_relative !! "Cam_B_to_Cam_A"%string = Some Sample.relative_pose /\
  snd (Multical.get_extrinsics (Sample.always true) (Sample.always true)
         Sample.direct_and_relative "Cam_B" "Cam_A")
    <> Ok (Multical.pose_R Sample.relative_pose, Multical.pose_T Sample.relative_pose) /\
  snd (Multical.get_extrinsics_json (Sample.always true) (Sample.always true)
         Sample.direct_and_relative "Cam_B" "Cam_A")
    <> Ok (Multical.pose_R Sample.relative_pose, Multical.pose_T Sample.relative_pose).
Proof.
  split; [discriminate|]. split; [reflexivity|]. split; [reflexivity|].
  split; vm_compute; discriminate.
Qed.

(** C2 as the code has it, at the same table. *)
Lemma direct_entry_taken_first_witness :
  "Cam_B"%string <> "Cam_A"%string /\
  Sample.direct_and_relative !! "Cam_B"%string = Some Sample.direct_pose /\
  Multical.get_extrinsics (Sample.always true) (Sample.always true)
    Sample.direct_and_relative "Cam_B" "Cam_A"
  = ([Multical.WarnDirectPose "Cam_B"], Ok (Sample.R_direct, Sample.T_direct)).
Proof.
  split; [discriminate|]. split; [reflexivity|].
  refine (proj1 (direct_entry_taken_first (Sample.always true) (Sample.always true)
                   Sample.direct_and_relative "Cam_B" "Cam_A" Sample.direct_pose _ _));
    [discriminate | reflexivity].
Defined.

(* --------------------------------------------------------------------- *)
(** ** Distortion coefficients                                             *)
(* --------------------------------------------------------------------- *)

Lemma pad_present_k coeffs :
  Multical.pad_zeros Multical.k_indices (Multical.coeffs_present coeffs Multical.k_indices)
  = Spec.coeff_or_zero coeffs <$> [0; 1; 4]%nat.
Proof.
  destruct coeffs as [|c0 [|c1 [|c2 [|c3 [|c4 rest]]]]]; reflexivity.
Qed.

Lemma pad_present_p coeffs :
  Multical.pad_zeros Multical.p_indices (Multical.coeffs_present coeffs Multical.p_indices)
  = Spec.coeff_or_zero coeffs <$> [2; 3]%nat.
Proof.
  destruct coeffs as [|c0 [|c1 [|c2 [|c3 rest]]]]; reflexivity.
Qed.

Lemma extract_distortion_of_coeffs dist_coeffs coeffs :
  Multical.coeffs_of dist_coeffs = Ok coeffs ->
  Multical.extract_distortion dist_coeffs
  = (Spec.split_warnings coeffs, Ok (Spec.split_distortion coeffs)).
Proof.
  intros H. unfold Multical.extract_distortion. rewrite H.
  rewrite pad_present_k, pad_present_p. reflexivity.
Qed.

(** C6, as the code has it. An array input is flattened and a list input
    whose first item is a list is read as that first row; on the resulting
    flat sequence the radial group is the values at 0, 1, 4 and the
    tangential group the values at 2, 3, with 0.0 for a missing index and
    the warnings of the specification. Any other input, a flat Python list
    of numbers and the empty list among them, raises [ValueError]. *)
Theorem extract_distortion_spec :
  (forall a,
     Multical.extract_distortion (Multical.DistArray a)
     = (Spec.split_warnings (flatten a), Ok (Spec.split_distortion (flatten a)))) /\
  (forall row rest,
     Multical.extract_distortion (Multical.DistList (Multical.PyList row :: rest))
     = (Spec.split_warnings row, Ok (Spec.split_distortion row))) /\
  (forall x rest,
     Multical.extract_distortion (Multical.DistList (Multical.PyNum x :: rest))
     = ([], Raise ValueError)) /\
  Multical.extract_distortion (Multical.DistList []) = ([], Raise ValueError) /\
  Multical.extract_distortion Multical.DistOther = ([], Raise ValueError) /\
  (forall k1 k2,
     Multical.extract_distortion (Multical.DistArray (Arr1 [k1; k2]))
     = ([Multical.WarnTangentialInaccurate],
        Ok ([k1; k2; Float.zero], [Float.zero; Float.zero])) /\
     Multical.extract_distortion (Multical.DistList [Multical.PyList [k1; k2]])
     = ([Multical.WarnTangentialInaccurate],
        Ok ([k1; k2; Float.zero], [Float.zero; Float.zero]))).
Proof.
  repeat split; intros; try reflexivity;
    apply extract_distortion_of_coeffs; reflexivity.
Qed.

(** C6 as stated fails: the flat list [[0.5, 0.25]] is a flat numeric
    sequence, and [extract_distortion] raises [ValueError] on it instead of
    returning radial [[0.5, 0.25, 0.0]] and tangential [[0.0, 0.0]]. *)
Lemma flat_list_rejected :
  Multical.extract_distortion
    (Multical.DistList [Multical.PyNum Sample.half; Multical.PyNum Sample.quarter])
  = ([], Raise ValueError) /\
  snd (Multical.extract_distortion
         (Multical.DistList [Multical.PyNum Sample.half; Multical.PyNum Sample.quarter]))
  <> Ok ([Sample.half; Sample.quarter; Float.zero], [Float.zero; Float.zero]).
Proof. split; [reflexivity | discriminate]. Qed.

(* --------------------------------------------------------------------- *)
(** ** The exported camera record                                          *)
(* --------------------------------------------------------------------- *)

Lemma column_lookup (rows : list (list float)) (n i j : nat) :
  Forall (fun row => length row = n) rows ->
  (j < n)%nat ->
  omap (fun row : list float => row !! j) rows !! i = rows !! i ≫= (.!! j).
Proof.
  intros Hrect Hj. revert i.
  induction Hrect as [|row l Hrow _ IH]; intros i; [reflexivity|].
  destruct (lookup_lt_is_Some_2 row j) as [x Hx]; [lia|].
  cbn [omap list_omap]. rewrite Hx.
  destruct i as [|i]; cbn; [now rewrite Hx | apply IH].
Qed.

(** [a.T] swaps the two indices of a rectangular array. *)
Lemma transpose_lookup (rows : list (list float)) (n i j : nat) :
  Forall (fun row => length row = n) rows ->
  (i < length rows)%nat -> (j < n)%nat ->
  transpose rows !! j ≫= (.!! i) = rows !! i ≫= (.!! j).
Proof.
  intros Hrect Hi Hj. unfold transpose.
  destruct rows as [|r0 rows']; [simpl in Hi; lia|].
  assert (Hn : length r0 = n) by (inversion Hrect; assumption).
  rewrite list_lookup_fmap, lookup_seq_lt by lia. cbn [fmap option_fmap option_map mbind option_bind].
  now apply column_lookup with (n := n).
Qed.

(** C7. The record exported for a camera with intrinsic matrix [K],
    world-to-camera rotation [R] (both 3x3) and a translation of three
    components in metres: the rotation is the transpose of [R]; the
    translation is one row of the three components, each the double product
    of the input component with the double 1000.0 and nothing more; the
    intrinsic matrix has fx, fy on the diagonal, cx, cy in the last row, and
    0, 0, 1 in the last column. *)
Theorem camera_record_layout
    (k00 k01 k02 k10 k11 k12 k20 k21 k22 : float)
    (r00 r01 r02 r10 r11 r12 r20 r21 r22 : float)
    (t0 t1 t2 : float) (T_w_cam : ndarray)
    (RDistort TDistort : list float) (img_size : list Z) :
  flatten T_w_cam = [t0; t1; t2] ->
  Multical.camera_mat_dict
    [[k00; k01; k02]; [k10; k11; k12]; [k20; k21; k22]]
    RDistort TDistort
    [[r00; r01; r02]; [r10; r11; r12]; [r20; r21; r22]]
    T_w_cam img_size
  = Ok {| Multical.mat_K := [[k00; Float.zero; Float.zero];
                             [Float.zero; k11; Float.zero];
                             [k02; k12; Float.one]];
          Multical.mat_r := [[r00; r10; r20]; [r01; r11; r21]; [r02; r12; r22]];
          Multical.mat_t := [[Float.mul t0 Float.thousand;
                              Float.mul t1 Float.thousand;
                              Float.mul t2 Float.thousand]];
          Multical.mat_RDistort := reshape_col RDistort;
          Multical.mat_TDistort := reshape_col TDistort;
          Multical.mat_image_size := img_size |}.
Proof.
  intros HT. unfold Multical.camera_mat_dict, reshape_3_1.
  rewrite HT. reflexivity.
Qed.

(** C7 at the standard-layout matrix [[500, 0, 10], [0, 500, 20], [0, 0, 1]],
    a quarter turn, and the column translation (0.5, 0, 0.25) metres:
    the row (500, 0, 250) millimetres. *)
Lemma camera_record_layout_witness :
  flatten (Arr2 [[Sample.half]; [Float.zero]; [Sample.quarter]])
    = [Sample.half; Float.zero; Sample.quarter] /\
  Multical.camera_mat_dict Sample.K_standard [] [] Sample.R_direct
    (Arr2 [[Sample.half]; [Float.zero]; [Sample.quarter]]) [640; 480]%Z
  = Ok {| Multical.mat_K := [[Sample.five_hundred; Float.zero; Float.zero];
                             [Float.zero; Sample.five_hundred; Float.zero];
                             [Sample.ten; Sample.twenty; Float.one]];
          Multical.mat_r := [[Float.zero; SFopp Float.one; Float.zero];
                             [Float.one; Float.zero; Float.zero];
                             [Float.zero; Float.zero; Float.one]];
          Multical.mat_t := [[Sample.five_hundred; Float.zero;
                              S754_finite false 8796093022208000 (-45)]];
          Multical.mat_RDistort := [];
          Multical.mat_TDistort := [];
          Multical.mat_image_size := [640; 480]%Z |}.
Proof.
  split; [reflexivity|].
  exact (camera_record_layout _ _ _ _ _ _ _ _ _ _ _ _ _ _ _ _ _ _ _ _ _
           (Arr2 [[Sample.half]; [Float.zero]; [Sample.quarter]]) [] [] [640; 480]%Z
           eq_refl).
Defined.

(* ===================================================================== *)
(** * Properties of l3d2coco.py                                            *)
(* ===================================================================== *)

Section Rounding.

Local Open Scope Z_scope.

(** The rounded value is a nearest integer: it is at most one half away
    from [n/d]. *)
Lemma round_half_even_nearest n d :
  0 < d -> Z.abs (2 * n - 2 * d * Float.round_half_even n d) <= d.
Proof.
  intros Hd. unfold Float.round_half_even.
  pose proof (Z.div_mod n d ltac:(lia)) as Hdm.
  pose proof (Z.mod_pos_bound n d Hd) as Hr.
  destruct (Z.compare_spec (2 * (n mod d)) d) as [He|Hl|Hg];
    [destruct (Z.even (n / d))|..]; nia.
Qed.

(** On a tie the even neighbour is taken. *)
Lemma round_half_even_tie n d :
  0 < d -> 2 * (n mod d) = d -> Z.even (Float.round_half_even n d) = true.
Proof.
  intros Hd He. unfold Float.round_half_even.
  rewrite He, Z.compare_refl.
  destruct (Z.even (n / d)) eqn:E; [assumption|].
  rewrite Z.even_add, E. reflexivity.
Qed.

Lemma round_half_even_integer n : Float.round_half_even n 1 = n.
Proof.
  unfold Float.round_half_even. rewrite Z.mod_1_r, Z.div_1_r. reflexivity.
Qed.

(** Rounding raises on the infinities and on NaN only. *)
Lemma py_round_finite x :
  Float.is_finite x = true -> exists z, Float.py_round x = Ok z.
Proof. destruct x; simpl; intros H; try discriminate; eauto. Qed.

Lemma py_round_not_nan_not_inf x :
  Float.isnan x = false -> Float.isinf x = false -> exists z, Float.py_round x = Ok z.
Proof. destruct x; simpl; intros H1 H2; try discriminate; eauto. Qed.

Lemma py_round_infinity s : Float.py_round (S754_infinity s) = Raise OverflowError.
Proof. reflexivity. Qed.

(** [int(round(...))] of a double holding an integer is that integer. *)
Lemma py_round_Q_inject_Z z : Float.py_round_Q (inject_Z z) = z.
Proof. apply round_half_even_integer. Qed.

(** [int(round(x))] is a nearest integer to the value [m * 2^e] of a
    finite double: exact when the double is an integer, and at most one
    half away otherwise. *)
Lemma py_round_nearest s m e z :
  Float.py_round (S754_finite s m e) = Ok z ->
  (0 <= e -> Z.abs z = Zpos m * 2 ^ e) /\
  (e < 0 -> Z.abs (2 * Zpos m - 2 * 2 ^ (- e) * Z.abs z) <= 2 ^ (- e)).
Proof.
  cbn [Float.py_round]. intros [= <-]. split; intros He.
  - destruct (Z.leb_spec 0 e) as [_|]; [|lia].
    assert (0 < 2 ^ e) by (apply Z.pow_pos_nonneg; lia).
    destruct s; nia.
  - destruct (Z.leb_spec 0 e) as [|_]; [lia|].
    assert (Hd : 0 < 2 ^ (- e)) by (apply Z.pow_pos_nonneg; lia).
    pose proof (round_half_even_nearest (Zpos m) (2 ^ (- e)) Hd) as Hn.
    assert (Hnn : 0 <= Float.round_half_even (Zpos m) (2 ^ (- e))).
    { unfold Float.round_half_even.
      pose proof (Z.div_pos (Zpos m) (2 ^ (- e)) ltac:(lia) Hd).
      destruct (_ ?= _); [destruct (Z.even _)|..]; lia. }
    destruct s; [rewrite Z.abs_opp|];
      rewrite (Z.abs_eq (Float.round_half_even _ _)) by exact Hnn; exact Hn.
Qed.

End Rounding.

(* --------------------------------------------------------------------- *)
(** ** Doubles that hold integers                                          *)
(* --------------------------------------------------------------------- *)

Section Doubles.

Local Open Scope Z_scope.

Lemma digits2_pos_log2 p : Zpos (digits2_pos p) = Z.log2 (Zpos p) + 1.
Proof.
  assert (Hsize : digits2_pos p = Pos.size p).
  { induction p as [p IH|p IH|]; cbn; [rewrite IH..|]; reflexivity. }
  rewrite Hsize. destruct p as [p|p|]; cbn [Z.log2 Pos.size]; lia.
Qed.

Lemma iter_xO_pow m d : Zpos (Pos.iter xO m d) = Zpos m * 2 ^ Zpos d.
Proof.
  induction d as [|d IH] using Pos.peano_ind.
  - cbn. lia.
  - rewrite Pos.iter_succ, Pos2Z.inj_xO, IH, Pos2Z.inj_succ, Z.pow_succ_r by lia. lia.
Qed.

Lemma iter_shr_1_exact p K :
  0 < K ->
  SpecFloat.iter_pos shr_1 p {| shr_m := K * 2 ^ Zpos p; shr_r := false; shr_s := false |}
  = {| shr_m := K; shr_r := false; shr_s := false |}.
Proof.
  revert K. induction p as [p IH|p IH|]; intros K HK.
  - cbn [SpecFloat.iter_pos].
    assert (Hp : 0 < 2 ^ Zpos p) by (apply Z.pow_pos_nonneg; lia).
    replace (K * 2 ^ Zpos p~1) with ((K * 2 ^ Zpos p * 2 ^ Zpos p) * 2).
    2:{ replace (Zpos p~1) with (Zpos p + Zpos p + 1) by lia.
        rewrite !Z.pow_add_r by lia. change (2 ^ 1) with 2. lia. }
    destruct (K * 2 ^ Zpos p * 2 ^ Zpos p) as [|q|q] eqn:E; [nia| |nia].
    replace (Zpos q * 2) with (Zpos q~0) by lia. cbn [shr_1 orb].
    rewrite <- E, IH by nia. apply IH. exact HK.
  - cbn [SpecFloat.iter_pos].
    assert (Hp : 0 < 2 ^ Zpos p) by (apply Z.pow_pos_nonneg; lia).
    replace (K * 2 ^ Zpos p~0) with ((K * 2 ^ Zpos p) * 2 ^ Zpos p).
    2:{ replace (Zpos p~0) with (Zpos p + Zpos p) by lia.
        rewrite Z.pow_add_r by lia. lia. }
    rewrite IH by nia. apply IH. exact HK.
  - cbn [SpecFloat.iter_pos]. change (2 ^ 1) with 2.
    destruct K as [|q|q]; [lia| |lia].
    replace (Zpos q * 2) with (Zpos q~0) by lia. reflexivity.
Qed.


Lemma fexp_small e : -1021 <= e -> fexp Float.prec Float.emax e = e - 53.
Proof. intros He. unfold fexp, emin, Float.prec, Float.emax. lia. Qed.

Lemma Zdigits2_log2 m : 0 < m -> Zdigits2 m = Z.log2 m + 1.
Proof. destruct m as [|p|p]; [lia| |lia]. intros _. apply digits2_pos_log2. Qed.

(** A mantissa of 53 bits at an exponent in range is kept as it is. *)
Lemma shr_fexp_canonical K E :
  0 < K -> Z.log2 K = 52 -> -1074 <= E ->
  shr_fexp Float.prec Float.emax K E loc_Exact
  = ({| shr_m := K; shr_r := false; shr_s := false |}, E).
Proof.
  intros HK Hlog HE. unfold shr_fexp.
  rewrite (Zdigits2_log2 K HK), Hlog, fexp_small by lia.
  replace (52 + 1 + E - 53 - E) with 0 by lia. reflexivity.
Qed.

Lemma round_aux_exact s m e K E :
  0 < K -> Z.log2 K = 52 -> -1074 <= E <= 971 ->
  shr_fexp Float.prec Float.emax m e loc_Exact
  = ({| shr_m := K; shr_r := false; shr_s := false |}, E) ->
  binary_round_aux Float.prec Float.emax s m e loc_Exact
  = S754_finite s (Z.to_pos K) E.
Proof.
  intros HK Hlog HE Hshr. unfold binary_round_aux. rewrite Hshr.
  cbn [shr_m loc_of_shr_record round_nearest_even].
  rewrite (shr_fexp_canonical K E HK Hlog) by lia. cbn [shr_m].
  destruct K as [|q|q]; [lia| |lia]. cbn [Z.to_pos].
  replace (E <=? Float.emax - Float.prec) with true; [reflexivity|].
  symmetry. apply Z.leb_le. unfold Float.emax, Float.prec. lia.
Qed.

(** The double of an integer [N] below 2^53, however the integer is
    presented to the normalisation. *)
Lemma normalize_shifted N j :
  0 < N < 2 ^ 53 -> 0 <= j ->
  binary_normalize Float.prec Float.emax (N * 2 ^ j) (- j) false
  = S754_finite false (Z.to_pos (N * 2 ^ (52 - Z.log2 N))) (Z.log2 N - 52).
Proof.
  intros [HN Hlt] Hj.
  assert (Hlog : 0 <= Z.log2 N < 53).
  { split; [apply Z.log2_nonneg|]. apply Z.log2_lt_pow2; lia. }
  assert (Hpj : 0 < 2 ^ j) by (apply Z.pow_pos_nonneg; lia).
  set (E := Z.log2 N - 52).
  set (K := N * 2 ^ (52 - Z.log2 N)).
  assert (HK : 0 < K).
  { unfold K. apply Z.mul_pos_pos; [lia|]. apply Z.pow_pos_nonneg; lia. }
  assert (HlogK : Z.log2 K = 52).
  { unfold K. rewrite Z.log2_mul_pow2 by lia. lia. }
  destruct (N * 2 ^ j) as [|p|p] eqn:Ep; [nia| |nia].
  cbn [binary_normalize]. unfold binary_round.
  rewrite digits2_pos_log2, <- Ep, Z.log2_mul_pow2, fexp_small by lia.
  replace (j + Z.log2 N + 1 + - j - 53) with E by (unfold E; lia).
  unfold shl_align.
  destruct (E - - j) as [|n|d] eqn:En.
  - (* no shift at all *)
    apply round_aux_exact; [exact HK | exact HlogK | unfold E; lia|].
    assert (Zpos p = K).
    { rewrite <- Ep. unfold K. f_equal. f_equal. unfold E in En. lia. }
    rewrite H. replace (- j) with E by lia.
    apply shr_fexp_canonical; [exact HK | exact HlogK | unfold E; lia].
  - (* shift right, exactly *)
    apply round_aux_exact; [exact HK | exact HlogK | unfold E; lia|].
    unfold shr_fexp.
    rewrite (Zdigits2_log2 (Zpos p)) by lia.
    rewrite <- Ep, Z.log2_mul_pow2, fexp_small by lia.
    replace (j + Z.log2 N + 1 + - j - 53 - - j) with (Zpos n) by (unfold E in En; lia).
    cbn [shr_record_of_loc shr].
    replace (N * 2 ^ j) with (K * 2 ^ Zpos n).
    2:{ unfold K. rewrite <- Z.mul_assoc, <- Z.pow_add_r by lia.
        f_equal. f_equal. unfold E in En. lia. }
    rewrite iter_shr_1_exact by exact HK. f_equal. unfold E in *. lia.
  - (* shift left *)
    apply round_aux_exact; [exact HK | exact HlogK | unfold E; lia|].
    assert (Zpos (Pos.iter xO p d) = K).
    { rewrite iter_xO_pow, <- Ep. unfold K.
      rewrite <- Z.mul_assoc, <- Z.pow_add_r by lia.
      f_equal. f_equal. unfold E in En. lia. }
    rewrite H. apply shr_fexp_canonical; [exact HK | exact HlogK | unfold E; lia].
Qed.


(** The double of an integer from 1 to 2^53 - 1: 53 bits of mantissa, the
    integer shifted to the left. *)
Lemma of_Z_positive n :
  0 < n < 2 ^ 53 ->
  Float.of_Z n = S754_finite false (Z.to_pos (n * 2 ^ (52 - Z.log2 n))) (Z.log2 n - 52).
Proof.
  intros Hn. unfold Float.of_Z.
  rewrite <- (normalize_shifted n 0 Hn) by lia.
  rewrite Z.pow_0_r, Z.mul_1_r. reflexivity.
Qed.

Lemma of_Z_zero : Float.of_Z 0 = Float.zero.
Proof. reflexivity. Qed.

Lemma log2_below n : 0 < n < 2 ^ 53 -> 0 <= Z.log2 n <= 52.
Proof.
  intros [H0 H1]. split; [apply Z.log2_nonneg|].
  assert (Z.log2 n < 53) by (apply Z.log2_lt_pow2; lia). lia.
Qed.

Lemma of_int_exact n : 0 <= n < 2 ^ 53 -> Float.of_int n = Ok (Float.of_Z n).
Proof.
  intros Hn. unfold Float.of_int.
  destruct (Z.eq_dec n 0) as [->|Hnz]; [reflexivity|].
  rewrite of_Z_positive by lia. reflexivity.
Qed.

Lemma py_round_of_Z n : 0 <= n < 2 ^ 53 -> Float.py_round (Float.of_Z n) = Ok n.
Proof.
  intros Hn. destruct (Z.eq_dec n 0) as [->|Hnz]; [reflexivity|].
  rewrite of_Z_positive by lia. pose proof (log2_below n ltac:(lia)) as Hlog.
  cbn [Float.py_round]. f_equal.
  assert (Hp : 0 < 2 ^ (52 - Z.log2 n)) by (apply Z.pow_pos_nonneg; lia).
  rewrite Z2Pos.id by nia.
  destruct (Z.leb_spec 0 (Z.log2 n - 52)) as [He|He].
  - replace (Z.log2 n - 52) with 0 by lia. replace (52 - Z.log2 n) with 0 by lia.
    rewrite !Z.pow_0_r. lia.
  - replace (- (Z.log2 n - 52)) with (52 - Z.log2 n) by lia.
    unfold Float.round_half_even.
    rewrite Z.mod_mul, Z.div_mul by lia. cbv zeta.
    destruct (Z.compare_spec (2 * 0) (2 ^ (52 - Z.log2 n))); [lia | reflexivity | lia].
Qed.

Lemma to_Q_of_Z n : 0 <= n < 2 ^ 53 -> (Float.to_Q (Float.of_Z n) == inject_Z n)%Q.
Proof.
  intros Hn. destruct (Z.eq_dec n 0) as [->|Hnz]; [reflexivity|].
  rewrite of_Z_positive by lia. pose proof (log2_below n ltac:(lia)) as Hlog.
  cbn [Float.to_Q].
  assert (Hp : 0 < 2 ^ (52 - Z.log2 n)) by (apply Z.pow_pos_nonneg; lia).
  rewrite Z2Pos.id by nia.
  destruct (Z.leb_spec 0 (Z.log2 n - 52)) as [He|He].
  - replace (Z.log2 n - 52) with 0 by lia. replace (52 - Z.log2 n) with 0 by lia.
    rewrite !Z.pow_0_r, !Z.mul_1_r. reflexivity.
  - replace (- (Z.log2 n - 52)) with (52 - Z.log2 n) by lia.
    unfold Qeq. cbn [Qnum Qden inject_Z]. rewrite Z2Pos.id by lia. lia.
Qed.

(** Doubles of integers compare as the integers do. *)
Lemma ltb_of_Z a b :
  0 <= a < 2 ^ 53 -> 0 <= b < 2 ^ 53 ->
  SFltb (Float.of_Z a) (Float.of_Z b) = (a <? b).
Proof.
  intros Ha Hb.
  destruct (Z.eq_dec a 0) as [->|Haz]; destruct (Z.eq_dec b 0) as [->|Hbz].
  - reflexivity.
  - rewrite (of_Z_positive b) by lia. cbn. symmetry. apply Z.ltb_lt. lia.
  - rewrite (of_Z_positive a) by lia. cbn. symmetry. apply Z.ltb_ge. lia.
  - rewrite !of_Z_positive by lia.
    pose proof (log2_below a ltac:(lia)) as Hla.
    pose proof (log2_below b ltac:(lia)) as Hlb.
    pose proof (Z.log2_spec a ltac:(lia)) as Hsa.
    pose proof (Z.log2_spec b ltac:(lia)) as Hsb.
    unfold SFltb, SFcompare.
    destruct (Z.compare_spec (Z.log2 a - 52) (Z.log2 b - 52)) as [He|He|He].
    + assert (Hl : Z.log2 a = Z.log2 b) by lia. rewrite Hl.
      assert (Hp : 0 < 2 ^ (52 - Z.log2 b)) by (apply Z.pow_pos_nonneg; lia).
      change (Pos.compare_cont Eq ?x ?y) with (Pos.compare x y).
      rewrite <- Z2Pos.inj_compare by nia.
      destruct (Z.compare_spec (a * 2 ^ (52 - Z.log2 b)) (b * 2 ^ (52 - Z.log2 b)))
        as [Hc|Hc|Hc]; symmetry; [apply Z.ltb_ge | apply Z.ltb_lt | apply Z.ltb_ge]; nia.
    + symmetry. apply Z.ltb_lt.
      assert (2 ^ Z.succ (Z.log2 a) <= 2 ^ Z.log2 b) by (apply Z.pow_le_mono_r; lia).
      lia.
    + symmetry. apply Z.ltb_ge.
      assert (2 ^ Z.succ (Z.log2 b) <= 2 ^ Z.log2 a) by (apply Z.pow_le_mono_r; lia).
      lia.
Qed.

Lemma fmax_of_Z a b :
  0 <= a < 2 ^ 53 -> 0 <= b < 2 ^ 53 ->
  Float.fmax (Float.of_Z a) (Float.of_Z b) = Float.of_Z (Z.max a b).
Proof.
  intros Ha Hb. unfold Float.fmax. rewrite ltb_of_Z by assumption.
  destruct (Z.ltb_spec a b); f_equal; lia.
Qed.

Lemma fmin_of_Z a b :
  0 <= a < 2 ^ 53 -> 0 <= b < 2 ^ 53 ->
  Float.fmin (Float.of_Z a) (Float.of_Z b) = Float.of_Z (Z.min a b).
Proof.
  intros Ha Hb. unfold Float.fmin. rewrite ltb_of_Z by assumption.
  destruct (Z.ltb_spec b a); f_equal; lia.
Qed.

(** The difference of the doubles of two integers is the double of their
    difference: nothing is rounded. *)
Lemma sub_of_Z a b :
  0 <= b <= a -> a < 2 ^ 53 ->
  Float.sub (Float.of_Z a) (Float.of_Z b) = Float.of_Z (a - b).
Proof.
  intros Hab Ha. unfold Float.sub.
  destruct (Z.eq_dec b 0) as [->|Hbz].
  - rewrite Z.sub_0_r. destruct (Z.eq_dec a 0) as [->|Haz]; [reflexivity|].
    rewrite of_Z_positive by lia. reflexivity.
  - rewrite (of_Z_positive a), (of_Z_positive b) by lia.
    pose proof (log2_below a ltac:(lia)) as Hla.
    pose proof (log2_below b ltac:(lia)) as Hlb.
    assert (Hlab : Z.log2 b <= Z.log2 a) by (apply Z.log2_le_mono; lia).
    assert (Hpa : 0 < 2 ^ (52 - Z.log2 a)) by (apply Z.pow_pos_nonneg; lia).
    assert (Hpb : 0 < 2 ^ (52 - Z.log2 b)) by (apply Z.pow_pos_nonneg; lia).
    cbn [SFsub]. rewrite Z.min_r by lia. cbn [cond_Zopp].
    assert (Hb' : Zpos (fst (shl_align (Z.to_pos (b * 2 ^ (52 - Z.log2 b)))
                               (Z.log2 b - 52) (Z.log2 b - 52)))
                  = b * 2 ^ (52 - Z.log2 b)).
    { unfold shl_align. rewrite Z.sub_diag. cbn [fst]. apply Z2Pos.id. nia. }
    assert (Ha' : Zpos (fst (shl_align (Z.to_pos (a * 2 ^ (52 - Z.log2 a)))
                               (Z.log2 a - 52) (Z.log2 b - 52)))
                  = a * 2 ^ (52 - Z.log2 b)).
    { unfold shl_align.
      destruct (Z.log2 b - 52 - (Z.log2 a - 52)) as [|n|d] eqn:E; cbn [fst].
      - rewrite Z2Pos.id by nia. f_equal. f_equal. lia.
      - lia.
      - rewrite iter_xO_pow, Z2Pos.id by nia.
        rewrite <- Z.mul_assoc, <- Z.pow_add_r by lia. f_equal. f_equal. lia. }
    rewrite Ha', Hb', <- Z.mul_sub_distr_r.
    destruct (Z.eq_dec a b) as [->|Hne].
    + rewrite Z.sub_diag. reflexivity.
    + replace (Z.log2 b - 52) with (- (52 - Z.log2 b)) by lia.
      rewrite normalize_shifted by lia.
      rewrite of_Z_positive by lia. reflexivity.
Qed.

End Doubles.

(** Python's [round]: 2.5 gives 2, 3.5 gives 4, -1.5 gives -2. *)
Example py_round_ties :
  Float.py_round (S754_finite false 5 (-1)) = Ok 2%Z /\
  Float.py_round (S754_finite false 7 (-1)) = Ok 4%Z /\
  Float.py_round (S754_finite true 3 (-1)) = Ok (-2)%Z /\
  Float.py_round Sample.minus_five = Ok (-5)%Z.
Proof. repeat split. Qed.

(** The double product: 0.5 * 1000.0 is 500.0, and 0.1 * 1000.0 is 100.0,
    the double nearest to the product of the two doubles. *)
Example mul_thousand :
  Float.mul Sample.half Float.thousand = Sample.five_hundred /\
  Float.mul (S754_finite false 7205759403792794 (-56)) Float.thousand
  = S754_finite false 7036874417766400 (-46).
Proof. split; vm_compute; reflexivity. Qed.

Section MarkerConfiguration.

Local Open Scope Z_scope.

(** Whenever the case analysis accepts a configuration that has markers,
    or whose animal count is not positive, the keypoints per animal times
    the animal count looped over is the number of markers. *)
Lemma keypoints_config_product m n nbk n' kpa :
  0 <= m ->
  L3d.keypoints_config m n nbk = Ok (n', kpa) ->
  m > 0 \/ n <= 0 ->
  kpa * n' = m.
Proof.
  unfold L3d.keypoints_config. intros Hm0 H Hvalid.
  repeat case_decide; inversion H; subst; try lia.
  assert (n' <> 0) by lia.
  pose proof (Z.div_mod m n' ltac:(assumption)). nia.
Qed.

(** With no markers and a positive animal count the keypoints per animal
    are taken from the base skeleton instead. *)
Lemma keypoints_config_no_markers n nbk :
  n > 0 -> L3d.keypoints_config 0 n nbk = Ok (n, nbk).
Proof.
  intros Hn. unfold L3d.keypoints_config.
  case_decide; [reflexivity | lia].
Qed.

(** C5. With markers and animals both positive and the marker count not a
    multiple of the animal count, the conversion raises [ValueError] with
    no image and no annotation built, and writes no file; a configuration
    accepted with markers present has
    [keypoints_per_animal * animal_count = total_markers]. *)
Theorem marker_count_divisibility :
  (forall d sk n,
     L3d.read_n_animals d = Ok n ->
     Z.of_nat (L3d.cp_markers (L3d.camPoints d)) > 0 ->
     n > 0 ->
     Z.of_nat (L3d.cp_markers (L3d.camPoints d)) mod n <> 0 ->
     L3d.l3d_to_coco d sk = (L3d.nothing_built, Raise ValueError) /\
     L3d.images (L3d.coco (fst (L3d.l3d_to_coco d sk))) = [] /\
     L3d.annotations (L3d.coco (fst (L3d.l3d_to_coco d sk))) = [] /\
     forall output_dir file_system_accepts,
       L3d.written_file d sk output_dir file_system_accepts = None) /\
  (forall num_total_markers n_animals_in_session num_base_keypoints animal_count
          keypoints_per_animal,
     num_total_markers > 0 ->
     L3d.keypoints_config num_total_markers n_animals_in_session num_base_keypoints
       = Ok (animal_count, keypoints_per_animal) ->
     keypoints_per_animal * animal_count = num_total_markers) /\
  (forall num_total_markers n_animals_in_session num_base_keypoints,
     num_total_markers > 0 ->
     n_animals_in_session > 0 ->
     num_total_markers mod n_animals_in_session = 0 ->
     L3d.keypoints_config num_total_markers n_animals_in_session num_base_keypoints
       = Ok (n_animals_in_session, num_total_markers / n_animals_in_session)).
Proof.
  split; [|split].
  - intros d sk n Hread Hm Hn Hmod.
    assert (Hrun : L3d.l3d_to_coco d sk = (L3d.nothing_built, Raise ValueError)).
    { unfold L3d.l3d_to_coco. rewrite Hread. cbn [rbind].
      unfold L3d.keypoints_config. repeat case_decide; try lia; reflexivity. }
    unfold L3d.written_file. rewrite Hrun. repeat split; reflexivity.
  - intros m n nbk n' kpa Hm H.
    apply (keypoints_config_product m n nbk n' kpa); [lia | assumption | lia].
  - intros m n nbk Hm Hn Hmod. unfold L3d.keypoints_config.
    repeat case_decide; try lia; reflexivity.
Qed.

End MarkerConfiguration.

(** C5 at three markers said to belong to two animals. *)
Lemma marker_count_divisibility_witness :
  L3d.l3d_to_coco Sample.scenario_two_animals Sample.skeleton3
    = (L3d.nothing_built, Raise ValueError) /\
  L3d.written_file Sample.scenario_two_animals Sample.skeleton3 "out" true = None /\
  (3 * 1 = 3)%Z.
Proof.
  destruct marker_count_divisibility as (Hfatal & Hproduct & _).
  destruct (Hfatal Sample.scenario_two_animals Sample.skeleton3 2%Z)
    as (Hrun & _ & _ & Hfile);
    [reflexivity | reflexivity | reflexivity | discriminate |].
  split; [exact Hrun|]. split; [apply Hfile|].
  apply (Hproduct 3%Z 1%Z 3%Z 1%Z 3%Z); reflexivity.
Defined.

Section KeypointDecoding.

Local Open Scope Z_scope.

(** A joint beyond the labelled ones, or with a NaN coordinate, decodes to
    (0, 0, 0). *)
Lemma decode_kpt_default inst kpa w h i :
  i >= kpa \/ Float.isnan (fst (L3d.kps inst i)) = true
           \/ Float.isnan (snd (L3d.kps inst i)) = true ->
  L3d.decode_kpt inst kpa w h i = Ok (0, 0, 0).
Proof.
  intros H. unfold L3d.decode_kpt.
  destruct (decide (i < kpa)) as [Hi|_]; [|reflexivity].
  destruct (decide (i < L3d.kps_len inst /\ i < L3d.status_len inst)) as [_|_];
    [|reflexivity].
  destruct H as [H|[H|H]];
    [lia | rewrite H; reflexivity
     | rewrite H; destruct (Float.isnan (fst (L3d.kps inst i))); reflexivity].
Qed.

(** An infinite coordinate stops the conversion: rounding it raises. *)
Lemma decode_kpt_infinite_x inst kpa w h i s :
  i < kpa -> i < L3d.kps_len inst -> i < L3d.status_len inst ->
  fst (L3d.kps inst i) = S754_infinity s ->
  Float.isnan (snd (L3d.kps inst i)) = false ->
  L3d.decode_kpt inst kpa w h i = Raise OverflowError.
Proof.
  intros H1 H2 H3 Hx Hy. unfold L3d.decode_kpt.
  destruct (decide (i < kpa)) as [_|]; [|lia].
  destruct (decide (i < L3d.kps_len inst /\ i < L3d.status_len inst)) as [_|]; [|lia].
  rewrite Hx, Hy. reflexivity.
Qed.

(** C1. For joint [i] of an instance whose slices hold the labelled joints:
    beyond [keypoints_per_animal], or with a NaN coordinate, the triplet is
    (0, 0, 0); otherwise, for finite raw coordinates, it is (x, y, v) with
    x, y the rounded coordinates, v = 0 as soon as the point is outside the
    image whatever the status, and inside the image v = 1 for INVISIBLE,
    v = 2 for INITIALIZED or LABELED, v = 0 for UNLABELED. *)
Theorem decode_kpt_visibility inst keypoints_per_animal image_w image_h i :
  (i < keypoints_per_animal -> i < L3d.kps_len inst /\ i < L3d.status_len inst) ->
  (i >= keypoints_per_animal
   \/ Float.isnan (fst (L3d.kps inst i)) = true
   \/ Float.isnan (snd (L3d.kps inst i)) = true ->
   L3d.decode_kpt inst keypoints_per_animal image_w image_h i = Ok (0, 0, 0)) /\
  (i < keypoints_per_animal ->
   Float.is_finite (fst (L3d.kps inst i)) = true ->
   Float.is_finite (snd (L3d.kps inst i)) = true ->
   exists x y v,
     Float.py_round (fst (L3d.kps inst i)) = Ok x /\
     Float.py_round (snd (L3d.kps inst i)) = Ok y /\
     L3d.decode_kpt inst keypoints_per_animal image_w image_h i = Ok (x, y, v) /\
     (x < 0 \/ y < 0 \/ x >= image_w \/ y >= image_h -> v = 0) /\
     (~ (x < 0 \/ y < 0 \/ x >= image_w \/ y >= image_h) ->
      (L3d.status_vals inst i = L3d.L3D_STATUS_INVISIBLE -> v = 1) /\
      (L3d.status_vals inst i = L3d.L3D_STATUS_INITIALIZED
       \/ L3d.status_vals inst i = L3d.L3D_STATUS_LABELED -> v = 2) /\
      (L3d.status_vals inst i = L3d.L3D_STATUS_UNLABELED -> v = 0))).
Proof.
  intros Hshape. split; [apply decode_kpt_default|].
  intros Hi Hfx Hfy.
  destruct (py_round_finite _ Hfx) as [x Hx].
  destruct (py_round_finite _ Hfy) as [y Hy].
  destruct (Hshape Hi) as [Hk Hs].
  assert (Hnx : Float.isnan (fst (L3d.kps inst i)) = false)
    by (destruct (fst (L3d.kps inst i)); try discriminate; reflexivity).
  assert (Hny : Float.isnan (snd (L3d.kps inst i)) = false)
    by (destruct (snd (L3d.kps inst i)); try discriminate; reflexivity).
  unfold L3d.decode_kpt.
  destruct (decide (i < keypoints_per_animal)) as [_|]; [|lia].
  destruct (decide (i < L3d.kps_len inst /\ i < L3d.status_len inst)) as [_|]; [|lia].
  rewrite Hnx, Hny, Hx, Hy. cbn [negb andb rbind].
  eexists x, y, _. repeat split; try reflexivity.
  - intros Hout. destruct (decide _) as [_|Hn]; [reflexivity | contradiction].
  - intros Hst. destruct (decide _) as [|_]; [contradiction|].
    rewrite Hst. reflexivity.
  - intros Hst. destruct (decide _) as [|_]; [contradiction|].
    unfold L3d.L3D_STATUS_INITIALIZED, L3d.L3D_STATUS_LABELED, L3d.L3D_STATUS_INVISIBLE in *.
    repeat case_decide; try reflexivity; lia.
  - intros Hst. destruct (decide _) as [|_]; [contradiction|].
    rewrite Hst. reflexivity.
Qed.

End KeypointDecoding.

Section BoundingBox.

Local Open Scope Z_scope.

Lemma foldr_min_shift x a l : foldr Z.min (Z.min x a) l = Z.min a (foldr Z.min x l).
Proof. induction l as [|b l IH]; simpl; [lia | rewrite IH; lia]. Qed.

Lemma foldr_max_shift x a l : foldr Z.max (Z.max x a) l = Z.max a (foldr Z.max x l).
Proof. induction l as [|b l IH]; simpl; [lia | rewrite IH; lia]. Qed.

(** [min(l)] and [max(l)] as Python folds them are the least and the
    greatest element. *)
Lemma list_min_least x l : L3d.list_min (x :: l) = Ok (Spec.least x l).
Proof.
  unfold L3d.list_min, Spec.least. f_equal. revert x.
  induction l as [|a l IH]; intros x; simpl; [reflexivity|].
  rewrite IH. apply foldr_min_shift.
Qed.

Lemma list_max_greatest x l : L3d.list_max (x :: l) = Ok (Spec.greatest x l).
Proof.
  unfold L3d.list_max, Spec.greatest. f_equal. revert x.
  induction l as [|a l IH]; intros x; simpl; [reflexivity|].
  rewrite IH. apply foldr_max_shift.
Qed.

Lemma least_spec x l :
  In (Spec.least x l) (x :: l) /\ forall y, In y (x :: l) -> Spec.least x l <= y.
Proof.
  unfold Spec.least. induction l as [|a l [IHin IHle]]; simpl.
  - split; [auto | intros y [->|[]]; lia].
  - split.
    + destruct (Z.min_spec a (foldr Z.min x l)) as [[_ ->]|[_ ->]];
        [right; left; reflexivity|].
      destruct IHin as [H|H]; [left; exact H | right; right; exact H].
    + intros y [->|[->|H]].
      * specialize (IHle y (or_introl eq_refl)). lia.
      * lia.
      * specialize (IHle y (or_intror H)). lia.
Qed.

Lemma greatest_spec x l :
  In (Spec.greatest x l) (x :: l) /\ forall y, In y (x :: l) -> y <= Spec.greatest x l.
Proof.
  unfold Spec.greatest. induction l as [|a l [IHin IHle]]; simpl.
  - split; [auto | intros y [->|[]]; lia].
  - split.
    + destruct (Z.max_spec a (foldr Z.max x l)) as [[_ ->]|[_ ->]];
        [|right; left; reflexivity].
      destruct IHin as [H|H]; [left; exact H | right; right; exact H].
    + intros y [->|[->|H]].
      * specialize (IHle y (or_introl eq_refl)). lia.
      * lia.
      * specialize (IHle y (or_intror H)). lia.
Qed.

(** The box in integers: rounding changes nothing, every value is an
    integer already. *)
Lemma bbox_integer_form ts w h :
  Spec.bbox ts w h
  = match Spec.fully_visible ts with
    | [] => [0; 0; 0; 0]
    | p :: ps =>
        let min_x := Spec.least p.1.1 ((fun t : Z * Z * Z => t.1.1) <$> ps) in
        let max_x := Spec.greatest p.1.1 ((fun t : Z * Z * Z => t.1.1) <$> ps) in
        let min_y := Spec.least p.1.2 ((fun t : Z * Z * Z => t.1.2) <$> ps) in
        let max_y := Spec.greatest p.1.2 ((fun t : Z * Z * Z => t.1.2) <$> ps) in
        [Z.max 0 min_x; Z.max 0 min_y;
         Z.max 0 (Z.min (w - 1) max_x - Z.max 0 min_x);
         Z.max 0 (Z.min (h - 1) max_y - Z.max 0 min_y)]
    end.
Proof.
  assert (Hmax : forall a b, Qmax (inject_Z a) (inject_Z b) = inject_Z (Z.max a b)).
  { intros a b. unfold Qmax, GenericMinMax.gmax, Qcompare. cbn.
    rewrite !Z.mul_1_r. unfold Z.max.
    rewrite (Z.compare_antisym b a).
    destruct (b ?= a); reflexivity. }
  assert (Hmin : forall a b, Qmin (inject_Z a) (inject_Z b) = inject_Z (Z.min a b)).
  { intros a b. unfold Qmin, GenericMinMax.gmin, Qcompare. cbn.
    rewrite !Z.mul_1_r. unfold Z.min.
    destruct (a ?= b); reflexivity. }
  assert (Hsub : forall a b, (inject_Z a - inject_Z b)%Q = inject_Z (a - b)).
  { intros a b. unfold Qminus, Qplus, Qopp, inject_Z. cbn. f_equal. lia. }
  unfold Spec.bbox. destruct (Spec.fully_visible ts) as [|p ps]; [reflexivity|].
  cbv zeta. change 0%Q with (inject_Z 0).
  rewrite !Hmax, !Hmin, !Hsub, !Hmax. cbn [fmap list_fmap].
  rewrite !py_round_Q_inject_Z. reflexivity.
Qed.

Lemma least_greatest_bounds x l lo hi :
  Forall (fun y => lo <= y <= hi) (x :: l) ->
  lo <= Spec.least x l <= Spec.greatest x l /\ Spec.greatest x l <= hi /\
  Forall (fun y => Spec.least x l <= y <= Spec.greatest x l) (x :: l).
Proof.
  intros Hall. destruct (least_spec x l) as [Hin Hle].
  destruct (greatest_spec x l) as [Hin' Hge].
  rewrite Forall_forall in Hall.
  pose proof (Hall _ (proj2 (list_elem_of_In _ _) Hin)) as H1.
  pose proof (Hall _ (proj2 (list_elem_of_In _ _) Hin')) as H2.
  pose proof (Hle _ Hin') as H3.
  split; [lia|]. split; [lia|].
  apply Forall_forall. intros y Hy. apply list_elem_of_In in Hy.
  specialize (Hle y Hy). specialize (Hge y Hy). lia.
Qed.

(** The integers of a box inside an image of at most 2^53 pixels. *)
Lemma bbox_entries ts w h :
  Forall (fun t : Z * Z * Z => 0 <= t.1.1 < w /\ 0 <= t.1.2 < h) (Spec.fully_visible ts) ->
  Spec.exact_sizes w h ->
  exists x y bw bh,
    Spec.bbox ts w h = [x; y; bw; bh] /\
    0 <= x < 2 ^ 53 /\ 0 <= y < 2 ^ 53 /\ 0 <= bw < 2 ^ 53 /\ 0 <= bh < 2 ^ 53 /\
    0 <= bw * bh < 2 ^ 53.
Proof.
  intros Hvis Hexact. unfold Spec.exact_sizes in Hexact.
  rewrite bbox_integer_form.
  destruct (Spec.fully_visible ts) as [|p ps].
  - exists 0, 0, 0, 0. split; [reflexivity|]. cbn. lia.
  - cbv zeta.
    set (xs := (fun t : Z * Z * Z => t.1.1) <$> ps).
    set (ys := (fun t : Z * Z * Z => t.1.2) <$> ps).
    destruct (least_greatest_bounds p.1.1 xs 0 (w - 1)) as (Hx1 & Hx2 & _).
    { change (p.1.1 :: xs) with ((fun t : Z * Z * Z => t.1.1) <$> (p :: ps)).
      rewrite Forall_fmap. eapply Forall_impl; [exact Hvis|].
      intros t Ht. cbn in Ht |- *. lia. }
    destruct (least_greatest_bounds p.1.2 ys 0 (h - 1)) as (Hy1 & Hy2 & _).
    { change (p.1.2 :: ys) with ((fun t : Z * Z * Z => t.1.2) <$> (p :: ps)).
      rewrite Forall_fmap. eapply Forall_impl; [exact Hvis|].
      intros t Ht. cbn in Ht |- *. lia. }
    eexists _, _, _, _. split; [reflexivity|].
    assert (Hw : w <= 2 ^ 53) by nia.
    assert (Hh : h <= 2 ^ 53) by nia.
    repeat split; try lia; nia.
Qed.

(** Within an image of at most 2^53 pixels the doubles of the box hold the
    integers of the specification's box: nothing is rounded and nothing
    raises. *)
Lemma bbox_float_spec ts w h :
  Forall (fun t : Z * Z * Z => 0 <= t.1.1 < w /\ 0 <= t.1.2 < h) (Spec.fully_visible ts) ->
  Spec.exact_sizes w h ->
  L3d.bbox_float ((fun t : Z * Z * Z => t.1.1) <$> Spec.fully_visible ts)
                 ((fun t : Z * Z * Z => t.1.2) <$> Spec.fully_visible ts) w h
  = Ok (Float.of_Z <$> Spec.bbox ts w h).
Proof.
  intros Hvis Hexact. unfold Spec.exact_sizes in Hexact.
  rewrite bbox_integer_form. unfold L3d.bbox_float.
  destruct (Spec.fully_visible ts) as [|p ps]; [reflexivity|].
  rewrite !fmap_cons, !list_min_least, !list_max_greatest. cbn [rbind]. cbv zeta.
  set (xs := (fun t : Z * Z * Z => t.1.1) <$> ps).
  set (ys := (fun t : Z * Z * Z => t.1.2) <$> ps).
  destruct (least_greatest_bounds p.1.1 xs 0 (w - 1)) as (Hx1 & Hx2 & _).
  { change (p.1.1 :: xs) with ((fun t : Z * Z * Z => t.1.1) <$> (p :: ps)).
    rewrite Forall_fmap. eapply Forall_impl; [exact Hvis|].
    intros t Ht. cbn in Ht |- *. lia. }
  destruct (least_greatest_bounds p.1.2 ys 0 (h - 1)) as (Hy1 & Hy2 & _).
  { change (p.1.2 :: ys) with ((fun t : Z * Z * Z => t.1.2) <$> (p :: ps)).
    rewrite Forall_fmap. eapply Forall_impl; [exact Hvis|].
    intros t Ht. cbn in Ht |- *. lia. }
  assert (Hw : w <= 2 ^ 53) by nia.
  assert (Hh : h <= 2 ^ 53) by nia.
  rewrite !of_int_exact by lia. cbn [rbind].
  change Float.zero with (Float.of_Z 0).
  rewrite !fmax_of_Z, !fmin_of_Z by lia.
  rewrite !sub_of_Z by lia.
  rewrite !fmax_of_Z by lia.
  reflexivity.
Qed.

(** Rounding the doubles of integers gives the integers back. *)
Lemma rmap_py_round_of_Z (l : list Z) :
  Forall (fun z => 0 <= z < 2 ^ 53) l ->
  rmap Float.py_round (Float.of_Z <$> l) = Ok l.
Proof.
  induction 1 as [|z l Hz _ IH]; [reflexivity|].
  cbn [fmap list_fmap rmap]. change (list_fmap Z float Float.of_Z l) with (Float.of_Z <$> l).
  rewrite py_round_of_Z by exact Hz. cbn [rbind]. rewrite IH. reflexivity.
Qed.

(** Past 2^53 the doubles round: two fully visible points (1, 1) and
    (2^54, 2^54) in an image of 2^54 + 1 pixels a side give the width
    [float(2^54) - 1.0], which is 2^54 and not 2^54 - 1. *)
Example bbox_float_rounds :
  L3d.bbox_float [1; 2 ^ 54] [1; 2 ^ 54] (2 ^ 54 + 1) (2 ^ 54 + 1)
  = Ok (Float.of_Z <$> [1; 1; 2 ^ 54; 2 ^ 54]) /\
  Spec.bbox [(1, 1, 2); (2 ^ 54, 2 ^ 54, 2)] (2 ^ 54 + 1) (2 ^ 54 + 1)
  = [1; 1; 2 ^ 54 - 1; 2 ^ 54 - 1].
Proof. split; vm_compute; reflexivity. Qed.

(** [float] of an integer past the range of doubles raises. *)
Example of_int_overflows :
  Float.of_int (2 ^ 1024) = Raise OverflowError /\
  Float.of_int (2 ^ 1024 - 2 ^ 970) = Raise OverflowError /\
  exists f, Float.of_int (2 ^ 1024 - 2 ^ 970 - 1) = Ok f.
Proof. split; [|split; [|eexists]]; vm_compute; reflexivity. Qed.

End BoundingBox.

Section InstanceAnnotation.

Local Open Scope Z_scope.

(** What a decoded triplet looks like: v is 0, 1 or 2, and a labelled
    triplet lies inside the image. *)
Lemma decode_kpt_triplet inst kpa w h i t :
  L3d.decode_kpt inst kpa w h i = Ok t ->
  (t.2 = 0 \/ t.2 = 1 \/ t.2 = 2) /\
  (0 < t.2 -> 0 <= t.1.1 < w /\ 0 <= t.1.2 < h).
Proof.
  unfold L3d.decode_kpt.
  destruct (decide (i < kpa)); [|intros [= <-]; cbn; lia].
  destruct (decide _); [|intros [= <-]; cbn; lia].
  destruct (_ && _); [|intros [= <-]; cbn; lia].
  destruct (Float.py_round _) as [x|]; [|discriminate].
  destruct (Float.py_round _) as [y|]; [|discriminate].
  cbn [rbind]. intros [= <-]. cbn [fst snd].
  destruct (decide (x < 0 \/ _)); [lia|].
  destruct (decide _); [lia|]. destruct (decide _); lia.
Qed.

(** The loop, read backwards: what it returns is what pushing the decoded
    triplets gives. *)
Lemma decode_loop_inv inst kpa w h l acc acc' :
  L3d.decode_loop inst kpa w h l acc = Ok acc' ->
  exists ts,
    Forall2 (fun i t => L3d.decode_kpt inst kpa w h i = Ok t) l ts /\
    acc' = foldl L3d.kp_acc_push acc ts.
Proof.
  revert acc. induction l as [|i l IH]; intros acc.
  - intros [= <-]. exists []. split; [constructor | reflexivity].
  - cbn [L3d.decode_loop].
    destruct (L3d.decode_kpt inst kpa w h i) as [t|] eqn:Ht; [|discriminate].
    cbn [rbind]. intros H. destruct (IH _ H) as (ts & Hts & ->).
    exists (t :: ts). split; [constructor; assumption | reflexivity].
Qed.


(** What the keypoint loop has accumulated after pushing [ts]. *)
Lemma foldl_push_fields ts acc :
  L3d.coco_keypoints_flat (foldl L3d.kp_acc_push acc ts)
    = L3d.coco_keypoints_flat acc ++ Spec.flat_triplets ts /\
  L3d.num_labeled_kps_for_instance (foldl L3d.kp_acc_push acc ts)
    = L3d.num_labeled_kps_for_instance acc + Spec.count_labeled ts /\
  L3d.visible_xs (foldl L3d.kp_acc_push acc ts)
    = L3d.visible_xs acc ++ ((fun t : Z * Z * Z => t.1.1) <$> Spec.fully_visible ts) /\
  L3d.visible_ys (foldl L3d.kp_acc_push acc ts)
    = L3d.visible_ys acc ++ ((fun t : Z * Z * Z => t.1.2) <$> Spec.fully_visible ts).
Proof.
  revert acc. induction ts as [|[[x y] v] ts IH]; intros acc.
  - unfold Spec.flat_triplets, Spec.count_labeled, Spec.fully_visible. simpl.
    rewrite !app_nil_r. repeat split; lia.
  - cbn [foldl]. destruct (IH (L3d.kp_acc_push acc (x, y, v))) as (Hf & Hn & Hx & Hy).
    rewrite Hf, Hn, Hx, Hy. clear IH Hf Hn Hx Hy.
    unfold Spec.flat_triplets, Spec.count_labeled, Spec.fully_visible.
    rewrite fmap_cons, concat_cons, !filter_cons. cbn [L3d.kp_acc_push
      L3d.coco_keypoints_flat L3d.num_labeled_kps_for_instance L3d.visible_xs
      L3d.visible_ys fst snd].
    rewrite <- !app_assoc.
    repeat split.
    + destruct (decide (v > 0)), (decide (0 < v)); try lia;
        cbn [length]; lia.
    + destruct (decide (v = 2)); [rewrite <- app_assoc|]; reflexivity.
    + destruct (decide (v = 2)); [rewrite <- app_assoc|]; reflexivity.
Qed.

(** The loop returns as soon as every joint decodes, and then it has
    pushed the decoded triplets in order. *)
Lemma decode_loop_run inst kpa w h l acc :
  (forall i, In i l -> exists t, L3d.decode_kpt inst kpa w h i = Ok t) ->
  exists ts,
    Forall2 (fun i t => L3d.decode_kpt inst kpa w h i = Ok t) l ts /\
    L3d.decode_loop inst kpa w h l acc = Ok (foldl L3d.kp_acc_push acc ts).
Proof.
  revert acc. induction l as [|i l IH]; intros acc Hall.
  - exists []. split; [constructor | reflexivity].
  - destruct (Hall i (or_introl eq_refl)) as [t Ht].
    destruct (IH (L3d.kp_acc_push acc t)) as (ts & Hts & Hrun).
    { intros j Hj. apply Hall. right. exact Hj. }
    exists (t :: ts). split; [constructor; assumption|].
    cbn [L3d.decode_loop foldl]. rewrite Ht. exact Hrun.
Qed.

(** A joint decodes unless a coordinate it reads is infinite. *)
Lemma decode_kpt_total inst kpa w h i :
  (i < kpa ->
   Float.isinf (fst (L3d.kps inst i)) = false /\
   Float.isinf (snd (L3d.kps inst i)) = false) ->
  exists t, L3d.decode_kpt inst kpa w h i = Ok t.
Proof.
  intros Hfin. unfold L3d.decode_kpt.
  destruct (decide (i < kpa)) as [Hi|_]; [|eauto].
  destruct (decide _) as [_|_]; [|eauto].
  destruct (Hfin Hi) as [Hx Hy].
  destruct (Float.isnan (fst (L3d.kps inst i))) eqn:Hnx; [eauto|].
  destruct (Float.isnan (snd (L3d.kps inst i))) eqn:Hny; [eauto|].
  destruct (py_round_not_nan_not_inf _ Hnx Hx) as [x ->].
  destruct (py_round_not_nan_not_inf _ Hny Hy) as [y ->].
  cbn. eauto.
Qed.

Lemma in_py_range i n : In i (py_range n) -> 0 <= i < n.
Proof.
  unfold py_range. rewrite <- list_elem_of_In, list_elem_of_fmap.
  intros (k & -> & Hk). apply elem_of_seq in Hk. lia.
Qed.

Lemma fully_visible_labeled ts :
  Spec.count_labeled ts = 0 -> Spec.fully_visible ts = [].
Proof.
  unfold Spec.count_labeled, Spec.fully_visible.
  induction ts as [|[[x y] v] ts IH]; [reflexivity|].
  rewrite !filter_cons. cbn [snd].
  destruct (decide (0 < v)); cbn [length]; [lia|].
  intros H. destruct (decide (v = 2)); [lia | auto].
Qed.

Lemma count_labeled_nonneg ts : 0 <= Spec.count_labeled ts.
Proof. unfold Spec.count_labeled. lia. Qed.

(** The fully visible triplets of decoded triplets lie in the image. *)
Lemma fully_visible_in_image inst kpa w h l ts :
  Forall2 (fun i t => L3d.decode_kpt inst kpa w h i = Ok t) l ts ->
  Forall (fun t : Z * Z * Z => 0 <= t.1.1 < w /\ 0 <= t.1.2 < h) (Spec.fully_visible ts).
Proof.
  intros Hts. apply Forall_forall. intros t Ht. unfold Spec.fully_visible in Ht.
  apply list_elem_of_filter in Ht. destruct Ht as [Hv Ht]. cbn in Hv.
  apply list_elem_of_lookup in Ht. destruct Ht as [k Hk].
  destruct (Forall2_lookup_r _ _ _ _ _ Hts Hk) as (i & _ & Hdec).
  apply decode_kpt_triplet in Hdec. apply Hdec. lia.
Qed.

(** The box, its rounding and its area for decoded triplets, in an image
    of at most 2^53 pixels: the code computes the box of the
    specification and the double of its area, and raises nowhere. *)
Lemma box_computation inst kpa w h l ts :
  Forall2 (fun i t => L3d.decode_kpt inst kpa w h i = Ok t) l ts ->
  Spec.exact_sizes w h ->
  L3d.bbox_float ((fun t : Z * Z * Z => t.1.1) <$> Spec.fully_visible ts)
                 ((fun t : Z * Z * Z => t.1.2) <$> Spec.fully_visible ts) w h
  = Ok (Float.of_Z <$> Spec.bbox ts w h) /\
  rmap Float.py_round (Float.of_Z <$> Spec.bbox ts w h) = Ok (Spec.bbox ts w h) /\
  Float.of_int (Spec.bbox ts w h !!! 2%nat * Spec.bbox ts w h !!! 3%nat)
  = Ok (Float.of_Z (Spec.bbox ts w h !!! 2%nat * Spec.bbox ts w h !!! 3%nat)).
Proof.
  intros Hts Hexact. pose proof (fully_visible_in_image _ _ _ _ _ _ Hts) as Hvis.
  split; [apply bbox_float_spec; assumption|].
  destruct (bbox_entries ts w h Hvis Hexact)
    as (x & y & bw & bh & -> & Hx & Hy & Hbw & Hbh & Harea).
  split.
  - apply rmap_py_round_of_Z. repeat constructor; lia.
  - cbn. apply of_int_exact. exact Harea.
Qed.

(** One instance, end to end, in an image of at most 2^53 pixels: its
    joints decode to some triplets [ts]; with no labelled triplet the state
    is left as it was, and otherwise the annotation counter is incremented
    and the record of [ts] appended under the new identifier. *)
Lemma process_instance_run d kpa nbk frame cam image_id w h animal (s : L3d.state) :
  0 <= animal ->
  Spec.processed d kpa frame cam animal ->
  Spec.no_infinite_coordinate d kpa frame cam animal ->
  Spec.exact_sizes w h ->
  exists inst ts,
    L3d.take_slices d (animal * kpa) (animal * kpa + kpa) cam frame = Ok inst /\
    Forall2 (fun i t => L3d.decode_kpt inst kpa w h i = Ok t) (py_range nbk) ts /\
    L3d.process_instance d kpa nbk frame cam image_id w h animal s
    = if decide (Spec.count_labeled ts = 0) then (s, Ok tt)
      else (L3d.add_annotation
              (Spec.annotation_of (L3d.annotation_id_counter s + 1) image_id ts w h)
              (L3d.incr_annotation_id s), Ok tt).
Proof.
  intros Hanimal (Hend & Hkpa & Hcam & Hframe & Hscam & Hsframe) Hfin Hexact.
  assert (Hslices : exists inst,
             L3d.take_slices d (animal * kpa) (animal * kpa + kpa) cam frame = Ok inst /\
             forall k, L3d.kps inst k
                       = L3d.cp_xy (L3d.camPoints d) (animal * kpa + k) cam frame).
  { unfold L3d.take_slices.
    destruct (decide _) as [_|Hn]; [|lia]. eexists. split; reflexivity. }
  destruct Hslices as (inst & Hinst & Hkps).
  destruct (decode_loop_run inst kpa w h (py_range nbk) L3d.kp_acc_init) as (ts & Hts & Hloop).
  { intros i Hi. apply in_py_range in Hi. apply decode_kpt_total.
    intros Hlt. rewrite Hkps. apply Hfin. lia. }
  exists inst, ts. split; [exact Hinst|]. split; [exact Hts|].
  destruct (foldl_push_fields ts L3d.kp_acc_init) as (Hf & Hn & Hx & Hy).
  cbn [L3d.kp_acc_init L3d.coco_keypoints_flat L3d.num_labeled_kps_for_instance
       L3d.visible_xs L3d.visible_ys app] in Hf, Hn, Hx, Hy.
  unfold L3d.process_instance.
  destruct (decide (animal * kpa + kpa > _)) as [|_]; [lia|].
  destruct (decide (~ _)) as [Hn'|_]; [exfalso; apply Hn'; lia|].
  unfold bind at 1. unfold lift at 1. rewrite Hinst.
  unfold bind at 1. unfold lift at 1. rewrite Hloop.
  rewrite Hn, Hx, Hy, Hf. rewrite Z.add_0_l.
  destruct (decide (Spec.count_labeled ts = 0)) as [Hz|Hnz].
  - rewrite (fully_visible_labeled ts Hz).
    destruct (decide _) as [_|Hn']; [reflexivity | exfalso; apply Hn'; split; auto].
  - destruct (decide _) as [[_ Hz]|_]; [contradiction|].
    destruct (box_computation inst kpa w h (py_range nbk) ts Hts Hexact)
      as (Hbox & Hround & Harea).
    unfold bind, modify, lift, get. rewrite Hbox, Hround, Harea.
    unfold Spec.annotation_of. reflexivity.
Qed.

End InstanceAnnotation.

Section AnnotationClaims.

Local Open Scope Z_scope.

Lemma count_labeled_positive ts :
  0 < Spec.count_labeled ts <-> Exists (fun t : Z * Z * Z => 0 < t.2) ts.
Proof.
  unfold Spec.count_labeled. induction ts as [|t ts IH].
  - split; [cbn; lia | intros H; inversion H].
  - rewrite filter_cons, Exists_cons.
    destruct (decide (0 < t.2)); cbn [length]; [|tauto].
    split; [auto | lia].
Qed.



End AnnotationClaims.

(** C1 at the second joint of the sample instance: (-5, 20) with status
    LABELED in a 100x100 image decodes to (-5, 20, 0). *)
Lemma decode_kpt_visibility_witness :
  ((1 < 3)%Z -> (1 < L3d.kps_len Sample.scenario_slices
                 /\ 1 < L3d.status_len Sample.scenario_slices)%Z) /\
  L3d.status_vals Sample.scenario_slices 1 = L3d.L3D_STATUS_LABELED /\
  exists x y v,
    L3d.decode_kpt Sample.scenario_slices 3 100 100 1 = Ok (x, y, v) /\
    x = (-5)%Z /\ y = 20%Z /\ v = 0%Z.
Proof.
  assert (Hshape : (1 < 3)%Z -> (1 < L3d.kps_len Sample.scenario_slices
                                 /\ 1 < L3d.status_len Sample.scenario_slices)%Z)
    by (intros _; split; reflexivity).
  split; [exact Hshape|]. split; [reflexivity|].
  destruct (decode_kpt_visibility Sample.scenario_slices 3 100 100 1 Hshape) as [_ H].
  destruct H as (x & y & v & Hx & Hy & Hd & Hout & _);
    [reflexivity | reflexivity | reflexivity |].
  vm_compute in Hx. vm_compute in Hy.
  injection Hx as Hx. injection Hy as Hy.
  exists x, y, v. split; [exact Hd|]. split; [symmetry; exact Hx|].
  split; [symmetry; exact Hy|]. apply Hout. left. rewrite <- Hx. reflexivity.
Defined.



Lemma exact_sizes_100 : Spec.exact_sizes 100 100.
Proof. unfold Spec.exact_sizes. vm_compute. discriminate. Qed.



(** The whole conversion of the sample file: one image, one annotation
    with one labelled keypoint, box [10, 10, 0, 0] and area 0. The joint
    outside the image keeps its rounded coordinates, with v = 0. *)
Example scenario_output :
  L3d.written_file Sample.scenario Sample.skeleton3 "out" true
  = Some {| L3d.images :=
              [ {| L3d.img_id := 1; L3d.img_width := 100; L3d.img_height := 100;
                   L3d.img_file_name := "Cam_A_frame_000007.jpg" |} ];
            L3d.annotations :=
              [ {| L3d.ann_id := 1; L3d.ann_image_id := 1; L3d.ann_category_id := 1;
                   L3d.ann_iscrowd := 0; L3d.ann_area := Float.zero;
                   L3d.ann_bbox := [10; 10; 0; 0]%Z;
                   L3d.ann_num_keypoints := 1;
                   L3d.ann_keypoints := [10; 10; 2; -5; 20; 0; 0; 0; 0]%Z |} ];
            L3d.categories :=
              [ {| L3d.cat_id := 1; L3d.cat_name := "monkey";
                   L3d.cat_supercategory := "monkey";
                   L3d.cat_keypoints := ["nose"; "neck"; "tail"]%string;
                   L3d.cat_skeleton := [[0; 1]; [1; 2]]%Z |} ] |}.
Proof. vm_compute. reflexivity. Qed.

(* --------------------------------------------------------------------- *)
(** ** Loops                                                               *)
(* --------------------------------------------------------------------- *)

Section Loops.

Context {S A : Type}.

(** A property kept by the body at every state, whether it raises or not,
    holds of the state the loop ends in. *)
Lemma for_each_preserves (P : S -> Prop) (l : list A) (body : A -> SE S unit) :
  (forall x s, P s -> P (fst (body x s))) ->
  forall s, P s -> P (fst (for_each l body s)).
Proof.
  intros Hbody. induction l as [|x l IH]; intros s Hs; [exact Hs|].
  cbn [for_each]. unfold bind.
  specialize (Hbody x s Hs). destruct (body x s) as [s' [u|e]]; cbn [fst] in *.
  - apply IH. exact Hbody.
  - exact Hbody.
Qed.

(** An invariant indexed by the number of completed iterations, with a
    weaker property that survives an exception. *)
Lemma for_each_indexed (I : nat -> S -> Prop) (W : S -> Prop)
    (l : list A) (body : A -> SE S unit) :
  (forall k s, I k s -> W s) ->
  (forall k x s, l !! k = Some x -> I k s ->
     W (fst (body x s)) /\ (snd (body x s) = Ok tt -> I (Datatypes.S k) (fst (body x s)))) ->
  forall s, I 0%nat s ->
    W (fst (for_each l body s)) /\
    (snd (for_each l body s) = Ok tt -> I (length l) (fst (for_each l body s))).
Proof.
  revert I. induction l as [|x l IH]; intros I HW Hbody s H0.
  - cbn. split; [apply (HW 0%nat); exact H0 | intros _; exact H0].
  - cbn [for_each length]. unfold bind.
    destruct (Hbody 0%nat x s eq_refl H0) as [Hw Hok].
    destruct (body x s) as [s' [[]|e]]; cbn [fst snd] in *.
    + apply (IH (fun k => I (Datatypes.S k))).
      * intros k s0. apply HW.
      * intros k y s0 Hy. apply (Hbody (Datatypes.S k)). exact Hy.
      * apply Hok. reflexivity.
    + split; [exact Hw | intros H; discriminate H].
Qed.

(** A loop whose body never raises does not raise. *)
Lemma for_each_ok (P : S -> Prop) (l : list A) (body : A -> SE S unit) :
  (forall x s, In x l -> P s -> snd (body x s) = Ok tt /\ P (fst (body x s))) ->
  forall s, P s -> snd (for_each l body s) = Ok tt /\ P (fst (for_each l body s)).
Proof.
  induction l as [|x l IH]; intros Hbody s Hs; [split; [reflexivity | exact Hs]|].
  cbn [for_each]. unfold bind.
  destruct (Hbody x s (or_introl eq_refl) Hs) as [Hok HP].
  destruct (body x s) as [s' [[]|e]]; cbn [fst snd] in *; [|discriminate Hok].
  apply IH; [|exact HP]. intros y s0 Hy. apply Hbody. right. exact Hy.
Qed.

End Loops.

Lemma py_range_lookup n (k : nat) x : py_range n !! k = Some x -> x = Z.of_nat k /\ (Z.of_nat k < n)%Z.
Proof.
  unfold py_range. rewrite list_lookup_fmap.
  destruct (seq 0 (Z.to_nat n) !! k) as [y|] eqn:E; [|discriminate].
  apply lookup_seq in E. cbn. intros [= <-]. lia.
Qed.

Lemma py_range_length n : (0 <= n)%Z -> Z.of_nat (length (py_range n)) = n.
Proof. intros H. unfold py_range. rewrite length_fmap, length_seq. lia. Qed.

(* --------------------------------------------------------------------- *)
(** ** Identifiers                                                         *)
(* --------------------------------------------------------------------- *)

Section IdentifierAssignment.

Local Open Scope Z_scope.

(** The four ways one instance can leave the state. *)
Lemma process_instance_cases d kpa nbk frame cam image_id w h animal (s : L3d.state) :
  let run := L3d.process_instance d kpa nbk frame cam image_id w h animal s in
  run = (s, Ok tt)
  \/ (exists e, run = (s, Raise e))
  \/ (exists e, run = (L3d.incr_annotation_id s, Raise e))
  \/ (exists a,
        L3d.ann_id a = L3d.annotation_id_counter s + 1 /\
        L3d.ann_image_id a = image_id /\
        run = (L3d.add_annotation a (L3d.incr_annotation_id s), Ok tt)).
Proof.
  cbv zeta. unfold L3d.process_instance.
  destruct (decide (_ > _)); [left; reflexivity|].
  destruct (decide (~ _)); [left; reflexivity|].
  unfold bind, lift, modify, get.
  destruct (L3d.take_slices _ _ _ _ _) as [inst|e]; [|right; left; eauto].
  destruct (L3d.decode_loop _ _ _ _ _ _) as [acc|e]; [|right; left; eauto].
  destruct (decide (_ /\ _)); [left; reflexivity|].
  destruct (L3d.bbox_float _ _ _ _) as [b|e]; [|right; right; left; eauto].
  destruct (rmap Float.py_round b) as [bbox_coco|e]; [|right; right; left; eauto].
  destruct (Float.of_int _) as [area|e]; [|right; right; left; eauto].
  right; right; right. eexists. split; [|split; [|reflexivity]]; reflexivity.
Qed.

Lemma consecutive_snoc ids id :
  Spec.consecutive_from_one ids ->
  id = Z.of_nat (length ids) + 1 ->
  Spec.consecutive_from_one (ids ++ [id]).
Proof.
  intros Hids Hid p x Hp.
  destruct (decide (p < length ids)%nat) as [Hlt|Hge].
  - rewrite lookup_app_l in Hp by exact Hlt. apply Hids. exact Hp.
  - rewrite lookup_app_r in Hp by lia.
    destruct (p - length ids)%nat as [|q] eqn:E; [|destruct q; discriminate Hp].
    injection Hp as <-. rewrite Hid. f_equal. lia.
Qed.

Lemma nondecreasing_snoc l x :
  Spec.nondecreasing l ->
  Forall (fun y => y <= x) l ->
  Spec.nondecreasing (l ++ [x]).
Proof.
  intros Hl Hx p q a b Hpq Hp Hq.
  destruct (decide (q < length l)%nat) as [Hlt|Hge].
  - rewrite lookup_app_l in Hp by lia. rewrite lookup_app_l in Hq by lia.
    exact (Hl p q a b Hpq Hp Hq).
  - rewrite lookup_app_r in Hq by lia.
    destruct (q - length l)%nat as [|r] eqn:E; [|destruct r; discriminate Hq].
    injection Hq as <-.
    destruct (decide (p < length l)%nat) as [Hlt|Hge'].
    + rewrite lookup_app_l in Hp by lia.
      rewrite Forall_forall in Hx. apply Hx.
      apply list_elem_of_lookup. eauto.
    + rewrite lookup_app_r in Hp by lia.
      destruct (p - length l)%nat as [|r] eqn:E'; [|destruct r; discriminate Hp].
      injection Hp as <-. lia.
Qed.

Lemma annotations_in_order_snoc k anns a :
  Spec.annotations_in_order k anns ->
  L3d.ann_id a = Z.of_nat (length anns) + 1 ->
  L3d.ann_image_id a = k ->
  1 <= k ->
  Spec.annotations_in_order k (anns ++ [a]).
Proof.
  intros (Hids & Hnd & Hb) Hid Him Hk. split; [|split].
  - rewrite fmap_app. apply consecutive_snoc; [exact Hids|].
    rewrite length_fmap. exact Hid.
  - rewrite fmap_app. cbn [fmap list_fmap]. rewrite Him.
    apply nondecreasing_snoc; [exact Hnd|].
    rewrite Forall_fmap. eapply Forall_impl; [exact Hb|].
    intros x Hx. cbn in *. lia.
  - apply Forall_app. split; [exact Hb|]. constructor; [lia | constructor].
Qed.

Lemma annotations_in_order_mono k k' anns :
  k <= k' -> Spec.annotations_in_order k anns -> Spec.annotations_in_order k' anns.
Proof.
  intros Hk (Hids & Hnd & Hb). split; [exact Hids|]. split; [exact Hnd|].
  eapply Forall_impl; [exact Hb|]. intros x Hx. cbn in *. lia.
Qed.

(** One instance keeps the images and the image counter, and keeps the
    annotations in order. *)
Lemma process_instance_step d kpa nbk frame cam image_id w h animal (s : L3d.state) :
  L3d.annotation_id_counter s = Z.of_nat (length (L3d.annotations (L3d.coco s))) ->
  1 <= image_id ->
  Spec.annotations_in_order image_id (L3d.annotations (L3d.coco s)) ->
  let run := L3d.process_instance d kpa nbk frame cam image_id w h animal s in
  L3d.images (L3d.coco (fst run)) = L3d.images (L3d.coco s) /\
  L3d.image_id_counter (fst run) = L3d.image_id_counter s /\
  Spec.annotations_in_order image_id (L3d.annotations (L3d.coco (fst run))) /\
  (snd run = Ok tt ->
   L3d.annotation_id_counter (fst run)
   = Z.of_nat (length (L3d.annotations (L3d.coco (fst run))))).
Proof.
  intros Hcount Himg Hord. cbv zeta.
  destruct (process_instance_cases d kpa nbk frame cam image_id w h animal s)
    as [H|[[e H]|[[e H]|(a & Hid & Haim & H)]]]; rewrite H; cbn [fst snd].
  - auto.
  - split; [reflexivity|]. split; [reflexivity|].
    split; [exact Hord | intros Hf; discriminate Hf].
  - split; [reflexivity|]. split; [reflexivity|].
    split; [exact Hord | intros Hf; discriminate Hf].
  - cbn [L3d.add_annotation L3d.incr_annotation_id L3d.coco L3d.images
         L3d.annotations L3d.image_id_counter L3d.annotation_id_counter].
    split; [reflexivity|]. split; [reflexivity|]. split.
    + apply annotations_in_order_snoc; [exact Hord | lia | exact Haim | exact Himg].
    + intros _. rewrite length_app. cbn. lia.
Qed.

(** The loop over the instances of one (frame, camera) pair. *)
Lemma instances_loop d kpa nbk frame cam image_id w h (l : list Z) (s : L3d.state) :
  L3d.annotation_id_counter s = Z.of_nat (length (L3d.annotations (L3d.coco s))) ->
  1 <= image_id ->
  Spec.annotations_in_order image_id (L3d.annotations (L3d.coco s)) ->
  let run := for_each l (L3d.process_instance d kpa nbk frame cam image_id w h) s in
  L3d.images (L3d.coco (fst run)) = L3d.images (L3d.coco s) /\
  Spec.annotations_in_order image_id (L3d.annotations (L3d.coco (fst run))) /\
  (snd run = Ok tt ->
   L3d.image_id_counter (fst run) = L3d.image_id_counter s /\
   L3d.annotation_id_counter (fst run)
   = Z.of_nat (length (L3d.annotations (L3d.coco (fst run))))).
Proof.
  intros Hcount Himg Hord. cbv zeta.
  pose proof (for_each_indexed
    (fun (_ : nat) s' =>
       L3d.images (L3d.coco s') = L3d.images (L3d.coco s) /\
       L3d.image_id_counter s' = L3d.image_id_counter s /\
       Spec.annotations_in_order image_id (L3d.annotations (L3d.coco s')) /\
       L3d.annotation_id_counter s'
       = Z.of_nat (length (L3d.annotations (L3d.coco s'))))
    (fun s' =>
       L3d.images (L3d.coco s') = L3d.images (L3d.coco s) /\
       Spec.annotations_in_order image_id (L3d.annotations (L3d.coco s')))
    l (L3d.process_instance d kpa nbk frame cam image_id w h)) as Hloop.
  destruct (Hloop) with (s := s) as [[Him Hcons] Hok].
  - intros _ s' (H1 & _ & H3 & _). split; assumption.
  - intros k animal s' _ (H1 & H2 & H3 & H4).
    destruct (process_instance_step d kpa nbk frame cam image_id w h animal s' H4 Himg H3)
      as (G1 & G2 & G3 & G4).
    split; [split; [congruence | exact G3]|].
    intros Hr. split; [congruence|]. split; [congruence|].
    split; [exact G3 | exact (G4 Hr)].
  - split; [reflexivity|]. split; [reflexivity|]. split; assumption.
  - split; [exact Him|]. split; [exact Hcons|].
    intros Hr. destruct (Hok Hr) as (_ & H2 & _ & H4). split; assumption.
Qed.

Lemma images_in_order_snoc d ims im :
  Spec.images_in_order d ims ->
  Spec.image_of d (Z.of_nat (length ims) / Z.of_nat (L3d.cp_cams (L3d.camPoints d)))
                  (Z.of_nat (length ims) mod Z.of_nat (L3d.cp_cams (L3d.camPoints d))) im ->
  Spec.images_in_order d (ims ++ [im]).
Proof.
  intros Hims Him p x Hp.
  destruct (decide (p < length ims)%nat) as [Hlt|Hge].
  - rewrite lookup_app_l in Hp by exact Hlt. apply Hims. exact Hp.
  - rewrite lookup_app_r in Hp by lia.
    destruct (p - length ims)%nat as [|q] eqn:E; [|destruct q; discriminate Hp].
    injection Hp as <-. replace p with (length ims) by lia. exact Him.
Qed.

(** The camera body, step by step. *)
Lemma process_camera_unfold d n kpa nbk frame fid cam (s : L3d.state) :
  L3d.process_camera d n kpa nbk frame fid cam s
  = match getitem (L3d.imageSize d) cam with
    | Raise e => (L3d.incr_image_id s, Raise e)
    | Ok hw =>
        let s2 :=
          L3d.add_image
            {| L3d.img_id := L3d.image_id_counter s + 1;
               L3d.img_width := snd hw;
               L3d.img_height := fst hw;
               L3d.img_file_name :=
                 Spec.camera_name d cam +:+ "_frame_" +:+ L3d.fmt_06d fid +:+ ".jpg" |}
            (L3d.incr_image_id s) in
        if decide (n = 0) then (s2, Ok tt)
        else for_each (py_range n)
               (L3d.process_instance d kpa nbk frame cam (L3d.image_id_counter s + 1)
                  (snd hw) (fst hw)) s2
    end.
Proof.
  unfold L3d.process_camera, bind, modify, get, lift.
  destruct (getitem (L3d.imageSize d) cam) as [hw|e]; [|reflexivity].
  cbv zeta. destruct (decide (n = 0)); reflexivity.
Qed.

(** One camera of frame [i]: from [i * num_cameras + j] images to one
    more. *)
Lemma process_camera_step d n kpa nbk (i j fid : Z) (s : L3d.state) :
  let nc := Z.of_nat (L3d.cp_cams (L3d.camPoints d)) in
  0 <= i -> 0 <= j < nc ->
  getitem (L3d.framesToLabel d) i = Ok fid ->
  Spec.between_iterations d (i * nc + j) s ->
  let run := L3d.process_camera d n kpa nbk i fid j s in
  Spec.at_any_point d (fst run) /\
  (snd run = Ok tt -> Spec.between_iterations d (i * nc + (j + 1)) (fst run)).
Proof.
  intros nc Hi Hj Hfid (Hc & Hlen & Hac & Hims & Hord). cbv zeta.
  rewrite process_camera_unfold.
  destruct (getitem (L3d.imageSize d) j) as [hw|e] eqn:Hhw; cbn [fst snd].
  2: { split; [|intros Hf; discriminate Hf].
       split; [exact Hims|]. cbn. rewrite Hlen. exact Hord. }
  cbv zeta.
  set (im := {| L3d.img_id := _ |}).
  set (s2 := L3d.add_image im (L3d.incr_image_id s)).
  assert (Him : Spec.images_in_order d (L3d.images (L3d.coco s2))).
  { cbn. apply images_in_order_snoc; [exact Hims|].
    fold nc. rewrite Hlen.
    assert (Hq : (i * nc + j) / nc = i) by (symmetry; apply (Z.div_unique _ _ i j); lia).
    assert (Hr : (i * nc + j) mod nc = j) by (symmetry; apply (Z.mod_unique _ _ i j); lia).
    rewrite Hq, Hr. unfold Spec.image_of. fold nc. cbn [im L3d.img_id L3d.img_height
      L3d.img_width L3d.img_file_name].
    split; [lia|]. split; [rewrite Hhw; destruct hw; reflexivity|].
    exists fid. split; [exact Hfid | reflexivity]. }
  assert (Hc2 : L3d.image_id_counter s2 = i * nc + (j + 1)) by (cbn; lia).
  assert (Hlen2 : Z.of_nat (length (L3d.images (L3d.coco s2))) = i * nc + (j + 1))
    by (cbn; rewrite length_app; cbn; lia).
  assert (Hord2 : Spec.annotations_in_order (i * nc + (j + 1))
                    (L3d.annotations (L3d.coco s2))).
  { apply (annotations_in_order_mono (i * nc + j)); [lia | exact Hord]. }
  destruct (decide (n = 0)) as [_|_].
  { cbn [fst snd]. split; [split; [exact Him | rewrite Hlen2; exact Hord2]|].
    intros _. split; [exact Hc2|]. split; [exact Hlen2|]. split; [exact Hac|].
    split; [exact Him | exact Hord2]. }
  assert (Hid : L3d.image_id_counter s + 1 = i * nc + (j + 1)) by lia.
  rewrite Hid.
  destruct (instances_loop d kpa nbk i j (i * nc + (j + 1)) (snd hw) (fst hw)
              (py_range n) s2 Hac ltac:(nia) Hord2) as (G1 & G2 & G3).
  split.
  - split; [rewrite G1; exact Him | rewrite G1, Hlen2; exact G2].
  - intros Hr. destruct (G3 Hr) as [G4 G5]. unfold Spec.between_iterations.
    rewrite G1, G4. auto.
Qed.

Lemma between_at_any_point d k s :
  Spec.between_iterations d k s -> Spec.at_any_point d s.
Proof.
  intros (_ & Hlen & _ & Hims & Hord). split; [exact Hims|]. rewrite Hlen. exact Hord.
Qed.

Lemma process_frame_unfold d n kpa nbk frame (s : L3d.state) :
  L3d.process_frame d n kpa nbk frame s
  = match getitem (L3d.framesToLabel d) frame with
    | Raise e => (s, Raise e)
    | Ok fid =>
        for_each (py_range (Z.of_nat (L3d.cp_cams (L3d.camPoints d))))
          (L3d.process_camera d n kpa nbk frame fid) s
    end.
Proof.
  unfold L3d.process_frame, bind, lift.
  destruct (getitem (L3d.framesToLabel d) frame); reflexivity.
Qed.

(** One frame: from [i * num_cameras] images to [(i + 1) * num_cameras]. *)
Lemma process_frame_step d n kpa nbk (i : Z) (s : L3d.state) :
  let nc := Z.of_nat (L3d.cp_cams (L3d.camPoints d)) in
  0 <= i ->
  Spec.between_iterations d (i * nc) s ->
  let run := L3d.process_frame d n kpa nbk i s in
  Spec.at_any_point d (fst run) /\
  (snd run = Ok tt -> Spec.between_iterations d ((i + 1) * nc) (fst run)).
Proof.
  intros nc Hi Hs. cbv zeta. rewrite process_frame_unfold.
  destruct (getitem (L3d.framesToLabel d) i) as [fid|e] eqn:Hfid; cbn [fst snd].
  2: { split; [|intros Hf; discriminate Hf]. apply between_at_any_point in Hs. exact Hs. }
  fold nc.
  destruct (for_each_indexed
              (fun (k : nat) s' => Spec.between_iterations d (i * nc + Z.of_nat k) s')
              (Spec.at_any_point d)
              (py_range nc) (L3d.process_camera d n kpa nbk i fid)) with (s := s)
    as [Hw Hok].
  - intros k s'. apply between_at_any_point.
  - intros k j s' Hk Hs'. apply py_range_lookup in Hk. destruct Hk as [-> Hlt].
    replace (i * nc + Z.of_nat (Datatypes.S k)) with (i * nc + (Z.of_nat k + 1)) by lia.
    apply process_camera_step; [exact Hi | fold nc; lia | exact Hfid | exact Hs'].
  - replace (i * nc + Z.of_nat 0) with (i * nc) by lia. exact Hs.
  - split; [exact Hw|]. intros Hr. specialize (Hok Hr).
    rewrite py_range_length in Hok by lia.
    replace ((i + 1) * nc) with (i * nc + nc) by lia. exact Hok.
Qed.

Lemma initial_state_between d sk : Spec.between_iterations d 0 (L3d.initial_state sk).
Proof.
  split; [reflexivity|]. split; [reflexivity|]. split; [reflexivity|].
  split; [intros p x H; cbn in H; rewrite lookup_nil in H; discriminate H|].
  split; [|split].
  - intros p x H. cbn in H. rewrite lookup_nil in H. discriminate H.
  - intros p q a b _ H. cbn in H. rewrite lookup_nil in H. discriminate H.
  - constructor.
Qed.

(** The whole traversal. *)
Lemma frames_loop d sk n kpa nbk :
  let nc := Z.of_nat (L3d.cp_cams (L3d.camPoints d)) in
  let nf := Z.of_nat (L3d.cp_frames (L3d.camPoints d)) in
  let run := for_each (py_range nf) (L3d.process_frame d n kpa nbk) (L3d.initial_state sk) in
  Spec.at_any_point d (fst run) /\
  (snd run = Ok tt -> Spec.between_iterations d (nf * nc) (fst run)).
Proof.
  intros nc nf. cbv zeta.
  destruct (for_each_indexed
              (fun (k : nat) s' => Spec.between_iterations d (Z.of_nat k * nc) s')
              (Spec.at_any_point d)
              (py_range nf) (L3d.process_frame d n kpa nbk))
    with (s := L3d.initial_state sk) as [Hw Hok].
  - intros k s'. apply between_at_any_point.
  - intros k i s' Hk Hs'. apply py_range_lookup in Hk. destruct Hk as [-> Hlt].
    replace (Z.of_nat (Datatypes.S k) * nc) with ((Z.of_nat k + 1) * nc) by lia.
    apply process_frame_step; [lia | exact Hs'].
  - apply initial_state_between.
  - split; [exact Hw|]. intros Hr. specialize (Hok Hr).
    rewrite py_range_length in Hok by lia. exact Hok.
Qed.

Lemma images_in_order_ids d ims :
  Spec.images_in_order d ims -> Spec.consecutive_from_one (L3d.img_id <$> ims).
Proof.
  intros Hims p id Hp. rewrite list_lookup_fmap in Hp.
  destruct (ims !! p) as [im|] eqn:E; [|discriminate Hp].
  injection Hp as <-. destruct (Hims p im E) as [Hid _]. rewrite Hid.
  set (nc := Z.of_nat (L3d.cp_cams (L3d.camPoints d))).
  destruct (decide (nc = 0)) as [->|Hnc].
  - rewrite Z.div_0_r, Z.mod_0_r. lia.
  - pose proof (Z.div_mod (Z.of_nat p) nc Hnc). lia.
Qed.

Lemma nothing_built_at_any_point d : Spec.at_any_point d L3d.nothing_built.
Proof.
  split; [intros p x H; cbn in H; rewrite lookup_nil in H; discriminate H|].
  split; [|split].
  - intros p x H. cbn in H. rewrite lookup_nil in H. discriminate H.
  - intros p q a b _ H. cbn in H. rewrite lookup_nil in H. discriminate H.
  - constructor.
Qed.

(** Whatever the input and however the run ends, the state it ends in has
    its images and annotations in traversal order. *)
Lemma l3d_to_coco_at_any_point d sk :
  Spec.at_any_point d (fst (L3d.l3d_to_coco d sk)) /\
  (snd (L3d.l3d_to_coco d sk) = Ok tt ->
   Z.of_nat (length (L3d.images (L3d.coco (fst (L3d.l3d_to_coco d sk)))))
   = Z.of_nat (L3d.cp_frames (L3d.camPoints d)) * Z.of_nat (L3d.cp_cams (L3d.camPoints d))).
Proof.
  unfold L3d.l3d_to_coco.
  destruct (rbind _ _) as [[n kpa]|e].
  - destruct (frames_loop d sk n kpa (Z.of_nat (length (L3d.joint_names sk))))
      as [Hw Hok].
    split; [exact Hw|]. intros Hr. destruct (Hok Hr) as (_ & Hlen & _). exact Hlen.
  - cbn [fst snd]. split; [apply nothing_built_at_any_point | intros Hf; discriminate Hf].
Qed.

(** C9. Whatever the input and however the run ends: the image at position
    [i * num_cameras + j] of the output is the record of camera [j] of
    frame [i] and has identifier [i * num_cameras + j + 1], so that image
    identifiers are 1, 2, 3, ... in output order; a run that completes has
    built exactly one image per (frame, camera) pair; the annotations carry
    the identifiers 1, 2, 3, ... in output order, and they come in the
    order of the traversal: their image identifiers never go down and are
    identifiers of images of the output. *)
Theorem identifiers_follow_traversal d sk :
  let nc := Z.of_nat (L3d.cp_cams (L3d.camPoints d)) in
  let nf := Z.of_nat (L3d.cp_frames (L3d.camPoints d)) in
  let s := fst (L3d.l3d_to_coco d sk) in
  (forall i j im,
     0 <= i -> 0 <= j < nc ->
     L3d.images (L3d.coco s) !! Z.to_nat (i * nc + j) = Some im ->
     L3d.img_id im = i * nc + j + 1 /\ Spec.image_of d i j im) /\
  (snd (L3d.l3d_to_coco d sk) = Ok tt ->
   Z.of_nat (length (L3d.images (L3d.coco s))) = nf * nc) /\
  Spec.consecutive_from_one (L3d.img_id <$> L3d.images (L3d.coco s)) /\
  Spec.consecutive_from_one (L3d.ann_id <$> L3d.annotations (L3d.coco s)) /\
  Spec.nondecreasing (L3d.ann_image_id <$> L3d.annotations (L3d.coco s)) /\
  Forall (fun a => 1 <= L3d.ann_image_id a <= Z.of_nat (length (L3d.images (L3d.coco s))))
    (L3d.annotations (L3d.coco s)).
Proof.
  intros nc nf s.
  destruct (l3d_to_coco_at_any_point d sk) as [[Hims (Hids & Hnd & Hb)] Hlen].
  fold s in Hims, Hids, Hnd, Hb, Hlen.
  split; [|split; [exact Hlen|split; [apply (images_in_order_ids d); exact Hims|]]].
  - intros i j im Hi Hj Him.
    specialize (Hims _ _ Him). rewrite Z2Nat.id in Hims by nia.
    fold nc in Hims.
    assert (Hq : (i * nc + j) / nc = i) by (symmetry; apply (Z.div_unique _ _ i j); lia).
    assert (Hr : (i * nc + j) mod nc = j) by (symmetry; apply (Z.mod_unique _ _ i j); lia).
    rewrite Hq, Hr in Hims. split; [apply Hims | exact Hims].
  - split; [exact Hids|]. split; [exact Hnd | exact Hb].
Qed.

End IdentifierAssignment.

(* --------------------------------------------------------------------- *)
(** ** Well-formed files are converted                                     *)
(* --------------------------------------------------------------------- *)

Section Completion.

Local Open Scope Z_scope.

(** In a well-formed file the slices of a processed instance hold exactly
    its [keypoints_per_animal] markers, coordinates and statuses alike. *)
Lemma processed_slices_shape d kpa frame cam animal :
  0 <= animal ->
  Spec.well_formed d ->
  Spec.processed d kpa frame cam animal ->
  exists inst,
    L3d.take_slices d (animal * kpa) (animal * kpa + kpa) cam frame = Ok inst /\
    L3d.kps_len inst = kpa /\
    L3d.status_len inst = kpa /\
    (forall k, L3d.kps inst k
               = L3d.cp_xy (L3d.camPoints d) (animal * kpa + k) cam frame) /\
    (forall k, L3d.status_vals inst k
               = L3d.st_val (L3d.status d) (animal * kpa + k) cam frame).
Proof.
  intros Hanimal (_ & _ & Hm & _) (Hend & Hkpa & Hcam & Hframe & Hscam & Hsframe).
  unfold L3d.take_slices.
  destruct (decide _) as [_|Hn]; [|lia].
  eexists. split; [reflexivity|].
  cbn [L3d.kps_len L3d.status_len L3d.kps L3d.status_vals]. unfold L3d.slice_len.
  repeat split; nia.
Qed.

Lemma process_instance_completes d kpa nbk frame cam image_id w h animal (s : L3d.state) :
  Spec.well_formed d ->
  Spec.exact_sizes w h ->
  0 <= animal -> 0 <= kpa ->
  snd (L3d.process_instance d kpa nbk frame cam image_id w h animal s) = Ok tt.
Proof.
  intros Hwf Hexact Hanimal Hkpa.
  destruct (decide (Spec.processed d kpa frame cam animal)) as [Hproc|Hskip].
  - destruct (process_instance_run d kpa nbk frame cam image_id w h animal s
                Hanimal Hproc) as (inst & ts & _ & _ & Hrun); [|exact Hexact|].
    { intros k _. apply Hwf. }
    rewrite Hrun. destruct (decide _); reflexivity.
  - unfold L3d.process_instance.
    destruct (decide (_ > _)) as [|Hend]; [reflexivity|].
    destruct (decide (~ _)) as [|Hin]; [reflexivity|].
    exfalso. apply Hskip. destruct Hwf as (_ & _ & _ & Hc & Hf & _).
    unfold Spec.processed. lia.
Qed.

Lemma process_camera_completes d n kpa nbk frame fid cam (s : L3d.state) :
  Spec.well_formed d ->
  Spec.exact_image_sizes d ->
  0 <= kpa ->
  0 <= cam < Z.of_nat (L3d.cp_cams (L3d.camPoints d)) ->
  snd (L3d.process_camera d n kpa nbk frame fid cam s) = Ok tt.
Proof.
  intros Hwf Hsizes Hkpa Hcam. rewrite process_camera_unfold.
  assert (Hsize : exists hw, getitem (L3d.imageSize d) cam = Ok hw /\
                             Spec.exact_sizes hw.2 hw.1).
  { unfold getitem. destruct Hwf as (Hs & _).
    destruct (lookup_lt_is_Some_2 (L3d.imageSize d) (Z.to_nat cam)) as [hw Hhw]; [lia|].
    rewrite Hhw. exists hw. split; [reflexivity|].
    unfold Spec.exact_image_sizes in Hsizes. rewrite Forall_forall in Hsizes.
    apply Hsizes. apply list_elem_of_lookup. eauto. }
  destruct Hsize as (hw & -> & Hexact). cbv zeta.
  destruct (decide (n = 0)); [reflexivity|].
  apply (for_each_ok (fun _ => True)); [|exact I].
  intros animal s' Hin _. split; [|exact I].
  apply in_py_range in Hin.
  apply process_instance_completes; [exact Hwf | exact Hexact | lia | exact Hkpa].
Qed.

Lemma process_frame_completes d n kpa nbk frame (s : L3d.state) :
  Spec.well_formed d ->
  Spec.exact_image_sizes d ->
  0 <= kpa ->
  0 <= frame < Z.of_nat (L3d.cp_frames (L3d.camPoints d)) ->
  snd (L3d.process_frame d n kpa nbk frame s) = Ok tt.
Proof.
  intros Hwf Hsizes Hkpa Hframe. rewrite process_frame_unfold.
  assert (Hfid : exists fid, getitem (L3d.framesToLabel d) frame = Ok fid).
  { unfold getitem. destruct Hwf as (_ & Hf & _).
    destruct (lookup_lt_is_Some_2 (L3d.framesToLabel d) (Z.to_nat frame)) as [fid ->];
      [lia | eauto]. }
  destruct Hfid as [fid ->].
  apply (for_each_ok (fun _ => True)); [|exact I].
  intros cam s' Hin _. split; [|exact I].
  apply in_py_range in Hin.
  apply process_camera_completes; [exact Hwf | exact Hsizes | exact Hkpa | exact Hin].
Qed.

(** X20. A file whose tensor is loaded as it was stored (no dimension
    below two), well formed, with images of at most 2^53 pixels and a
    positive animal count that divides the marker count, is converted to
    the end: the loops do not raise and build one image per
    (frame, camera) pair; and with an output path that has a directory
    part, on a file system that accepts the write, this output is the
    file written. *)
Lemma l3d_to_coco_completes d sk n output_dir :
  Spec.loaded_as_stored d ->
  Spec.well_formed d ->
  Spec.exact_image_sizes d ->
  L3d.read_n_animals d = Ok n ->
  n > 0 ->
  Z.of_nat (L3d.cp_markers (L3d.camPoints d)) mod n = 0 ->
  output_dir <> ""%string ->
  snd (L3d.l3d_to_coco d sk) = Ok tt /\
  exists out,
    L3d.written_file d sk output_dir true = Some out /\
    Z.of_nat (length (L3d.images out))
    = Z.of_nat (L3d.cp_frames (L3d.camPoints d)) * Z.of_nat (L3d.cp_cams (L3d.camPoints d)).
Proof.
  intros _ Hwf Hsizes Hread Hn Hmod Hdir.
  assert (Hrun : snd (L3d.l3d_to_coco d sk) = Ok tt).
  { unfold L3d.l3d_to_coco. rewrite Hread. cbn [rbind].
    destruct (L3d.keypoints_config _ _ _) as [[n' kpa]|e] eqn:Hcfg.
    - assert (Hkpa : 0 <= kpa).
      { unfold L3d.keypoints_config in Hcfg.
        repeat case_decide; inversion Hcfg; subst; try lia.
        apply Z.div_pos; lia. }
      apply (for_each_ok (fun _ => True)); [|exact I].
      intros frame s' Hin _. split; [|exact I].
      apply in_py_range in Hin.
      apply process_frame_completes; [exact Hwf | exact Hsizes | exact Hkpa | exact Hin].
    - unfold L3d.keypoints_config in Hcfg.
      repeat case_decide; try discriminate Hcfg; lia. }
  split; [exact Hrun|].
  destruct (l3d_to_coco_at_any_point d sk) as [_ Hlen]. specialize (Hlen Hrun).
  unfold L3d.written_file, L3d.save.
  destruct (L3d.l3d_to_coco d sk) as [s [[]|e]]; cbn [fst snd] in *;
    [|discriminate Hrun].
  destruct (decide (output_dir = ""%string)) as [|_]; [contradiction|].
  exists (L3d.coco s). split; [reflexivity | exact Hlen].
Qed.

End Completion.

(* ===================================================================== *)
(** * Properties of prepare_label3d_poses.py                               *)
(* ===================================================================== *)

Section JointOutcome.

Lemma to_float_ok c x : Prepare.to_float c = Ok x <-> c = Prepare.JNum x.
Proof.
  destruct c; cbn; split; intros H; try discriminate H; injection H as ->; reflexivity.
Qed.

(** What one joint does: it leaves the arrays as they are, returning, or
    raising [OverflowError] for a coordinate past the range of doubles, or
    [IndexError] for a keypoint or a cell that is not there; or it writes
    the pair of numbers and the status 1 in the cell of the joint. *)
Lemma process_joint_outcome kpt_score_threshold cam_idx mat_frame_idx marker_offset
    kps_list scores_list joint_idx a :
  let idx := ((marker_offset + joint_idx)%nat, cam_idx, mat_frame_idx) in
  let r := Prepare.process_joint kpt_score_threshold cam_idx mat_frame_idx marker_offset
             kps_list scores_list joint_idx a in
  (fst r = a /\
   (snd r = Ok tt
    \/ (snd r = Raise OverflowError /\
        exists point_xy, kps_list !! joint_idx = Some point_xy /\ Prepare.JHuge ∈ point_xy)
    \/ (snd r = Raise IndexError /\
        (kps_list !! joint_idx = None \/ ~ Prepare.in_bounds a idx))))
  \/ (exists px py,
        kps_list !! joint_idx = Some [Prepare.JNum px; Prepare.JNum py] /\
        Float.geb (default kpt_score_threshold (scores_list !! joint_idx))
          kpt_score_threshold = true /\
        Prepare.in_bounds a idx /\
        r = ({| Prepare.total_num_markers := Prepare.total_num_markers a;
                Prepare.num_processed_cams := Prepare.num_processed_cams a;
                Prepare.num_processed_frames := Prepare.num_processed_frames a;
                Prepare.cam_points_data := <[idx := (px, py)]> (Prepare.cam_points_data a);
                Prepare.status_data := <[idx := 1%N]> (Prepare.status_data a) |}, Ok tt)).
Proof.
  cbv zeta. unfold Prepare.process_joint, bind, lift, getitem. rewrite Nat2Z.id.
  destruct (kps_list !! joint_idx) as [point_xy|] eqn:Hpoint.
  2: { left. split; [reflexivity|]. right. right. split; [reflexivity | left; reflexivity]. }
  replace (match scores_list !! joint_idx with
           | Some sc => sc
           | None => kpt_score_threshold
           end)
    with (default kpt_score_threshold (scores_list !! joint_idx)) by reflexivity.
  destruct (_ && _) eqn:Hcond.
  2: { left. split; [reflexivity|]. left. reflexivity. }
  apply andb_prop in Hcond as [Hcond _]. apply andb_prop in Hcond as [Hge Hlen2].
  apply bool_decide_eq_true in Hlen2.
  destruct point_xy as [|c0 [|c1 [|c2 rest]]]; try discriminate Hlen2.
  unfold Prepare.try_except, bind, lift.
  cbn [lookup_total list_lookup_total].
  destruct c0 as [px| | |]; cbn [Prepare.to_float Prepare.value_or_type_error fst snd].
  2: { left. split; [reflexivity|]. right. left. split; [reflexivity|].
       eexists. split; [reflexivity | apply list_elem_of_here]. }
  2-3: (left; split; [reflexivity | left; reflexivity]).
  destruct c1 as [py| | |]; cbn [Prepare.to_float Prepare.value_or_type_error fst snd].
  2: { left. split; [reflexivity|]. right. left. split; [reflexivity|].
       eexists. split; [reflexivity | apply list_elem_of_further, list_elem_of_here]. }
  2-3: (left; split; [reflexivity | left; reflexivity]).
  unfold Prepare.set_cam_points, Prepare.set_status.
  destruct (decide (Prepare.in_bounds a _)) as [Hin|Hout];
    cbn [Prepare.value_or_type_error fst snd].
  2: { left. split; [reflexivity|]. right. right. split; [reflexivity | right; exact Hout]. }
  unfold Prepare.in_bounds at 1.
  cbn [Prepare.total_num_markers Prepare.num_processed_cams Prepare.num_processed_frames].
  destruct (decide _) as [_|Hn]; [|exfalso; apply Hn; exact Hin].
  right. exists px, py. split; [reflexivity|]. split; [exact Hge|]. split; [exact Hin|].
  reflexivity.
Qed.

End JointOutcome.

Section StatusValues.

Variable num_keypoints_per_instance : nat.
Variable kpt_score_threshold : float.
Variable frame_id_to_mat_idx_map : gmap Z nat.
Variable instance_id_to_slot_idx_map : gmap string nat.

Lemma new_arrays_only_initialized markers cams frames :
  Spec.only_initialized (Prepare.new_arrays markers cams frames).
Proof. apply map_Forall_empty. Qed.

Lemma set_cam_points_status idx xy a :
  Prepare.status_data (fst (Prepare.set_cam_points idx xy a)) = Prepare.status_data a.
Proof. unfold Prepare.set_cam_points. destruct (decide _); reflexivity. Qed.

Lemma set_status_one idx a :
  Spec.only_initialized a -> Spec.only_initialized (fst (Prepare.set_status idx 1%N a)).
Proof.
  intros Ha. unfold Prepare.set_status.
  destruct (decide _); cbn [fst]; [|exact Ha].
  unfold Spec.only_initialized. cbn [Prepare.status_data].
  apply map_Forall_insert_2; [reflexivity | exact Ha].
Qed.

Lemma process_joint_only_initialized cam_idx mat_frame_idx marker_offset
    kps_list scores_list joint_idx a :
  Spec.only_initialized a ->
  Spec.only_initialized
    (fst (Prepare.process_joint kpt_score_threshold cam_idx mat_frame_idx marker_offset
            kps_list scores_list joint_idx a)).
Proof.
  intros Ha.
  destruct (process_joint_outcome kpt_score_threshold cam_idx mat_frame_idx marker_offset
              kps_list scores_list joint_idx a)
    as [[-> _]|(px & py & _ & _ & _ & ->)]; [exact Ha|].
  unfold Spec.only_initialized. cbn [fst Prepare.status_data].
  apply map_Forall_insert_2; [reflexivity | exact Ha].
Qed.

Lemma process_instance_only_initialized cam_idx mat_frame_idx inst_json a :
  Spec.only_initialized a ->
  Spec.only_initialized
    (fst (Prepare.process_instance num_keypoints_per_instance kpt_score_threshold
            instance_id_to_slot_idx_map cam_idx mat_frame_idx inst_json a)).
Proof.
  intros Ha. unfold Prepare.process_instance.
  destruct (instance_id_to_slot_idx_map !! _) as [slot|]; [|exact Ha].
  destruct (decide _); [|exact Ha].
  apply for_each_preserves; [|exact Ha].
  intros joint_idx a'. apply process_joint_only_initialized.
Qed.

Lemma process_frame_only_initialized cam_idx frame_content a :
  Spec.only_initialized a ->
  Spec.only_initialized
    (fst (Prepare.process_frame num_keypoints_per_instance kpt_score_threshold
            frame_id_to_mat_idx_map instance_id_to_slot_idx_map cam_idx frame_content a)).
Proof.
  intros Ha. unfold Prepare.process_frame.
  destruct (Prepare.actual_frame_id frame_content) as [fid|]; [|exact Ha].
  destruct (frame_id_to_mat_idx_map !! fid) as [mat_frame_idx|]; [|exact Ha].
  apply for_each_preserves; [|exact Ha].
  intros inst_json a'. apply process_instance_only_initialized.
Qed.

Lemma populate_only_initialized cameras a :
  Spec.only_initialized a ->
  Spec.only_initialized
    (fst (Prepare.populate num_keypoints_per_instance kpt_score_threshold
            frame_id_to_mat_idx_map instance_id_to_slot_idx_map cameras a)).
Proof.
  intros Ha. unfold Prepare.populate.
  apply for_each_preserves; [|exact Ha].
  intros [cam_idx frames] a' Ha'.
  apply for_each_preserves; [|exact Ha'].
  intros frame_content a''. apply process_frame_only_initialized.
Qed.

(** C10. In the status tensor the preparation produces, whether it ran to
    the end or stopped on an exception, every entry is 0 (UNLABELED) or 1
    (INITIALIZED); 2 (LABELED) and 3 (INVISIBLE) never appear. *)
Theorem prepared_status_unlabeled_or_initialized
    (num_distinct_instances num_frames : nat) cameras idx :
  let a := fst (Prepare.prepare_arrays num_keypoints_per_instance num_distinct_instances
                  num_frames kpt_score_threshold frame_id_to_mat_idx_map
                  instance_id_to_slot_idx_map cameras) in
  (Prepare.status_at a idx = 0%N \/ Prepare.status_at a idx = 1%N) /\
  Prepare.status_at a idx <> 2%N /\
  Prepare.status_at a idx <> 3%N.
Proof.
  cbv zeta.
  assert (H : Spec.only_initialized
                (fst (Prepare.prepare_arrays num_keypoints_per_instance
                        num_distinct_instances num_frames kpt_score_threshold
                        frame_id_to_mat_idx_map instance_id_to_slot_idx_map cameras))).
  { unfold Prepare.prepare_arrays. apply populate_only_initialized.
    apply new_arrays_only_initialized. }
  unfold Prepare.status_at.
  destruct (Prepare.status_data _ !! idx) as [v|] eqn:E; cbn [default].
  - rewrite (H idx v E). repeat split; [right; reflexivity | discriminate | discriminate].
  - repeat split; [left; reflexivity | discriminate | discriminate].
Qed.

End StatusValues.

(** The sample results: the joint with both coordinates is INITIALIZED,
    the one with a [null] coordinate stays UNLABELED. *)
Example prepared_sample :
  snd Sample.prepared = Ok tt /\
  Prepare.status_at (fst Sample.prepared) (0, 0, 0)%nat = 1%N /\
  Prepare.status_at (fst Sample.prepared) (1, 0, 0)%nat = 0%N /\
  Prepare.cam_points_at (fst Sample.prepared) (0, 0, 0)%nat = (Sample.ten, Sample.twenty).
Proof. repeat split; vm_compute; reflexivity. Qed.

(* ===================================================================== *)
(** * Further properties of multical2label3d.py                            *)
(* ===================================================================== *)

Section PoseResolution.

Variable allclose_identity : list (list float) -> result bool.
Variable allclose_zero : list float -> result bool.

Local Abbreviation get_extrinsics :=
  (Multical.get_extrinsics allclose_identity allclose_zero).
Local Abbreviation get_extrinsics_json :=
  (Multical.get_extrinsics_json allclose_identity allclose_zero).

Lemma not_identity_or_not_zero_raises R_w_cam T_w_cam e :
  Multical.not_identity_or_not_zero allclose_identity allclose_zero R_w_cam T_w_cam
    = Raise e
  <-> allclose_identity R_w_cam = Raise e
      \/ (allclose_identity R_w_cam = Ok true /\ allclose_zero T_w_cam = Raise e).
Proof.
  unfold Multical.not_identity_or_not_zero.
  destruct (allclose_identity R_w_cam) as [[|]|e1]; cbn [rbind negb].
  - destruct (allclose_zero T_w_cam) as [b|e2]; cbn [rbind]; split.
    + intros H; discriminate H.
    + intros [H|[_ H]]; discriminate H.
    + intros [= ->]. right. split; reflexivity.
    + intros [H|[_ [= ->]]]; [discriminate H | reflexivity].
  - split; [intros H; discriminate H | intros [H|[H _]]; discriminate H].
  - split; [intros [= ->]; left; reflexivity | intros [[= ->]|[H _]]; [reflexivity | discriminate H]].
Qed.

(** X1. Pose resolution raises in exactly two situations. With
    [KeyError]: the camera is not the reference camera, no direct entry is
    taken for it (there is none, or for [get_extrinsics_json] its name
    contains ["_to_"]), and the relative key is absent. With the exception
    of [np.allclose]: the camera is the reference camera, the table has an
    entry under its name, and the comparison of the entry's rotation with
    the identity raises, or returns [True] and the comparison of the
    entry's translation with zero raises. *)
Theorem resolution_raises_iff pose_data cam_name ref_cam e :
  let comparison_raises :=
    cam_name = ref_cam /\
    exists p, pose_data !! ref_cam = Some p /\
      (allclose_identity (Multical.pose_R p) = Raise e \/
       (allclose_identity (Multical.pose_R p) = Ok true /\
        allclose_zero (Multical.pose_T p) = Raise e)) in
  (snd (get_extrinsics pose_data cam_name ref_cam) = Raise e <->
   (e = KeyError /\ cam_name <> ref_cam /\ pose_data !! cam_name = None /\
    pose_data !! (cam_name +:+ "_to_" +:+ ref_cam) = None)
   \/ comparison_raises) /\
  (snd (get_extrinsics_json pose_data cam_name ref_cam) = Raise e <->
   (e = KeyError /\ cam_name <> ref_cam /\
    (pose_data !! cam_name = None \/ contains "_to_" cam_name = true) /\
    pose_data !! (cam_name +:+ "_to_" +:+ ref_cam) = None)
   \/ comparison_raises).
Proof.
  cbv zeta. unfold Multical.get_extrinsics, Multical.get_extrinsics_json.
  destruct (decide (cam_name = ref_cam)) as [Heq|Hne].
  - destruct (pose_data !! ref_cam) as [p|] eqn:Hp.
    + pose proof (not_identity_or_not_zero_raises (Multical.pose_R p) (Multical.pose_T p) e)
        as Hraises.
      destruct (Multical.not_identity_or_not_zero _ _ _ _) as [warn|e'] eqn:Hcmp;
        cbn [snd]; split; split.
      * intros H; discriminate H.
      * intros [(_ & H & _)|(_ & q & [= <-] & Hq)]; [contradiction|].
        apply Hraises in Hq. discriminate Hq.
      * intros H; discriminate H.
      * intros [(_ & H & _)|(_ & q & [= <-] & Hq)]; [contradiction|].
        apply Hraises in Hq. discriminate Hq.
      * intros [= ->]. right. split; [exact Heq|]. exists p. split; [reflexivity|].
        apply Hraises. reflexivity.
      * intros [(_ & H & _)|(_ & q & [= <-] & Hq)]; [contradiction|].
        apply Hraises in Hq. injection Hq as ->. reflexivity.
      * intros [= ->]. right. split; [exact Heq|]. exists p. split; [reflexivity|].
        apply Hraises. reflexivity.
      * intros [(_ & H & _)|(_ & q & [= <-] & Hq)]; [contradiction|].
        apply Hraises in Hq. injection Hq as ->. reflexivity.
    + cbn [snd]. split; split;
        solve [ intros H; discriminate H
              | intros [(_ & H & _)|(_ & q & H & _)]; [contradiction | discriminate H] ].
  - destruct (pose_data !! cam_name) as [p|] eqn:Hd;
      destruct (contains "_to_" cam_name) eqn:Hc;
      destruct (pose_data !! (cam_name +:+ "_to_" +:+ ref_cam)) as [q|] eqn:Hr;
      cbn [snd negb]; split; split;
      try (intros H; discriminate H);
      try (intros [= <-]; left; repeat split; auto; fail);
      try (intros [(-> & _)|(H & _)]; [reflexivity | contradiction]);
      try (intros [(_ & _ & H & _)|(H & _)]; [discriminate H | contradiction]);
      try (intros [(_ & _ & _ & H)|(H & _)]; [discriminate H | contradiction]);
      try (intros [(_ & _ & [H|H] & _)|(H & _)]; [discriminate H | discriminate H | contradiction]).
Qed.

(** X3. A pose that is returned is never made up: it is the pose stored in
    the table under the camera's name or under its relative key, or, for a
    reference camera with no entry, the identity rotation and the zero
    translation together with the missing-reference warning of the
    function called. *)
Theorem resolved_pose_is_stored pose_data cam_name ref_cam w R_w_cam T_w_cam :
  let stored :=
    exists key p,
      (key = cam_name \/ key = cam_name +:+ "_to_" +:+ ref_cam) /\
      pose_data !! key = Some p /\
      R_w_cam = Multical.pose_R p /\ T_w_cam = Multical.pose_T p in
  let assumed :=
    cam_name = ref_cam /\ pose_data !! ref_cam = None /\
    R_w_cam = Multical.identity3 /\ T_w_cam = Multical.zero3 in
  (get_extrinsics pose_data cam_name ref_cam = (w, Ok (R_w_cam, T_w_cam)) ->
   stored \/ (assumed /\ w = [Multical.WarnRefMissing ref_cam])) /\
  (get_extrinsics_json pose_data cam_name ref_cam = (w, Ok (R_w_cam, T_w_cam)) ->
   stored \/ (assumed /\ w = [Multical.WarnRefMissingJson ref_cam])).
Proof.
  cbv zeta. unfold Multical.get_extrinsics, Multical.get_extrinsics_json.
  destruct (decide (cam_name = ref_cam)) as [->|Hne].
  - destruct (pose_data !! ref_cam) as [p|] eqn:Hp.
    + destruct (Multical.not_identity_or_not_zero _ _ _ _) as [warn|e'].
      * split; intros [= _ <- <-]; left; exists ref_cam, p; auto.
      * split; intros H; discriminate H.
    + split; intros [= <- <- <-]; right; auto.
  - destruct (pose_data !! cam_name) as [p|] eqn:Hd;
      destruct (contains "_to_" cam_name);
      destruct (pose_data !! (cam_name +:+ "_to_" +:+ ref_cam)) as [q|] eqn:Hr;
      cbn [negb];
      split; intros H; try discriminate H; injection H as _ <- <-; left;
      solve [ exists cam_name, p; auto
            | exists (cam_name +:+ "_to_" +:+ ref_cam), q; auto ].
Qed.

End PoseResolution.

(** X1 at the table with the relative key of [Cam_B] only: the pose of
    [Cam_C] is asked for. *)
Lemma resolution_raises_iff_witness :
  snd (Multical.get_extrinsics (Sample.always true) (Sample.always true)
         Sample.relative_only "Cam_C" "Cam_A") = Raise KeyError.
Proof.
  apply (proj1 (resolution_raises_iff (Sample.always true) (Sample.always true)
                  Sample.relative_only "Cam_C" "Cam_A" KeyError)).
  left. split; [reflexivity|]. split; [discriminate|]. split; reflexivity.
Defined.

(** A reference camera whose rotation is 2x2: the comparison with the 3x3
    identity raises, and so does the resolution. *)
Example resolution_raises_on_a_small_rotation :
  snd (Multical.get_extrinsics_json Sample.exactly_identity Sample.exactly_zero
         {[ "Cam_A"%string :=
              {| Multical.pose_R := [[Float.one; Float.zero]; [Float.zero; Float.one]];
                 Multical.pose_T := Multical.zero3 |} ]}
         "Cam_A" "Cam_A")
  = Raise ValueError.
Proof. vm_compute. reflexivity. Qed.

(** X3 at the table with both entries: the pose returned for [Cam_B] is
    one the table stores. *)
Lemma resolved_pose_is_stored_witness :
  exists key p,
    (key = "Cam_B"%string \/ key = ("Cam_B" +:+ "_to_" +:+ "Cam_A")%string) /\
    Sample.direct_and_relative !! key = Some p /\
    Sample.R_direct = Multical.pose_R p /\ Sample.T_direct = Multical.pose_T p.
Proof.
  destruct (proj1 (resolved_pose_is_stored (Sample.always true) (Sample.always true)
              Sample.direct_and_relative "Cam_B" "Cam_A"
              [Multical.WarnDirectPose "Cam_B"] Sample.R_direct Sample.T_direct))
    as [H|((H & _) & _)].
  - reflexivity.
  - exact H.
  - discriminate H.
Defined.

Section DistortionShape.

Lemma split_warnings_nil coeffs :
  Spec.split_warnings coeffs = [] <-> (4 <= length coeffs)%nat.
Proof.
  unfold Spec.split_warnings.
  destruct (decide (length coeffs < 2)%nat), (decide (length coeffs < 4)%nat);
    cbn; split; intros H; try discriminate H; try reflexivity; lia.
Qed.

Lemma split_distortion_take coeffs coeffs' :
  take 5 coeffs' = take 5 coeffs ->
  Spec.split_distortion coeffs' = Spec.split_distortion coeffs /\
  Spec.split_warnings coeffs' = Spec.split_warnings coeffs.
Proof.
  intros H.
  assert (Hlk : forall i, (i < 5)%nat -> coeffs' !! i = coeffs !! i).
  { intros i Hi. rewrite <- (lookup_take_lt coeffs' 5 i Hi),
      <- (lookup_take_lt coeffs 5 i Hi), H. reflexivity. }
  split.
  - unfold Spec.split_distortion, Spec.coeff_or_zero. cbn [fmap list_fmap].
    rewrite !Hlk by lia. reflexivity.
  - apply (f_equal length) in H. rewrite !length_take in H.
    unfold Spec.split_warnings.
    repeat case_decide; try lia; try reflexivity.
    replace (length coeffs') with (length coeffs) by lia. reflexivity.
Qed.

(** X4. Whenever [extract_distortion] accepts its input, the radial group
    has exactly three values and the tangential group exactly two; no
    warning at all is issued exactly when at least four coefficients are
    given (a missing k3 is then padded silently); and only the first five
    coefficients matter: two accepted inputs that agree on them give the
    same groups and the same warnings. *)
Theorem extract_distortion_shape dist_coeffs coeffs :
  Multical.coeffs_of dist_coeffs = Ok coeffs ->
  exists w radial tangential,
    Multical.extract_distortion dist_coeffs = (w, Ok (radial, tangential)) /\
    length radial = 3%nat /\ length tangential = 2%nat /\
    (w = [] <-> (4 <= length coeffs)%nat) /\
    (forall dist_coeffs' coeffs',
       Multical.coeffs_of dist_coeffs' = Ok coeffs' ->
       take 5 coeffs' = take 5 coeffs ->
       Multical.extract_distortion dist_coeffs'
       = Multical.extract_distortion dist_coeffs).
Proof.
  intros H. rewrite (extract_distortion_of_coeffs _ _ H).
  eexists _, _, _. split; [reflexivity|].
  split; [reflexivity|]. split; [reflexivity|].
  split; [apply split_warnings_nil|].
  intros d' c' H' Htake. rewrite (extract_distortion_of_coeffs _ _ H').
  destruct (split_distortion_take coeffs c' Htake) as [-> ->]. reflexivity.
Qed.

End DistortionShape.

(** X4 at the four coefficients (0.5, 0.25, 2, 10) in a one-row list. *)
Lemma extract_distortion_shape_witness :
  exists w radial tangential,
    Multical.extract_distortion
      (Multical.DistList
         [Multical.PyList [Sample.half; Sample.quarter; Sample.two; Sample.ten]])
    = (w, Ok (radial, tangential)) /\
    length radial = 3%nat /\ length tangential = 2%nat /\ w = [].
Proof.
  destruct (extract_distortion_shape
              (Multical.DistList
                 [Multical.PyList [Sample.half; Sample.quarter; Sample.two; Sample.ten]])
              [Sample.half; Sample.quarter; Sample.two; Sample.ten] eq_refl)
    as (w & r & t & Hrun & Hr & Ht & Hw & _).
  exists w, r, t. split; [exact Hrun|]. split; [exact Hr|]. split; [exact Ht|].
  apply Hw. cbn. lia.
Defined.

Section CameraRecord.

Lemma getitem2_ok (rows : list (list float)) i j :
  (exists x, getitem2 rows i j = Ok x) <->
  exists row, rows !! i = Some row /\ (j < length row)%nat.
Proof.
  unfold getitem2. split.
  - intros [x H]. destruct (rows !! i) as [row|]; [|discriminate H].
    exists row. split; [reflexivity|].
    destruct (row !! j) eqn:E; [|discriminate H].
    apply lookup_lt_Some in E. exact E.
  - intros (row & -> & Hj).
    destruct (lookup_lt_is_Some_2 row j Hj) as [x ->]. eauto.
Qed.

Lemma getitem2_raises (rows : list (list float)) i j e :
  getitem2 rows i j = Raise e -> e = IndexError.
Proof.
  unfold getitem2. destruct (rows !! i) as [row|]; [destruct (row !! j)|];
    intros [=]; auto.
Qed.

(** Once [np.asarray] has accepted the intrinsic matrix and the rotation,
    the translation is reshaped, then the intrinsic matrix is indexed. *)
Lemma camera_mat_dict_of_arrays K_original RDistort TDistort R_w_cam T_w_cam img_size :
  rectangular K_original = true -> rectangular R_w_cam = true ->
  let K_large_enough :=
    exists row0 row1,
      K_original !! 0%nat = Some row0 /\ K_original !! 1%nat = Some row1 /\
      (3 <= length row0)%nat /\ (3 <= length row1)%nat in
  let run :=
    Multical.camera_mat_dict K_original RDistort TDistort R_w_cam T_w_cam img_size in
  (length (flatten T_w_cam) <> 3%nat -> run = Raise ValueError) /\
  (length (flatten T_w_cam) = 3%nat -> ~ K_large_enough -> run = Raise IndexError) /\
  ((exists m, run = Ok m) <-> length (flatten T_w_cam) = 3%nat /\ K_large_enough).
Proof.
  intros HK HR. cbv zeta. unfold Multical.camera_mat_dict, asarray2, reshape_3_1.
  rewrite HK, HR. cbn [rbind].
  destruct (flatten T_w_cam) as [|t0 [|t1 [|t2 [|t3 rest]]]] eqn:HT; cbn [rbind length].
  1-3, 5: (split; [reflexivity|]; split; [intros H; discriminate H|];
           split; [intros [m H]; discriminate H | intros [H _]; discriminate H]).
  split; [intros H; contradiction|].
  assert (Hiff : (exists row0 row1,
                    K_original !! 0%nat = Some row0 /\ K_original !! 1%nat = Some row1 /\
                    (3 <= length row0)%nat /\ (3 <= length row1)%nat)
                 <-> exists fx fy cx cy,
                       getitem2 K_original 0 0 = Ok fx /\ getitem2 K_original 1 1 = Ok fy /\
                       getitem2 K_original 0 2 = Ok cx /\ getitem2 K_original 1 2 = Ok cy).
  { split.
    - intros (row0 & row1 & H0 & H1 & L0 & L1).
      destruct (proj2 (getitem2_ok K_original 0 0)) as [fx Hfx]; [exists row0; split; [auto|lia]|].
      destruct (proj2 (getitem2_ok K_original 1 1)) as [fy Hfy]; [exists row1; split; [auto|lia]|].
      destruct (proj2 (getitem2_ok K_original 0 2)) as [cx Hcx]; [exists row0; split; [auto|lia]|].
      destruct (proj2 (getitem2_ok K_original 1 2)) as [cy Hcy]; [exists row1; split; [auto|lia]|].
      eauto 10.
    - intros (fx & fy & cx & cy & Hfx & Hfy & Hcx & Hcy).
      destruct (proj1 (getitem2_ok K_original 0 2) (ex_intro _ cx Hcx)) as (row0 & H0 & L0).
      destruct (proj1 (getitem2_ok K_original 1 2) (ex_intro _ cy Hcy)) as (row1 & H1 & L1).
      exists row0, row1. repeat split; auto; lia. }
  rewrite Hiff.
  destruct (getitem2 K_original 0 0) as [fx|e0] eqn:E0; cbn [rbind].
  2: { apply getitem2_raises in E0 as ->. split.
       - intros _ _. reflexivity.
       - split; [intros [m H]; discriminate H|].
         intros (_ & fx & fy & cx & cy & H & _). discriminate H. }
  destruct (getitem2 K_original 1 1) as [fy|e1] eqn:E1; cbn [rbind].
  2: { apply getitem2_raises in E1 as ->. split.
       - intros _ _. reflexivity.
       - split; [intros [m H]; discriminate H|].
         intros (_ & fx' & fy & cx & cy & _ & H & _). discriminate H. }
  destruct (getitem2 K_original 0 2) as [cx|e2] eqn:E2; cbn [rbind].
  2: { apply getitem2_raises in E2 as ->. split.
       - intros _ _. reflexivity.
       - split; [intros [m H]; discriminate H|].
         intros (_ & fx' & fy' & cx & cy & _ & _ & H & _). discriminate H. }
  destruct (getitem2 K_original 1 2) as [cy|e3] eqn:E3; cbn [rbind].
  2: { apply getitem2_raises in E3 as ->. split.
       - intros _ _. reflexivity.
       - split; [intros [m H]; discriminate H|].
         intros (_ & fx' & fy' & cx' & cy & _ & _ & _ & H). discriminate H. }
  split.
  - intros _ Hn. exfalso. apply Hn. eauto 10.
  - split; [intros _; split; [reflexivity | eauto 10] | intros _; eauto].
Qed.


(** X5. The record of a camera is built exactly when [np.asarray] accepts
    the intrinsic matrix and the rotation (each has rows of one length),
    the translation has three elements in all (whatever its shape) and the
    intrinsic matrix has its first two rows with three columns at least.
    Rows of unequal lengths raise [ValueError]; then a translation of any
    other size raises [ValueError], before the intrinsic matrix is looked
    at; then a matrix that is too small raises [IndexError]. *)
Theorem camera_mat_dict_result K_original RDistort TDistort R_w_cam T_w_cam img_size :
  let arrays := rectangular K_original = true /\ rectangular R_w_cam = true in
  let K_large_enough :=
    exists row0 row1,
      K_original !! 0%nat = Some row0 /\ K_original !! 1%nat = Some row1 /\
      (3 <= length row0)%nat /\ (3 <= length row1)%nat in
  let run :=
    Multical.camera_mat_dict K_original RDistort TDistort R_w_cam T_w_cam img_size in
  (~ arrays -> run = Raise ValueError) /\
  (arrays -> length (flatten T_w_cam) <> 3%nat -> run = Raise ValueError) /\
  (arrays -> length (flatten T_w_cam) = 3%nat -> ~ K_large_enough ->
   run = Raise IndexError) /\
  ((exists m, run = Ok m) <-> arrays /\ length (flatten T_w_cam) = 3%nat /\ K_large_enough).
Proof.
  cbv zeta.
  destruct (rectangular K_original) eqn:HK; [destruct (rectangular R_w_cam) eqn:HR|].
  - destruct (camera_mat_dict_of_arrays K_original RDistort TDistort R_w_cam T_w_cam
                img_size HK HR) as (H1 & H2 & H3).
    split; [intros Hn; exfalso; apply Hn; split; reflexivity|].
    split; [intros _; exact H1|]. split; [intros _; exact H2|].
    rewrite H3. split; [intros H; split; [split; reflexivity | exact H] | intros [_ H]; exact H].
  - assert (Hrun : Multical.camera_mat_dict K_original RDistort TDistort R_w_cam T_w_cam
                     img_size = Raise ValueError).
    { unfold Multical.camera_mat_dict, asarray2. rewrite HK, HR. reflexivity. }
    rewrite Hrun. split; [reflexivity|].
    split; [intros [_ H]; discriminate H|]. split; [intros [_ H]; discriminate H|].
    split; [intros [m H]; discriminate H | intros [[_ H] _]; discriminate H].
  - assert (Hrun : Multical.camera_mat_dict K_original RDistort TDistort R_w_cam T_w_cam
                     img_size = Raise ValueError).
    { unfold Multical.camera_mat_dict, asarray2. rewrite HK. reflexivity. }
    rewrite Hrun. split; [reflexivity|].
    split; [intros [H _]; discriminate H|]. split; [intros [H _]; discriminate H|].
    split; [intros [m H]; discriminate H | intros [[H _] _]; discriminate H].
Qed.

End CameraRecord.

(** X5 at the standard-layout matrix of the samples with a translation of
    two elements, and with a ragged intrinsic matrix. *)
Lemma camera_mat_dict_result_witness :
  Multical.camera_mat_dict Sample.K_standard [] [] Sample.R_direct
    (Arr1 [Sample.half; Float.zero]) [640; 480]%Z = Raise ValueError /\
  Multical.camera_mat_dict [[Sample.five_hundred; Float.zero]; [Float.zero]] [] []
    Sample.R_direct (Arr1 Sample.T_direct) [640; 480]%Z = Raise ValueError.
Proof.
  split.
  - apply (proj1 (proj2 (camera_mat_dict_result Sample.K_standard [] [] Sample.R_direct
                           (Arr1 [Sample.half; Float.zero]) [640; 480]%Z))).
    + split; reflexivity.
    + cbn. lia.
  - apply (proj1 (camera_mat_dict_result [[Sample.five_hundred; Float.zero]; [Float.zero]]
                    [] [] Sample.R_direct (Arr1 Sample.T_direct) [640; 480]%Z)).
    intros [H _]. discriminate H.
Defined.

Section TransposeRoundTrip.

Lemma column_length (rows : list (list float)) (n j : nat) :
  Forall (fun row => length row = n) rows ->
  (j < n)%nat ->
  length (omap (fun row : list float => row !! j) rows) = length rows.
Proof.
  intros Hrect Hj. induction Hrect as [|row l Hrow _ IH]; [reflexivity|].
  destruct (lookup_lt_is_Some_2 row j) as [x Hx]; [lia|].
  cbn [omap list_omap]. rewrite Hx. cbn [length]. f_equal. exact IH.
Qed.

Lemma transpose_shape (rows : list (list float)) (n : nat) :
  rows <> [] ->
  Forall (fun row => length row = n) rows ->
  length (transpose rows) = n /\
  Forall (fun col => length col = length rows) (transpose rows).
Proof.
  intros Hne Hrect. destruct rows as [|r0 rows']; [contradiction|].
  assert (Hn : length r0 = n) by (inversion Hrect; assumption).
  unfold transpose. split; [rewrite length_fmap, length_seq; exact Hn|].
  rewrite Forall_fmap. apply Forall_forall. intros j Hj.
  apply elem_of_seq in Hj. cbn [compose].
  apply (column_length (r0 :: rows') n j Hrect). lia.
Qed.

Lemma matrix_eq (A B : list (list float)) (n : nat) :
  length A = length B ->
  Forall (fun row => length row = n) A ->
  Forall (fun row => length row = n) B ->
  (forall i j, (i < length A)%nat -> (j < n)%nat ->
     A !! i ≫= (.!! j) = B !! i ≫= (.!! j)) ->
  A = B.
Proof.
  intros Hlen HA HB Hent. apply list_eq. intros i.
  destruct (decide (i < length A)%nat) as [Hi|Hi].
  - destruct (lookup_lt_is_Some_2 A i Hi) as [a Ha].
    destruct (lookup_lt_is_Some_2 B i) as [b Hb]; [lia|].
    rewrite Ha, Hb. f_equal.
    assert (La : length a = n).
    { rewrite Forall_forall in HA. apply HA. apply list_elem_of_lookup. eauto. }
    assert (Lb : length b = n).
    { rewrite Forall_forall in HB. apply HB. apply list_elem_of_lookup. eauto. }
    apply list_eq. intros j.
    destruct (decide (j < n)%nat) as [Hj|Hj].
    + specialize (Hent i j Hi Hj). rewrite Ha, Hb in Hent. exact Hent.
    + rewrite !lookup_ge_None_2 by lia. reflexivity.
  - rewrite !lookup_ge_None_2 by lia. reflexivity.
Qed.

(** Transposing twice gives the array back, for a rectangular array with
    at least one column. *)
Lemma transpose_involutive (rows : list (list float)) (n : nat) :
  (0 < n)%nat ->
  Forall (fun row => length row = n) rows ->
  transpose (transpose rows) = rows.
Proof.
  intros Hn Hrect. destruct (decide (rows = [])) as [->|Hne]; [reflexivity|].
  destruct (transpose_shape rows n Hne Hrect) as [Hlen Hcols].
  assert (Hne' : transpose rows <> []).
  { intros E. rewrite E in Hlen. cbn in Hlen. lia. }
  destruct (transpose_shape (transpose rows) (length rows) Hne' Hcols) as [Hlen2 Hrows2].
  rewrite Hlen in Hrows2.
  apply (matrix_eq _ _ n); [exact Hlen2 | exact Hrows2 | exact Hrect|].
  intros i j Hi Hj. rewrite Hlen2 in Hi.
  rewrite (transpose_lookup (transpose rows) (length rows) j i Hcols) by lia.
  apply (transpose_lookup rows n i j Hrect Hi Hj).
Qed.

(** X6. The input rotation can be read back from the exported record: for
    a rectangular rotation array with at least one column, every entry
    (i, j) of the input is entry (j, i) of the record's [r], and transposing
    [r] gives the input again. *)
Theorem exported_rotation_round_trip
    K_original RDistort TDistort R_w_cam T_w_cam img_size (n : nat) m :
  (0 < n)%nat ->
  Forall (fun row => length row = n) R_w_cam ->
  Multical.camera_mat_dict K_original RDistort TDistort R_w_cam T_w_cam img_size = Ok m ->
  transpose (Multical.mat_r m) = R_w_cam /\
  (forall i j, (i < length R_w_cam)%nat -> (j < n)%nat ->
     Multical.mat_r m !! j ≫= (.!! i) = R_w_cam !! i ≫= (.!! j)).
Proof.
  intros Hn Hrect Hrun.
  assert (Hr : Multical.mat_r m = transpose R_w_cam).
  { unfold Multical.camera_mat_dict, asarray2 in Hrun.
    destruct (rectangular K_original); [|discriminate Hrun]. cbn [rbind] in Hrun.
    destruct (rectangular R_w_cam); [|discriminate Hrun]. cbn [rbind] in Hrun.
    destruct (reshape_3_1 T_w_cam); [|discriminate Hrun]. cbn [rbind] in Hrun.
    destruct (getitem2 K_original 0 0); [|discriminate Hrun]. cbn [rbind] in Hrun.
    destruct (getitem2 K_original 1 1); [|discriminate Hrun]. cbn [rbind] in Hrun.
    destruct (getitem2 K_original 0 2); [|discriminate Hrun]. cbn [rbind] in Hrun.
    destruct (getitem2 K_original 1 2); [|discriminate Hrun]. cbn [rbind] in Hrun.
    injection Hrun as <-. reflexivity. }
  rewrite Hr. split; [apply (transpose_involutive _ n Hn Hrect)|].
  intros i j Hi Hj. apply (transpose_lookup R_w_cam n i j Hrect Hi Hj).
Qed.

End TransposeRoundTrip.

(** X6 at the quarter turn of the samples. *)
Lemma exported_rotation_round_trip_witness :
  exists m,
    Multical.camera_mat_dict Sample.K_standard [] [] Sample.R_direct
      (Arr1 Sample.T_direct) [640; 480]%Z = Ok m /\
    transpose (Multical.mat_r m) = Sample.R_direct.
Proof.
  eexists. split; [reflexivity|].
  refine (proj1 (exported_rotation_round_trip Sample.K_standard [] [] Sample.R_direct
                   (Arr1 Sample.T_direct) [640; 480]%Z 3 _ _ _ eq_refl)).
  - lia.
  - repeat constructor.
Defined.

(* ===================================================================== *)
(** * Further properties of l3d2coco.py                                    *)
(* ===================================================================== *)

Section LoopsAgain.

Context {S A : Type}.

(** As [for_each_preserves], for a body that keeps the property on the
    elements of the list. *)
Lemma for_each_preserves_in (P : S -> Prop) (l : list A) (body : A -> SE S unit) :
  (forall x s, In x l -> P s -> P (fst (body x s))) ->
  forall s, P s -> P (fst (for_each l body s)).
Proof.
  induction l as [|x l IH]; intros Hbody s Hs; [exact Hs|].
  cbn [for_each]. unfold bind.
  pose proof (Hbody x s (or_introl eq_refl) Hs) as Hx.
  destruct (body x s) as [s' [u|e]]; cbn [fst] in *; [|exact Hx].
  apply IH; [|exact Hx]. intros y s0 Hy. apply Hbody. right. exact Hy.
Qed.

(** The result of a loop is [Ok] or the exception of one iteration: what
    holds of [Ok] and of the result of every iteration holds of the result
    of the loop. *)
Lemma for_each_result (P : S -> Prop) (R : result unit -> Prop) (l : list A)
    (body : A -> SE S unit) :
  R (Ok tt) ->
  (forall x s, In x l -> P s -> R (snd (body x s)) /\ P (fst (body x s))) ->
  forall s, P s -> R (snd (for_each l body s)) /\ P (fst (for_each l body s)).
Proof.
  intros Hok. induction l as [|x l IH]; intros Hbody s Hs; [split; [exact Hok | exact Hs]|].
  cbn [for_each]. unfold bind.
  destruct (Hbody x s (or_introl eq_refl) Hs) as [HR HP].
  destruct (body x s) as [s' [[]|e]]; cbn [fst snd] in *; [|split; assumption].
  apply IH; [|exact HP]. intros y s0 Hy. apply Hbody. right. exact Hy.
Qed.

(** In a loop that did not raise, what the iteration of [x] establishes
    when it does not raise, and no iteration undoes, holds at the end. *)
Lemma for_each_reaches (Q : S -> Prop) (l : list A) (body : A -> SE S unit) (x : A) :
  In x l ->
  (forall s, snd (body x s) = Ok tt -> Q (fst (body x s))) ->
  (forall y s, Q s -> Q (fst (body y s))) ->
  forall s, snd (for_each l body s) = Ok tt -> Q (fst (for_each l body s)).
Proof.
  intros Hin Hx Hstable. induction l as [|y l IH]; intros s; [destruct Hin|].
  change (for_each (y :: l) body s)
    with (match body y s with
          | (s', Ok _) => for_each l body s'
          | (s', Raise e) => (s', Raise e)
          end).
  destruct Hin as [->|Hin].
  - specialize (Hx s).
    destruct (body x s) as [s' [[]|e]]; cbn [fst snd] in *; [|intros H; discriminate H].
    intros _. apply for_each_preserves; [exact Hstable | apply Hx; reflexivity].
  - destruct (body y s) as [s' [[]|e]]; cbn [fst snd] in *; [|intros H; discriminate H].
    apply IH. exact Hin.
Qed.

End LoopsAgain.

Section EdgeConfigurations.

Local Open Scope Z_scope.

(** X8. An animal count of 0 in a file that has markers is read as one
    animal owning every marker: the conversion does exactly what it does
    when the file says 1. *)
Theorem zero_animals_is_one_animal d sk :
  L3d.nAnimalsInSession d = Some 0 ->
  Z.of_nat (L3d.cp_markers (L3d.camPoints d)) > 0 ->
  L3d.l3d_to_coco d sk = L3d.l3d_to_coco (Spec.with_n_animals (Some 1) d) sk.
Proof.
  intros Hn Hm. unfold L3d.l3d_to_coco, L3d.read_n_animals.
  rewrite Hn. cbn [Spec.with_n_animals L3d.nAnimalsInSession L3d.camPoints rbind].
  assert (H0 : L3d.keypoints_config (Z.of_nat (L3d.cp_markers (L3d.camPoints d))) 0
                 (Z.of_nat (length (L3d.joint_names sk)))
               = Ok (1, Z.of_nat (L3d.cp_markers (L3d.camPoints d)))).
  { unfold L3d.keypoints_config. repeat case_decide; try lia; reflexivity. }
  assert (H1 : L3d.keypoints_config (Z.of_nat (L3d.cp_markers (L3d.camPoints d))) 1
                 (Z.of_nat (length (L3d.joint_names sk)))
               = Ok (1, Z.of_nat (L3d.cp_markers (L3d.camPoints d)))).
  { unfold L3d.keypoints_config. rewrite Z.mod_1_r, Z.div_1_r.
    repeat case_decide; try lia; reflexivity. }
  rewrite H0, H1. reflexivity.
Qed.

(** X9. The list of camera names always has one name per camera of the
    keypoint tensor, so the ["Cam_{idx+1}"] fallback of the loop is never
    taken: camera [j] is written under the name saved for it when the file
    saves exactly one name per camera, and under ["Cam_default_{j+1}"]
    otherwise. *)
Theorem camera_names_cover_cameras d (j : Z) :
  0 <= j < Z.of_nat (L3d.cp_cams (L3d.camPoints d)) ->
  length (L3d.camera_names d) = L3d.cp_cams (L3d.camPoints d) /\
  L3d.camera_names d !! Z.to_nat j = Some (Spec.camera_name d j) /\
  (length (L3d.cameraNamesToSave d) = L3d.cp_cams (L3d.camPoints d) ->
   L3d.cameraNamesToSave d !! Z.to_nat j = Some (Spec.camera_name d j)) /\
  (length (L3d.cameraNamesToSave d) <> L3d.cp_cams (L3d.camPoints d) ->
   Spec.camera_name d j = "Cam_default_" +:+ pretty (j + 1)).
Proof.
  intros Hj.
  assert (Hdef : forall k : nat,
            (k < L3d.cp_cams (L3d.camPoints d))%nat ->
            ((fun i => "Cam_default_" +:+ pretty (i + 1))
               <$> py_range (Z.of_nat (L3d.cp_cams (L3d.camPoints d)))) !! k
            = Some ("Cam_default_" +:+ pretty (Z.of_nat k + 1))).
  { intros k Hk. unfold py_range. rewrite !list_lookup_fmap, Nat2Z.id.
    rewrite lookup_seq_lt by exact Hk. reflexivity. }
  assert (Hlen : length (L3d.camera_names d) = L3d.cp_cams (L3d.camPoints d)).
  { unfold L3d.camera_names. destruct (decide _) as [_|Hn].
    - unfold py_range. rewrite !length_fmap, length_seq. lia.
    - destruct (decide (length (L3d.cameraNamesToSave d)
                        = L3d.cp_cams (L3d.camPoints d))); [assumption|].
      exfalso. apply Hn. right. assumption. }
  split; [exact Hlen|].
  destruct (lookup_lt_is_Some_2 (L3d.camera_names d) (Z.to_nat j)) as [name Hname];
    [lia|].
  assert (Hcn : Spec.camera_name d j = name)
    by (unfold Spec.camera_name; rewrite Hname; reflexivity).
  rewrite Hcn. split; [exact Hname|]. split.
  - intros Hsaved. unfold L3d.camera_names in Hname.
    destruct (decide _) as [[Hnil|Hne]|_]; [| contradiction | exact Hname].
    rewrite Hnil in *. cbn in Hsaved. lia.
  - intros Hsaved. unfold L3d.camera_names in Hname.
    destruct (decide _) as [_|Hn]; [|exfalso; apply Hn; right; exact Hsaved].
    rewrite (Hdef (Z.to_nat j)) in Hname by lia.
    injection Hname as <-. rewrite Z2Nat.id by lia. reflexivity.
Qed.

End EdgeConfigurations.

Lemma scenario_well_formed : Spec.well_formed Sample.scenario.
Proof.
  unfold Spec.well_formed. cbn.
  repeat split; try lia; repeat case_decide; reflexivity.
Qed.

(** X9 at the only camera of the sample file. *)
Lemma camera_names_cover_cameras_witness :
  length (L3d.camera_names Sample.scenario) = 1%nat /\
  Spec.camera_name Sample.scenario 0 = "Cam_A"%string.
Proof.
  destruct (camera_names_cover_cameras Sample.scenario 0) as (Hlen & _ & _ & _);
    [cbn; lia|].
  split; [exact Hlen | reflexivity].
Defined.

(** X8 at the sample file with an animal count of 0. *)
Lemma zero_animals_is_one_animal_witness :
  L3d.l3d_to_coco (Spec.with_n_animals (Some 0%Z) Sample.scenario) Sample.skeleton3
  = L3d.l3d_to_coco
      (Spec.with_n_animals (Some 1%Z) (Spec.with_n_animals (Some 0%Z) Sample.scenario))
      Sample.skeleton3.
Proof.
  apply (zero_animals_is_one_animal (Spec.with_n_animals (Some 0%Z) Sample.scenario)
           Sample.skeleton3); [reflexivity | cbn; lia].
Defined.

Lemma session_well_formed : Spec.well_formed Sample.session.
Proof.
  unfold Spec.well_formed. cbn.
  repeat split; try lia; repeat case_decide; reflexivity.
Qed.

Lemma session_exact_image_sizes : Spec.exact_image_sizes Sample.session.
Proof. repeat constructor; exact exact_sizes_100. Qed.

(** X20 at the sample session: two cameras, two frames, one animal of
    three markers, written under the directory "out". *)
Lemma l3d_to_coco_completes_witness :
  Spec.loaded_as_stored Sample.session /\
  Spec.well_formed Sample.session /\
  Spec.exact_image_sizes Sample.session /\
  exists out,
    L3d.written_file Sample.session Sample.skeleton3 "out" true = Some out /\
    length (L3d.images out) = 4%nat.
Proof.
  assert (Hloaded : Spec.loaded_as_stored Sample.session)
    by (unfold Spec.loaded_as_stored; cbn; lia).
  split; [exact Hloaded|]. split; [exact session_well_formed|].
  split; [exact session_exact_image_sizes|].
  destruct (l3d_to_coco_completes Sample.session Sample.skeleton3 1%Z "out"
              Hloaded session_well_formed session_exact_image_sizes)
    as (_ & out & Hfile & Hlen);
    [reflexivity | lia | reflexivity | discriminate |].
  exists out. split; [exact Hfile|]. cbn in Hlen. lia.
Defined.

Section OutputShapeProofs.

Local Open Scope Z_scope.

Lemma triplets_flat ts : Spec.triplets (Spec.flat_triplets ts) = ts.
Proof.
  unfold Spec.flat_triplets. induction ts as [|[[x y] v] ts IH]; [reflexivity|].
  cbn [fmap list_fmap concat app Spec.triplets fst snd]. f_equal. exact IH.
Qed.

Lemma flat_triplets_length ts :
  Z.of_nat (length (Spec.flat_triplets ts)) = 3 * Z.of_nat (length ts).
Proof.
  unfold Spec.flat_triplets. induction ts as [|t ts IH]; [reflexivity|].
  cbn [fmap list_fmap concat app length]. lia.
Qed.

Lemma count_labeled_le ts : Spec.count_labeled ts <= Z.of_nat (length ts).
Proof.
  unfold Spec.count_labeled. pose proof (length_filter (fun t : Z * Z * Z => 0 < t.2) ts).
  lia.
Qed.

(** One instance, whatever the input: the state is left as it was, or with
    the annotation counter incremented by a run that raised, or with a
    record of its decoded triplets appended; in an image of at most 2^53
    pixels that record is the one of the specification. *)
Lemma process_instance_emits d kpa nbk frame cam image_id w h animal (s : L3d.state) :
  let run := L3d.process_instance d kpa nbk frame cam image_id w h animal s in
  run = (s, Ok tt)
  \/ (exists e, run = (s, Raise e))
  \/ (exists e, run = (L3d.incr_annotation_id s, Raise e))
  \/ (exists inst ts a,
        Forall2 (fun i t => L3d.decode_kpt inst kpa w h i = Ok t) (py_range nbk) ts /\
        Spec.count_labeled ts <> 0 /\
        L3d.ann_image_id a = image_id /\
        L3d.ann_category_id a = 1 /\
        L3d.ann_iscrowd a = 0 /\
        L3d.ann_num_keypoints a = Spec.count_labeled ts /\
        L3d.ann_keypoints a = Spec.flat_triplets ts /\
        (Spec.exact_sizes w h ->
         a = Spec.annotation_of (L3d.annotation_id_counter s + 1) image_id ts w h) /\
        run = (L3d.add_annotation a (L3d.incr_annotation_id s), Ok tt)).
Proof.
  cbv zeta. unfold L3d.process_instance.
  destruct (decide (_ > _)); [left; reflexivity|].
  destruct (decide (~ _)); [left; reflexivity|].
  unfold bind, lift, modify, get.
  destruct (L3d.take_slices _ _ _ _ _) as [inst|e]; [|right; left; eauto].
  destruct (L3d.decode_loop _ _ _ _ _ _) as [acc|e] eqn:Hloop; [|right; left; eauto].
  destruct (decode_loop_inv _ _ _ _ _ _ _ Hloop) as (ts & Hts & ->).
  destruct (foldl_push_fields ts L3d.kp_acc_init) as (Hf & Hn & Hx & Hy).
  cbn [L3d.kp_acc_init L3d.coco_keypoints_flat L3d.num_labeled_kps_for_instance
       L3d.visible_xs L3d.visible_ys app] in Hf, Hn, Hx, Hy.
  rewrite Hn, Hx, Hy, Hf, Z.add_0_l.
  destruct (decide (Spec.count_labeled ts = 0)) as [Hz|Hnz].
  - rewrite (fully_visible_labeled ts Hz).
    destruct (decide _) as [_|Hn']; [left; reflexivity | exfalso; apply Hn'; auto].
  - destruct (decide _) as [[_ Hz]|_]; [contradiction|].
    destruct (L3d.bbox_float _ _ _ _) as [b|e] eqn:Hb; [|right; right; left; eauto].
    destruct (rmap Float.py_round b) as [bbox_coco|e] eqn:Hround;
      [|right; right; left; eauto].
    destruct (Float.of_int _) as [area|e] eqn:Harea; [|right; right; left; eauto].
    right; right; right. exists inst, ts. eexists.
    split; [exact Hts|]. split; [exact Hnz|].
    split; [|split; [|split; [|split; [|split; [|split; [|reflexivity]]]]]];
      try reflexivity.
    intros Hexact.
    destruct (box_computation inst kpa w h (py_range nbk) ts Hts Hexact)
      as (Hbox & Hround' & Harea').
    rewrite Hbox in Hb. injection Hb as <-.
    rewrite Hround' in Hround. injection Hround as <-.
    rewrite Harea' in Harea. injection Harea as <-.
    reflexivity.
Qed.

(** A record with the keypoints of decoded triplets is well shaped. *)
Lemma decoded_annotation_shape inst kpa nbk w h ts a :
  0 <= nbk ->
  Forall2 (fun i t => L3d.decode_kpt inst kpa w h i = Ok t) (py_range nbk) ts ->
  Spec.count_labeled ts <> 0 ->
  L3d.ann_category_id a = 1 ->
  L3d.ann_iscrowd a = 0 ->
  L3d.ann_num_keypoints a = Spec.count_labeled ts ->
  L3d.ann_keypoints a = Spec.flat_triplets ts ->
  Spec.annotation_shape nbk a.
Proof.
  intros Hnbk Hts Hcount Hcat Hcrowd Hnum Hkps.
  assert (Hlen : Z.of_nat (length ts) = nbk).
  { rewrite <- (Forall2_length _ _ _ Hts). apply py_range_length. exact Hnbk. }
  assert (Hall : Forall (fun t : Z * Z * Z => t.2 = 0 \/ t.2 = 1 \/ t.2 = 2) ts).
  { clear - Hts. induction Hts as [|i t l ts Ht _ IH]; constructor; [|exact IH].
    exact (proj1 (decode_kpt_triplet _ _ _ _ _ _ Ht)). }
  unfold Spec.annotation_shape. rewrite Hkps, Hnum, Hcat, Hcrowd, triplets_flat.
  split; [reflexivity|]. split; [exact Hlen|].
  split; [rewrite flat_triplets_length; lia|].
  split; [exact Hall|].
  split; [reflexivity|].
  pose proof (count_labeled_nonneg ts). pose proof (count_labeled_le ts).
  repeat split; lia.
Qed.

(** The box of the record of decoded triplets fits an image of the size
    the triplets were decoded against, when it has at most 2^53 pixels. *)
Lemma annotation_of_fits inst kpa nbk w h id image_id ts im :
  Forall2 (fun i t => L3d.decode_kpt inst kpa w h i = Ok t) (py_range nbk) ts ->
  Spec.count_labeled ts <> 0 ->
  L3d.img_width im = w -> L3d.img_height im = h ->
  Spec.exact_sizes w h ->
  Spec.box_in_image (Spec.annotation_of id image_id ts w h) im.
Proof.
  intros Hts Hcount Hw Hh Hexact.
  assert (Hall : Forall (fun t : Z * Z * Z =>
                   (t.2 = 0 \/ t.2 = 1 \/ t.2 = 2) /\
                   (0 < t.2 -> 0 <= t.1.1 < w /\ 0 <= t.1.2 < h)) ts).
  { clear - Hts. induction Hts as [|i t l ts Ht _ IH]; constructor; [|exact IH].
    exact (decode_kpt_triplet _ _ _ _ _ _ Ht). }
  assert (Hpos : exists t, t ∈ ts /\ 0 < t.2).
  { pose proof (count_labeled_nonneg ts) as Hnn.
    assert (Hp : 0 < Spec.count_labeled ts) by lia.
    apply count_labeled_positive, Exists_exists in Hp. exact Hp. }
  destruct Hpos as (t0 & Ht0 & Hv0).
  rewrite Forall_forall in Hall.
  destruct (Hall t0 Ht0) as [_ Hin0]. specialize (Hin0 Hv0).
  pose proof (fully_visible_in_image _ _ _ _ _ _ Hts) as Hvis.
  destruct (bbox_entries ts w h Hvis Hexact)
    as (x & y & bw & bh & Hbox & _ & _ & _ & _ & Harea).
  unfold Spec.box_in_image, Spec.annotation_of.
  cbn [L3d.ann_bbox L3d.ann_area L3d.ann_keypoints].
  rewrite triplets_flat, Hw, Hh. exists x, y, bw, bh.
  split; [exact Hbox|]. rewrite Hbox. cbn [lookup_total list_lookup_total].
  assert (Hgeom :
    0 <= x /\ 0 <= y /\ 0 <= bw /\ 0 <= bh /\ x + bw <= w - 1 /\ y + bh <= h - 1 /\
    Forall (fun t : Z * Z * Z =>
              (0 < t.2 -> 0 <= t.1.1 < w /\ 0 <= t.1.2 < h) /\
              (t.2 = 2 -> x <= t.1.1 <= x + bw /\ y <= t.1.2 <= y + bh)) ts).
  { rewrite bbox_integer_form in Hbox.
    destruct (Spec.fully_visible ts) as [|p ps] eqn:Hfv.
    - injection Hbox as <- <- <- <-.
      repeat (split; [lia|]).
      apply Forall_forall. intros t Ht. split; [apply (Hall t Ht)|].
      intros Hv. exfalso.
      assert (Hmem : t ∈ Spec.fully_visible ts)
        by (unfold Spec.fully_visible; apply list_elem_of_filter; split; assumption).
      rewrite Hfv in Hmem. inversion Hmem.
    - cbv zeta in Hbox. injection Hbox as <- <- <- <-.
      set (xs := (fun t : Z * Z * Z => t.1.1) <$> ps).
      set (ys := (fun t : Z * Z * Z => t.1.2) <$> ps).
      destruct (least_greatest_bounds p.1.1 xs 0 (w - 1)) as (Hx1 & Hx2 & Hxs).
      { change (p.1.1 :: xs) with ((fun t : Z * Z * Z => t.1.1) <$> (p :: ps)).
        rewrite Forall_fmap. eapply Forall_impl; [exact Hvis|].
        intros t Ht. cbn in Ht |- *. lia. }
      destruct (least_greatest_bounds p.1.2 ys 0 (h - 1)) as (Hy1 & Hy2 & Hys).
      { change (p.1.2 :: ys) with ((fun t : Z * Z * Z => t.1.2) <$> (p :: ps)).
        rewrite Forall_fmap. eapply Forall_impl; [exact Hvis|].
        intros t Ht. cbn in Ht |- *. lia. }
      repeat (split; [lia|]).
      apply Forall_forall. intros t Ht. split; [apply (Hall t Ht)|].
      intros Hv.
      assert (Hmem : t ∈ p :: ps).
      { rewrite <- Hfv. unfold Spec.fully_visible. apply list_elem_of_filter.
        split; assumption. }
      change (p.1.1 :: xs) with ((fun t : Z * Z * Z => t.1.1) <$> (p :: ps)) in Hxs.
      change (p.1.2 :: ys) with ((fun t : Z * Z * Z => t.1.2) <$> (p :: ps)) in Hys.
      rewrite Forall_fmap, Forall_forall in Hxs, Hys.
      specialize (Hxs t Hmem). specialize (Hys t Hmem). cbn in Hxs, Hys. lia. }
  destruct Hgeom as (G1 & G2 & G3 & G4 & G5 & G6 & Hkp).
  repeat (split; [assumption|]).
  split; [reflexivity|]. split; [apply to_Q_of_Z; exact Harea | exact Hkp].
Qed.

End OutputShapeProofs.

Section OutputShapeLoops.

Local Open Scope Z_scope.

Variable d : L3d.l3d_data.
Variable nbk : Z.
Hypothesis nbk_nonneg : 0 <= nbk.

Local Abbreviation fit_between := (Spec.fit_between nbk).

Lemma annotations_fit_grow (s s' : L3d.state) extra :
  L3d.annotations (L3d.coco s') = L3d.annotations (L3d.coco s) ->
  L3d.images (L3d.coco s') = L3d.images (L3d.coco s) ++ extra ->
  Spec.annotations_fit nbk s -> Spec.annotations_fit nbk s'.
Proof.
  unfold Spec.annotations_fit. intros -> Him Hfit.
  eapply Forall_impl; [exact Hfit|].
  intros a (Hshape & im & Hlk & Hid & Hbox). split; [exact Hshape|].
  exists im. split; [|split; assumption].
  rewrite Him. apply lookup_app_l_Some. exact Hlk.
Qed.

Lemma process_instance_fits kpa frame cam image_id w h animal (s : L3d.state) im :
  L3d.images (L3d.coco s) !! Z.to_nat (image_id - 1) = Some im ->
  L3d.img_id im = image_id ->
  L3d.img_width im = w -> L3d.img_height im = h ->
  Spec.annotations_fit nbk s ->
  let run := L3d.process_instance d kpa nbk frame cam image_id w h animal s in
  Spec.annotations_fit nbk (fst run) /\
  L3d.images (L3d.coco (fst run)) = L3d.images (L3d.coco s) /\
  L3d.image_id_counter (fst run) = L3d.image_id_counter s.
Proof.
  intros Hlk Hid Hw Hh Hfit. cbv zeta.
  destruct (process_instance_emits d kpa nbk frame cam image_id w h animal s)
    as [H|[[e H]|[[e H]|(inst & ts & a & Hts & Hcount & Haim & Hcat & Hcrowd & Hnum
                          & Hkps & Hexact & H)]]]; rewrite H; cbn [fst].
  - auto.
  - auto.
  - split; [exact Hfit|]. split; reflexivity.
  - split; [|split; reflexivity].
    unfold Spec.annotations_fit.
    cbn [L3d.add_annotation L3d.incr_annotation_id L3d.coco L3d.images L3d.annotations].
    apply Forall_app. split; [exact Hfit|].
    constructor; [|constructor].
    split.
    { exact (decoded_annotation_shape inst kpa nbk w h ts a nbk_nonneg Hts Hcount
               Hcat Hcrowd Hnum Hkps). }
    exists im. rewrite Haim. split; [exact Hlk|]. split; [exact Hid|].
    rewrite Hw, Hh. intros Hsizes. rewrite (Hexact Hsizes).
    exact (annotation_of_fits inst kpa nbk w h (L3d.annotation_id_counter s + 1)
             image_id ts im Hts Hcount Hw Hh Hsizes).
Qed.

Lemma process_camera_fits n kpa frame fid cam (s : L3d.state) :
  fit_between s ->
  let run := L3d.process_camera d n kpa nbk frame fid cam s in
  Spec.annotations_fit nbk (fst run) /\ (snd run = Ok tt -> fit_between (fst run)).
Proof.
  intros [Hfit Hcount]. cbv zeta. rewrite process_camera_unfold.
  destruct (getitem (L3d.imageSize d) cam) as [hw|e]; cbn [fst snd].
  2: { split; [exact Hfit | intros H; discriminate H]. }
  cbv zeta. set (im := {| L3d.img_id := _ |}).
  set (s2 := L3d.add_image im (L3d.incr_image_id s)).
  assert (Hfit2 : Spec.annotations_fit nbk s2)
    by (apply (annotations_fit_grow s s2 [im]); [reflexivity | reflexivity | exact Hfit]).
  assert (Hcount2 : L3d.image_id_counter s2 = Z.of_nat (length (L3d.images (L3d.coco s2))))
    by (cbn; rewrite length_app; cbn; lia).
  destruct (decide (n = 0)); cbn [fst snd].
  { split; [exact Hfit2 | intros _; split; assumption]. }
  assert (Hlk : L3d.images (L3d.coco s2) !! Z.to_nat (L3d.image_id_counter s + 1 - 1)
                = Some im).
  { cbn. rewrite Hcount, Z.add_simpl_r, Nat2Z.id.
    rewrite lookup_app_r by lia. rewrite Nat.sub_diag. reflexivity. }
  pose proof (for_each_preserves
    (fun s' => Spec.annotations_fit nbk s' /\
               L3d.images (L3d.coco s') = L3d.images (L3d.coco s2) /\
               L3d.image_id_counter s' = L3d.image_id_counter s2)
    (py_range n)
    (L3d.process_instance d kpa nbk frame cam (L3d.image_id_counter s + 1)
       (snd hw) (fst hw))) as Hloop.
  destruct (Hloop) with (s := s2) as (G1 & G2 & G3).
  - intros animal s' (H1 & H2 & H3).
    destruct (process_instance_fits kpa frame cam (L3d.image_id_counter s + 1)
                (snd hw) (fst hw) animal s' im) as (K1 & K2 & K3);
      [rewrite H2; exact Hlk | reflexivity | reflexivity | reflexivity | exact H1|].
    split; [exact K1|]. split; congruence.
  - split; [exact Hfit2|]. split; reflexivity.
  - split; [exact G1|]. intros _. split; [exact G1|]. rewrite G3, G2. exact Hcount2.
Qed.

Lemma process_frame_fits n kpa frame (s : L3d.state) :
  fit_between s ->
  let run := L3d.process_frame d n kpa nbk frame s in
  Spec.annotations_fit nbk (fst run) /\ (snd run = Ok tt -> fit_between (fst run)).
Proof.
  intros Hs. cbv zeta. rewrite process_frame_unfold.
  destruct (getitem (L3d.framesToLabel d) frame) as [fid|e]; cbn [fst snd].
  2: { split; [apply Hs | intros H; discriminate H]. }
  apply (for_each_indexed (fun _ => fit_between) (Spec.annotations_fit nbk)).
  - intros _ s' Hs'. apply Hs'.
  - intros _ cam s' _ Hs'. apply process_camera_fits. exact Hs'.
  - exact Hs.
Qed.

Lemma frames_fit n kpa (l : list Z) (s : L3d.state) :
  fit_between s ->
  Spec.annotations_fit nbk (fst (for_each l (L3d.process_frame d n kpa nbk) s)).
Proof.
  intros Hs.
  refine (proj1 (for_each_indexed (fun _ => fit_between) (Spec.annotations_fit nbk)
                   l (L3d.process_frame d n kpa nbk) _ _ s Hs)).
  - intros _ s' Hs'. apply Hs'.
  - intros _ frame s' _ Hs'. apply process_frame_fits. exact Hs'.
Qed.

End OutputShapeLoops.

Section OutputShapeTheorems.

Local Open Scope Z_scope.

(** Whatever the input and however the run ends, every annotation of the
    state fits. *)
Lemma l3d_to_coco_annotations_fit d sk :
  Spec.annotations_fit (Z.of_nat (length (L3d.joint_names sk)))
    (fst (L3d.l3d_to_coco d sk)).
Proof.
  unfold L3d.l3d_to_coco.
  destruct (rbind _ _) as [[n kpa]|e]; [|constructor].
  apply frames_fit; [lia|]. split; [constructor | reflexivity].
Qed.

(** X10. Whatever the input and however the run ends, every annotation of
    the output is shaped for the category: its [keypoints] list is one
    whole (x, y, v) triplet per joint of the base skeleton, with v among
    0, 1, 2; [num_keypoints] is the number of its triplets with v > 0, at
    least 1 and at most the number of joints; the category is 1, [iscrowd]
    is 0. *)
Theorem annotations_are_shaped d sk a :
  a ∈ L3d.annotations (L3d.coco (fst (L3d.l3d_to_coco d sk))) ->
  Spec.annotation_shape (Z.of_nat (length (L3d.joint_names sk))) a.
Proof.
  intros Ha. pose proof (l3d_to_coco_annotations_fit d sk) as Hfit.
  unfold Spec.annotations_fit in Hfit. rewrite Forall_forall in Hfit.
  apply (Hfit a Ha).
Qed.

(** X11. Whatever the input and however the run ends, every annotation of
    the output refers to an image of the output, and when that image has
    at most 2^53 pixels (so that every number of the box is a double that
    is an integer): its box is four non-negative integers [x, y, w, h]
    with [x + w <= width - 1] and [y + h <= height - 1]; its area is the
    double of [w * h], which is exactly [w * h]; every keypoint it reports
    with v > 0 lies inside the image; and every keypoint with v = 2 lies
    inside the box. *)
Theorem annotation_boxes_fit_images d sk a :
  a ∈ L3d.annotations (L3d.coco (fst (L3d.l3d_to_coco d sk))) ->
  exists im,
    L3d.images (L3d.coco (fst (L3d.l3d_to_coco d sk)))
      !! Z.to_nat (L3d.ann_image_id a - 1) = Some im /\
    L3d.img_id im = L3d.ann_image_id a /\
    (Spec.exact_sizes (L3d.img_width im) (L3d.img_height im) ->
     Spec.box_in_image a im).
Proof.
  intros Ha. pose proof (l3d_to_coco_annotations_fit d sk) as Hfit.
  unfold Spec.annotations_fit in Hfit. rewrite Forall_forall in Hfit.
  apply (Hfit a Ha).
Qed.

End OutputShapeTheorems.

Lemma scenario_annotations :
  L3d.annotations (L3d.coco (fst (L3d.l3d_to_coco Sample.scenario Sample.skeleton3)))
  = [Sample.scenario_annotation].
Proof. vm_compute. reflexivity. Qed.

(** X10 at the annotation of the sample file. *)
Lemma annotations_are_shaped_witness :
  Spec.annotation_shape 3 Sample.scenario_annotation.
Proof.
  apply (annotations_are_shaped Sample.scenario Sample.skeleton3).
  rewrite scenario_annotations. apply list_elem_of_here.
Defined.

Lemma session_annotations :
  L3d.annotations (L3d.coco (fst (L3d.l3d_to_coco Sample.session Sample.skeleton3)))
  = [Sample.scenario_annotation].
Proof. vm_compute. reflexivity. Qed.

(** X11 at the annotation of the sample session, whose images have
    100 x 100 pixels. *)
Lemma annotation_boxes_fit_images_witness :
  exists im,
    L3d.img_id im = 1%Z /\ L3d.img_width im = 100%Z /\ L3d.img_height im = 100%Z /\
    Spec.box_in_image Sample.scenario_annotation im.
Proof.
  destruct (annotation_boxes_fit_images Sample.session Sample.skeleton3
              Sample.scenario_annotation) as (im & Hlk & Hid & Hbox).
  - rewrite session_annotations. apply list_elem_of_here.
  - vm_compute in Hlk. injection Hlk as <-.
    eexists. split; [exact Hid|]. split; [reflexivity|]. split; [reflexivity|].
    apply Hbox. unfold Spec.exact_sizes. cbn. lia.
Defined.

(* ===================================================================== *)
(** * Further properties of prepare_label3d_poses.py                       *)
(* ===================================================================== *)

Section ArraysConsistency.

Variable num_keypoints_per_instance : nat.
Variable kpt_score_threshold : float.
Variable frame_id_to_mat_idx_map : gmap Z nat.
Variable instance_id_to_slot_idx_map : gmap string nat.

Lemma process_joint_kept shape cam_idx mat_frame_idx marker_offset
    kps_list scores_list joint_idx a :
  Spec.arrays_kept shape a ->
  Spec.arrays_kept shape
    (fst (Prepare.process_joint kpt_score_threshold cam_idx mat_frame_idx marker_offset
            kps_list scores_list joint_idx a)).
Proof.
  intros Ha.
  destruct (process_joint_outcome kpt_score_threshold cam_idx mat_frame_idx marker_offset
              kps_list scores_list joint_idx a)
    as [[-> _]|(px & py & _ & _ & Hin & ->)]; [exact Ha|].
  cbn [fst]. destruct Ha as [(Hdom & Hone & Hbounds) Hshape].
  split; [|exact Hshape].
  split; [|split].
  - cbn [Prepare.status_data Prepare.cam_points_data].
    rewrite !dom_insert_L, Hdom. reflexivity.
  - cbn [Prepare.status_data]. apply map_Forall_insert_2; [reflexivity | exact Hone].
  - intros idx. cbn [Prepare.cam_points_data]. rewrite dom_insert_L.
    intros [Hidx|Hidx]%elem_of_union.
    + apply elem_of_singleton in Hidx. subst idx. exact Hin.
    + exact (Hbounds idx Hidx).
Qed.

Lemma process_instance_kept shape cam_idx mat_frame_idx inst_json a :
  Spec.arrays_kept shape a ->
  Spec.arrays_kept shape
    (fst (Prepare.process_instance num_keypoints_per_instance kpt_score_threshold
            instance_id_to_slot_idx_map cam_idx mat_frame_idx inst_json a)).
Proof.
  intros Ha. unfold Prepare.process_instance.
  destruct (instance_id_to_slot_idx_map !! _) as [slot|]; [|exact Ha].
  destruct (decide _); [|exact Ha].
  apply for_each_preserves; [|exact Ha].
  intros joint_idx a'. apply process_joint_kept.
Qed.

Lemma process_frame_kept shape cam_idx frame_content a :
  Spec.arrays_kept shape a ->
  Spec.arrays_kept shape
    (fst (Prepare.process_frame num_keypoints_per_instance kpt_score_threshold
            frame_id_to_mat_idx_map instance_id_to_slot_idx_map cam_idx frame_content a)).
Proof.
  intros Ha. unfold Prepare.process_frame.
  destruct (Prepare.actual_frame_id frame_content) as [fid|]; [|exact Ha].
  destruct (frame_id_to_mat_idx_map !! fid) as [mat_frame_idx|]; [|exact Ha].
  apply for_each_preserves; [|exact Ha].
  intros inst_json a'. apply process_instance_kept.
Qed.

Lemma populate_kept shape cameras a :
  Spec.arrays_kept shape a ->
  Spec.arrays_kept shape
    (fst (Prepare.populate num_keypoints_per_instance kpt_score_threshold
            frame_id_to_mat_idx_map instance_id_to_slot_idx_map cameras a)).
Proof.
  intros Ha. unfold Prepare.populate.
  apply for_each_preserves; [|exact Ha].
  intros [cam_idx frames] a1 Ha1.
  apply for_each_preserves; [|exact Ha1].
  intros frame_content a2. apply process_frame_kept.
Qed.

Lemma new_arrays_kept markers cams frames :
  Spec.arrays_kept (markers, cams, frames) (Prepare.new_arrays markers cams frames).
Proof.
  split; [|reflexivity]. split; [|split].
  - cbn. rewrite !dom_empty_L. reflexivity.
  - apply map_Forall_empty.
  - intros i Hi. cbn in Hi. rewrite dom_empty_L in Hi. apply elem_of_empty in Hi.
    contradiction.
Qed.

(** X12. In the arrays the preparation leaves, whether it ran to the end or
    not: the shape is the one the arrays were created with; a cell holds
    status 1 exactly when a coordinate pair was stored in it and status 0
    exactly when it still holds the NaN fill; and every cell that was
    written lies inside the arrays. *)
Theorem prepared_arrays_consistent
    (num_distinct_instances num_frames : nat) cameras idx :
  let a := fst (Prepare.prepare_arrays num_keypoints_per_instance num_distinct_instances
                  num_frames kpt_score_threshold frame_id_to_mat_idx_map
                  instance_id_to_slot_idx_map cameras) in
  Spec.arrays_shape a
    = ((num_distinct_instances * num_keypoints_per_instance)%nat, length cameras, num_frames) /\
  (Prepare.status_at a idx = 1%N <-> is_Some (Prepare.cam_points_data a !! idx)) /\
  (Prepare.status_at a idx = 0%N <-> Prepare.cam_points_data a !! idx = None) /\
  (Prepare.cam_points_data a !! idx = None ->
   Prepare.cam_points_at a idx = (S754_nan, S754_nan)) /\
  (is_Some (Prepare.cam_points_data a !! idx) -> Prepare.in_bounds a idx).
Proof.
  cbv zeta.
  destruct (populate_kept
              ((num_distinct_instances * num_keypoints_per_instance)%nat,
               length cameras, num_frames) cameras
              (Prepare.new_arrays (num_distinct_instances * num_keypoints_per_instance)
                 (length cameras) num_frames))
    as [(Hdom & Hone & Hbounds) Hshape].
  { apply new_arrays_kept. }
  fold (Prepare.prepare_arrays num_keypoints_per_instance num_distinct_instances
          num_frames kpt_score_threshold frame_id_to_mat_idx_map
          instance_id_to_slot_idx_map cameras) in *.
  set (a := fst (Prepare.prepare_arrays _ _ _ _ _ _ _)) in *.
  split; [exact Hshape|].
  assert (Hiff : is_Some (Prepare.status_data a !! idx)
                 <-> is_Some (Prepare.cam_points_data a !! idx)).
  { rewrite <- !elem_of_dom, Hdom. reflexivity. }
  unfold Prepare.status_at, Prepare.cam_points_at.
  destruct (Prepare.status_data a !! idx) as [v|] eqn:Ev; cbn [default].
  - rewrite (Hone idx v Ev).
    assert (Hc : is_Some (Prepare.cam_points_data a !! idx)) by (apply Hiff; eauto).
    split; [split; auto|]. split; [|split].
    + split; [discriminate|]. intros E. rewrite E in Hc. destruct Hc as [? Hc]. discriminate Hc.
    + intros E. rewrite E. reflexivity.
    + intros Hs. apply Hbounds, elem_of_dom. exact Hs.
  - assert (Hc : Prepare.cam_points_data a !! idx = None).
    { destruct (Prepare.cam_points_data a !! idx) eqn:Ec; [|reflexivity].
      destruct (proj2 Hiff) as [? Hx]; [eauto | discriminate Hx]. }
    rewrite Hc. cbn [default].
    split; [split; [discriminate | intros [? Hx]; discriminate Hx]|].
    split; [split; auto|]. split; [reflexivity|].
    intros [? Hx]. discriminate Hx.
Qed.

End ArraysConsistency.

(* --------------------------------------------------------------------- *)
(** ** Sorting and enumeration                                             *)
(* --------------------------------------------------------------------- *)

Section Sorting.

#[local] Instance string_le_total : Total string_le.
Proof. intros a b. unfold string_le. apply String.leb_total. Qed.

Lemma sorted_ints_spec (s : gset Z) :
  Sorted Z.le (sorted_ints s) /\ NoDup (sorted_ints s) /\
  forall x, x ∈ sorted_ints s <-> x ∈ s.
Proof.
  unfold sorted_ints. split; [apply Sorted_merge_sort; apply _|].
  pose proof (merge_sort_Permutation Z.le (elements s)) as Hp.
  split.
  - rewrite Hp. apply NoDup_elements.
  - intros x. rewrite Hp. apply elem_of_elements.
Qed.

Lemma sorted_strings_spec (s : gset string) :
  Sorted string_le (sorted_strings s) /\ NoDup (sorted_strings s) /\
  forall x, x ∈ sorted_strings s <-> x ∈ s.
Proof.
  unfold sorted_strings. split; [apply Sorted_merge_sort; apply _|].
  pose proof (merge_sort_Permutation string_le (elements s)) as Hp.
  split.
  - rewrite Hp. apply NoDup_elements.
  - intros x. rewrite Hp. apply elem_of_elements.
Qed.

Lemma sorted_empty_iff {A} (R : relation A) `{forall x y, Decision (R x y)} (l : list A) :
  merge_sort R l = [] <-> l = [].
Proof.
  pose proof (merge_sort_Permutation R l) as Hp. split; intros E.
  - rewrite E in Hp. symmetry in Hp. apply Permutation_nil_r in Hp. exact Hp.
  - subst l. apply Permutation_nil_r in Hp. exact Hp.
Qed.

Context `{Countable K}.

Lemma elem_of_zip_seq (l : list K) (k : K) (i : nat) :
  (k, i) ∈ zip l (seq 0 (length l)) <-> l !! i = Some k.
Proof.
  rewrite list_elem_of_lookup. split.
  - intros [p Hp]. apply lookup_zip_with_Some in Hp.
    destruct Hp as (x & y & [= <- <-] & Hx & Hy).
    apply lookup_seq in Hy. destruct Hy as [-> _]. exact Hx.
  - intros Hi. exists i. apply lookup_zip_with_Some.
    exists k, i. split; [reflexivity|]. split; [exact Hi|].
    apply lookup_seq. split; [reflexivity|]. apply lookup_lt_Some in Hi. exact Hi.
Qed.

(** An index found in the enumeration is a position of the key in the
    list. *)
Lemma enumerate_map_lookup (l : list K) (k : K) (i : nat) :
  enumerate_map l !! k = Some i -> l !! i = Some k /\ (i < length l)%nat.
Proof.
  unfold enumerate_map. intros Hi.
  apply elem_of_list_to_map_2, elem_of_reverse, elem_of_zip_seq in Hi.
  split; [exact Hi|]. apply lookup_lt_Some in Hi. exact Hi.
Qed.

(** On a list without duplicates, enumeration and list lookup are inverse
    to each other. *)
Lemma enumerate_map_inverse (l : list K) (k : K) (i : nat) :
  NoDup l ->
  enumerate_map l !! k = Some i <-> l !! i = Some k.
Proof.
  intros Hnd. split; [intros Hi; apply (enumerate_map_lookup l k i Hi)|].
  intros Hi. unfold enumerate_map. apply elem_of_list_to_map_1.
  - rewrite fmap_reverse, reverse_Permutation.
    rewrite fst_zip; [exact Hnd|]. rewrite length_seq. lia.
  - apply elem_of_reverse, elem_of_zip_seq. exact Hi.
Qed.

End Sorting.

(* --------------------------------------------------------------------- *)
(** ** The whole preparation                                               *)
(* --------------------------------------------------------------------- *)

Section PopulateCompletes.

Variable num_keypoints_per_instance : nat.
Variable kpt_score_threshold : float.
Variable frame_id_to_mat_idx_map : gmap Z nat.
Variable instance_id_to_slot_idx_map : gmap string nat.
Variable instances frames cams : nat.

Hypothesis frame_columns : forall fid i,
  frame_id_to_mat_idx_map !! fid = Some i -> (i < frames)%nat.
Hypothesis instance_slots : forall id slot,
  instance_id_to_slot_idx_map !! id = Some slot -> (slot < instances)%nat.

Local Abbreviation shape :=
  ((instances * num_keypoints_per_instance)%nat, cams, frames).

(** With index maps that stay inside the arrays, a joint returns, or
    raises [OverflowError] on a coordinate past the range of doubles. *)
Lemma process_joint_quiet cam_idx mat_frame_idx slot kps_list scores_list joint_idx a :
  Spec.arrays_shape a = shape ->
  (cam_idx < cams)%nat -> (mat_frame_idx < frames)%nat -> (slot < instances)%nat ->
  (joint_idx < num_keypoints_per_instance)%nat ->
  length kps_list = num_keypoints_per_instance ->
  let r := Prepare.process_joint kpt_score_threshold cam_idx mat_frame_idx
             (slot * num_keypoints_per_instance) kps_list scores_list joint_idx a in
  snd r = Ok tt
  \/ (snd r = Raise OverflowError /\
      exists point_xy, point_xy ∈ kps_list /\ Prepare.JHuge ∈ point_xy).
Proof.
  intros Hshape Hc Hf Hs Hj Hlen. cbv zeta.
  destruct (process_joint_outcome kpt_score_threshold cam_idx mat_frame_idx
              (slot * num_keypoints_per_instance) kps_list scores_list joint_idx a)
    as [[_ [H|[[H (point_xy & Hpoint & Hhuge)]|[_ [Hnone|Hout]]]]]|(px & py & _ & _ & _ & ->)].
  - left. exact H.
  - right. split; [exact H|]. exists point_xy.
    split; [exact (list_elem_of_lookup_2 _ _ _ Hpoint) | exact Hhuge].
  - exfalso. apply lookup_ge_None in Hnone. lia.
  - exfalso. apply Hout. injection Hshape as Hm Hcams Hframes.
    unfold Prepare.in_bounds. cbn [fst snd]. rewrite Hm, Hcams, Hframes. nia.
  - left. reflexivity.
Qed.

(** With index maps that stay inside the arrays, population runs to the
    end, unless it meets a coordinate past the range of doubles, on which
    it raises [OverflowError]. *)
Lemma populate_quiet (cameras : list (list Prepare.frame_json)) a :
  length cameras = cams ->
  Spec.arrays_kept shape a ->
  let r := Prepare.populate num_keypoints_per_instance kpt_score_threshold
             frame_id_to_mat_idx_map instance_id_to_slot_idx_map cameras a in
  snd r = Ok tt \/ (snd r = Raise OverflowError /\ Spec.oversized_coordinate cameras).
Proof.
  intros Hcams Ha. cbv zeta. unfold Prepare.populate.
  set (R := fun r : result unit =>
              r = Ok tt \/ (r = Raise OverflowError /\ Spec.oversized_coordinate cameras)).
  assert (HR : R (Ok tt)) by (left; reflexivity).
  apply (for_each_result (Spec.arrays_kept shape) R _ _ HR); [|exact Ha].
  intros [cam_idx frames_of_cam] a1 Hin Ha1.
  assert (Hc : (cam_idx < cams)%nat).
  { apply list_elem_of_In, elem_of_zip_l, elem_of_seq in Hin. lia. }
  assert (Hmem : frames_of_cam ∈ cameras).
  { apply list_elem_of_In, elem_of_zip_r in Hin. exact Hin. }
  split; [|apply (for_each_preserves (Spec.arrays_kept shape)); [|exact Ha1];
           intros fc a'; apply process_frame_kept].
  apply (for_each_result (Spec.arrays_kept shape) R _ _ HR); [|exact Ha1].
  intros frame_content a2 Hframe Ha2. apply list_elem_of_In in Hframe.
  split; [|apply process_frame_kept; exact Ha2].
  unfold Prepare.process_frame.
  destruct (Prepare.actual_frame_id frame_content) as [fid|]; [|exact HR].
  destruct (frame_id_to_mat_idx_map !! fid) as [mat_frame_idx|] eqn:Hfid; [|exact HR].
  apply (for_each_result (Spec.arrays_kept shape) R _ _ HR); [|exact Ha2].
  intros inst_json a3 Hinst Ha3. apply list_elem_of_In in Hinst.
  split; [|apply process_instance_kept; exact Ha3].
  unfold Prepare.process_instance.
  destruct (instance_id_to_slot_idx_map !! _) as [slot|] eqn:Hslot; [|exact HR].
  destruct (decide _) as [[Hlen _]|]; [|exact HR].
  apply (for_each_result (Spec.arrays_kept shape) R _ _ HR); [|exact Ha3].
  intros joint_idx a4 Hj Ha4.
  split; [|apply process_joint_kept; exact Ha4].
  apply list_elem_of_In, elem_of_seq in Hj.
  destruct (process_joint_quiet cam_idx mat_frame_idx slot (Prepare.keypoints inst_json)
              (Prepare.keypoint_scores inst_json) joint_idx a4)
    as [H|[H (point_xy & Hpoint & Hhuge)]];
    [apply Ha4 | exact Hc | exact (frame_columns _ _ Hfid)
     | exact (instance_slots _ _ Hslot) | lia | exact Hlen | |].
  - left. exact H.
  - right. split; [exact H|].
    exists frames_of_cam, frame_content, inst_json, point_xy. auto.
Qed.

End PopulateCompletes.

Section WholePreparation.

Lemma elem_of_concat {A} (x : A) (ls : list (list A)) :
  x ∈ concat ls <-> exists l, x ∈ l /\ l ∈ ls.
Proof.
  rewrite list_elem_of_In, in_concat. split.
  - intros (l & Hl & Hx). exists l. rewrite !list_elem_of_In. auto.
  - intros (l & Hx & Hl). exists l. rewrite <- !list_elem_of_In. auto.
Qed.

Lemma elem_of_all_frame_ids cameras fid :
  fid ∈ PrepareMain.all_frame_ids_set cameras <->
  exists frames_of_cam frame_content,
    frames_of_cam ∈ cameras /\ frame_content ∈ frames_of_cam /\
    Prepare.actual_frame_id frame_content = Some fid.
Proof.
  unfold PrepareMain.all_frame_ids_set.
  rewrite elem_of_list_to_set, list_elem_of_omap. split.
  - intros (fc & Hfc & Hid). apply elem_of_concat in Hfc.
    destruct Hfc as (l & Hfc & Hl). eauto.
  - intros (l & fc & Hl & Hfc & Hid). exists fc. split; [|exact Hid].
    apply elem_of_concat. eauto.
Qed.

(** X13. How the preparation ends, on camera files whose keypoints are
    lists of coordinates and whose scores are numbers. It stops with a
    parser error exactly when the skeleton has no joint, no camera file was
    loaded, no frame identifier or no instance identifier was found. The
    only exception it raises is [OverflowError], and then a coordinate is
    past the range of doubles or a frame identifier is not an integer of 64
    bits: no index falls outside the arrays or a keypoint list. With no
    such coordinate and no such identifier it reaches [savemat], and what
    it saves (or fails to save, when [savemat] raises) has: the frame
    identifiers found in the camera files, each once, in increasing order;
    arrays of shape (instances x joints, cameras, frames); and consistent
    arrays. *)
Theorem preparation_outcomes num_keypoints_per_instance kpt_score_threshold
    savemat_writes cameras :
  let run :=
    PrepareMain.main num_keypoints_per_instance kpt_score_threshold savemat_writes
      cameras in
  let frame_ids_fit :=
    forall fid, fid ∈ PrepareMain.all_frame_ids_set cameras ->
                (- 2 ^ 63 <= fid < 2 ^ 63)%Z in
  (run = PrepareMain.ParserError <->
   num_keypoints_per_instance = 0%nat \/ cameras = []
   \/ PrepareMain.all_frame_ids_set cameras = ∅
   \/ PrepareMain.all_instance_ids_set cameras = ∅) /\
  (forall e a,
     run = PrepareMain.Raised e a ->
     e = OverflowError /\ (Spec.oversized_coordinate cameras \/ ~ frame_ids_fit)) /\
  (~ Spec.oversized_coordinate cameras -> frame_ids_fit ->
   run = PrepareMain.ParserError \/
   exists out,
     run = (if savemat_writes then PrepareMain.Saved out else PrepareMain.SaveFailed out) /\
     Sorted Z.le (PrepareMain.processed_frame_ids out) /\
     NoDup (PrepareMain.processed_frame_ids out) /\
     (forall fid,
        fid ∈ PrepareMain.processed_frame_ids out <->
        exists frames_of_cam frame_content,
          frames_of_cam ∈ cameras /\ frame_content ∈ frames_of_cam /\
          Prepare.actual_frame_id frame_content = Some fid) /\
     Spec.arrays_shape (PrepareMain.precomputed out)
     = ((length (PrepareMain.discovered_instance_ids out) * num_keypoints_per_instance)%nat,
        length cameras, length (PrepareMain.processed_frame_ids out)) /\
     Spec.arrays_consistent (PrepareMain.precomputed out)).
Proof.
  cbv zeta. unfold PrepareMain.main.
  destruct (decide (num_keypoints_per_instance = 0%nat)) as [|Hnk];
    [split; [split; auto|]; split; [intros e' a' H; discriminate H | intros _ _; left; reflexivity]|].
  destruct (decide (cameras = [])) as [|Hcams];
    [split; [split; auto|]; split; [intros e' a' H; discriminate H | intros _ _; left; reflexivity]|].
  destruct (decide (PrepareMain.all_frame_ids_set cameras = ∅)) as [|Hfs];
    [split; [split; auto|]; split; [intros e' a' H; discriminate H | intros _ _; left; reflexivity]|].
  destruct (decide (PrepareMain.all_instance_ids_set cameras = ∅)) as [|His];
    [split; [split; auto|]; split; [intros e' a' H; discriminate H | intros _ _; left; reflexivity]|].
  destruct (sorted_ints_spec (PrepareMain.all_frame_ids_set cameras))
    as (Hsorted & Hnodup & Hmem).
  set (fids := sorted_ints (PrepareMain.all_frame_ids_set cameras)) in *.
  set (iids := sorted_strings (PrepareMain.all_instance_ids_set cameras)) in *.
  assert (Hfit : forallb PrepareMain.fits_int64 fids = true
                 <-> forall fid, fid ∈ PrepareMain.all_frame_ids_set cameras ->
                                 (- 2 ^ 63 <= fid < 2 ^ 63)%Z).
  { rewrite forallb_forall. unfold PrepareMain.fits_int64. split.
    - intros H fid Hfid. apply Hmem, list_elem_of_In, H in Hfid.
      apply andb_prop in Hfid as [H1 H2]. lia.
    - intros H fid Hfid. apply list_elem_of_In, Hmem, H in Hfid.
      apply andb_true_intro. split; lia. }
  pose proof (populate_quiet num_keypoints_per_instance kpt_score_threshold
                (enumerate_map fids) (enumerate_map iids)
                (length iids) (length fids) (length cameras)
                (fun fid i Hi => proj2 (enumerate_map_lookup fids fid i Hi))
                (fun id slot Hi => proj2 (enumerate_map_lookup iids id slot Hi))
                cameras
                (Prepare.new_arrays (length iids * num_keypoints_per_instance)
                   (length cameras) (length fids))
                eq_refl (new_arrays_kept _ _ _)) as Hquiet.
  pose proof (populate_kept num_keypoints_per_instance kpt_score_threshold
                (enumerate_map fids) (enumerate_map iids)
                ((length iids * num_keypoints_per_instance)%nat, length cameras, length fids)
                cameras
                (Prepare.new_arrays (length iids * num_keypoints_per_instance)
                   (length cameras) (length fids))
                (new_arrays_kept _ _ _)) as Hkept.
  cbv zeta in Hquiet. unfold Prepare.prepare_arrays.
  destruct (Prepare.populate _ _ _ _ _ _) as [a [[]|e]]; cbn [fst snd] in *.
  - destruct (forallb PrepareMain.fits_int64 fids) eqn:Hall.
    + split; [|split].
      * split; [destruct savemat_writes; intros Hn; discriminate Hn|].
        intros [H|[H|[H|H]]]; contradiction.
      * intros e a0 H. destruct savemat_writes; discriminate H.
      * intros _ _. right. eexists. split; [reflexivity|].
        cbn [PrepareMain.processed_frame_ids PrepareMain.precomputed
             PrepareMain.discovered_instance_ids].
        split; [exact Hsorted|]. split; [exact Hnodup|].
        split; [intros fid; rewrite Hmem; apply elem_of_all_frame_ids|].
        split; [apply Hkept | apply Hkept].
    + split; [|split].
      * split; [intros Hn; discriminate Hn|].
        intros [H|[H|[H|H]]]; contradiction.
      * intros e a0 [= <- _]. split; [reflexivity|]. right.
        intros H. apply Hfit in H. discriminate H.
      * intros _ H. apply Hfit in H. discriminate H.
  - destruct Hquiet as [H|[[= ->] Hhuge]]; [discriminate H|].
    split; [|split].
    + split; [intros Hn; discriminate Hn|].
      intros [H|[H|[H|H]]]; contradiction.
    + intros e' a0 [= <- _]. split; [reflexivity|]. left. exact Hhuge.
    + intros Hn _. contradiction.
Qed.

(** X14. The column of a frame is the rank of its identifier among the
    sorted identifiers, and the slot of an instance the rank of its
    identifier: the two index maps built by the preparation are the
    inverses of the two sorted lists it saves. *)
Theorem index_maps_invert_sorted_ids cameras :
  (forall fid i,
     enumerate_map (sorted_ints (PrepareMain.all_frame_ids_set cameras)) !! fid = Some i
     <-> sorted_ints (PrepareMain.all_frame_ids_set cameras) !! i = Some fid) /\
  (forall id slot,
     enumerate_map (sorted_strings (PrepareMain.all_instance_ids_set cameras)) !! id
       = Some slot
     <-> sorted_strings (PrepareMain.all_instance_ids_set cameras) !! slot = Some id).
Proof.
  split.
  - intros fid i. apply enumerate_map_inverse. apply sorted_ints_spec.
  - intros id slot. apply enumerate_map_inverse. apply sorted_strings_spec.
Qed.

End WholePreparation.

(** The two ways the preparation raises: a coordinate past the range of
    doubles in a keypoint that is kept, and a frame identifier that is no
    integer of 64 bits. *)
(** X13 at the sample camera file: no coordinate is oversized, the frame
    identifier 5 is an integer of 64 bits, and the file is saved. *)
Lemma preparation_outcomes_witness :
  exists out,
    PrepareMain.main 2 Sample.quarter true Sample.pose_results = PrepareMain.Saved out /\
    PrepareMain.processed_frame_ids out = [5%Z].
Proof.
  destruct (proj2 (proj2 (preparation_outcomes 2 Sample.quarter true Sample.pose_results)))
    as [H|(out & Hrun & _)].
  - intros (fs & fc & inst & point_xy & Hfs & Hfc & Hinst & Hpoint & Hhuge).
    unfold Sample.pose_results in Hfs.
    apply list_elem_of_singleton in Hfs. subst fs.
    apply list_elem_of_singleton in Hfc. subst fc. cbn in Hinst.
    apply list_elem_of_singleton in Hinst. subst inst. cbn in Hpoint.
    apply elem_of_cons in Hpoint as [->|Hpoint];
      [|apply list_elem_of_singleton in Hpoint; subst point_xy];
      (apply elem_of_cons in Hhuge as [Hhuge|Hhuge]; [discriminate Hhuge|];
       apply list_elem_of_singleton in Hhuge; discriminate Hhuge).
  - intros fid Hfid.
    assert (Hfive : fid = 5%Z).
    { unfold PrepareMain.all_frame_ids_set, Sample.pose_results in Hfid.
      cbn [concat app omap list_omap Prepare.actual_frame_id] in Hfid.
      apply elem_of_list_to_set, list_elem_of_singleton in Hfid. exact Hfid. }
    subst fid. lia.
  - vm_compute in H. discriminate H.
  - exists out. split; [exact Hrun|].
    vm_compute in Hrun. injection Hrun as <-. reflexivity.
Defined.

Example preparation_overflows :
  (exists a,
     PrepareMain.main 1 Sample.quarter true
       [[ {| Prepare.actual_frame_id := Some 5%Z;
             Prepare.instances :=
               [ {| Prepare.instance_id := Some "0"%string;
                    Prepare.keypoints := [[Prepare.JNum Sample.ten; Prepare.JHuge]];
                    Prepare.keypoint_scores := [] |} ] |} ]]
     = PrepareMain.Raised OverflowError a) /\
  (exists a,
     PrepareMain.main 1 Sample.quarter true
       [[ {| Prepare.actual_frame_id := Some (2 ^ 63)%Z;
             Prepare.instances :=
               [ {| Prepare.instance_id := Some "0"%string;
                    Prepare.keypoints := [[Prepare.JNum Sample.ten; Prepare.JNum Sample.ten]];
                    Prepare.keypoint_scores := [] |} ] |} ]]
     = PrepareMain.Raised OverflowError a).
Proof. split; eexists; vm_compute; reflexivity. Qed.

(* --------------------------------------------------------------------- *)
(** ** The calibration export, on a JSON file                              *)
(* --------------------------------------------------------------------- *)

Section CalibrationExport.

Variable allclose_identity : list (list float) -> result bool.
Variable allclose_zero : list float -> result bool.
Variable create_output_dir : result unit.
Variable file_system_accepts : string -> bool.

Local Abbreviation detect_reference_camera :=
  (MulticalMain.detect_reference_camera allclose_identity allclose_zero).
Local Abbreviation is_reference :=
  (Spec.is_reference allclose_identity allclose_zero).
Local Abbreviation get_extrinsics_json :=
  (Multical.get_extrinsics_json allclose_identity allclose_zero).
Local Abbreviation export_camera :=
  (MulticalMain.export_camera allclose_identity allclose_zero file_system_accepts).
Local Abbreviation files_of :=
  (Spec.files_of allclose_identity allclose_zero file_system_accepts).

Lemma detect_step entry rest :
  detect_reference_camera (entry :: rest)
  = if is_reference entry then Some entry.1 else detect_reference_camera rest.
Proof.
  destruct entry as [pose_key pose_info]. unfold Spec.is_reference, Spec.holds.
  cbn [MulticalMain.detect_reference_camera fst snd].
  destruct (negb (contains "_to_" pose_key)); cbn [andb]; [|reflexivity].
  unfold MulticalMain.check_reference, asarray2.
  destruct (rectangular (Multical.pose_R pose_info)); cbn [rbind andb]; [|reflexivity].
  destruct (allclose_identity (Multical.pose_R pose_info)) as [[|]|e1]; cbn [rbind andb];
    destruct (allclose_zero (Multical.pose_T pose_info)) as [[|]|e2]; reflexivity.
Qed.

(** X15. The reference camera is the first pose entry, in file order,
    whose key has no ["_to_"] and whose pose is close to the identity;
    none is detected exactly when no entry is such. *)
Theorem reference_is_first_candidate (items : list (string * Multical.pose)) :
  match detect_reference_camera items with
  | Some detected_ref_cam =>
      exists before pose_info after,
        items = before ++ (detected_ref_cam, pose_info) :: after /\
        is_reference (detected_ref_cam, pose_info) = true /\
        Forall (fun entry => is_reference entry = false) before
  | None => Forall (fun entry => is_reference entry = false) items
  end.
Proof.
  induction items as [|entry rest IH]; [constructor|].
  rewrite detect_step. destruct (is_reference entry) eqn:Hentry.
  - exists [], entry.2, rest. destruct entry as [k p]. cbn [fst snd app].
    split; [reflexivity|]. split; [exact Hentry | constructor].
  - destruct (detect_reference_camera rest) as [ref|].
    + destruct IH as (before & pose_info & after & -> & Href & Hbefore).
      exists (entry :: before), pose_info, after.
      split; [reflexivity|]. split; [exact Href|]. constructor; assumption.
    + constructor; assumption.
Qed.

Lemma detected_entry items detected_ref_cam :
  detect_reference_camera items = Some detected_ref_cam ->
  exists pose_info,
    (detected_ref_cam, pose_info) ∈ items /\
    is_reference (detected_ref_cam, pose_info) = true.
Proof.
  induction items as [|entry rest IH]; [discriminate|].
  rewrite detect_step. destruct (is_reference entry) eqn:Hentry.
  - intros [= <-]. exists entry.2. destruct entry as [k p]. cbn [fst snd].
    split; [apply list_elem_of_here | exact Hentry].
  - intros Hdet. destruct (IH Hdet) as (pose_info & Hin & Href).
    exists pose_info. split; [apply list_elem_of_further; exact Hin | exact Href].
Qed.

Lemma holds_true (r : result bool) : Spec.holds r = true -> r = Ok true.
Proof. destruct r as [[|]|e]; cbn; intros H; [reflexivity | discriminate H | discriminate H]. Qed.

(** X16. With the reference camera that was detected, the pose of the
    reference camera itself is the pose stored under its name, returned
    without any warning: neither the missing-reference default nor the
    not-identity warning can occur. *)
Theorem detected_reference_resolves (items : list (string * Multical.pose))
    (detected_ref_cam : string) :
  NoDup items.*1 ->
  detect_reference_camera items = Some detected_ref_cam ->
  exists pose_info,
    (detected_ref_cam, pose_info) ∈ items /\
    allclose_identity (Multical.pose_R pose_info) = Ok true /\
    allclose_zero (Multical.pose_T pose_info) = Ok true /\
    get_extrinsics_json (list_to_map items) detected_ref_cam detected_ref_cam
    = ([], Ok (Multical.pose_R pose_info, Multical.pose_T pose_info)).
Proof.
  intros Hkeys Hdet. destruct (detected_entry _ _ Hdet) as (pose_info & Hin & Href).
  exists pose_info. unfold Spec.is_reference in Href. cbn [fst snd] in Href.
  apply andb_prop in Href as [Href HT]. apply andb_prop in Href as [_ HR].
  apply holds_true in HR, HT.
  split; [exact Hin|]. split; [exact HR|]. split; [exact HT|].
  unfold Multical.get_extrinsics_json.
  destruct (decide (detected_ref_cam = detected_ref_cam)) as [_|Hne]; [|contradiction].
  rewrite (elem_of_list_to_map_1 items _ _ Hkeys Hin).
  unfold Multical.not_identity_or_not_zero. rewrite HR, HT. reflexivity.
Qed.

Lemma omap_length_le {A B} (f : A -> option B) (l : list A) :
  (length (omap f l) <= length l)%nat.
Proof.
  induction l as [|x l IH]; cbn; [lia|]. destruct (f x); cbn; lia.
Qed.

Lemma files_of_cons all_intrinsics poses ref_cam cam_name cams :
  files_of all_intrinsics poses ref_cam (cam_name :: cams)
  = files_of all_intrinsics poses ref_cam [cam_name]
    ++ files_of all_intrinsics poses ref_cam cams.
Proof.
  unfold Spec.files_of. cbn [omap list_omap].
  destruct (file_system_accepts _); [destruct (_ <$> _)|]; reflexivity.
Qed.

(** One camera of the loop: the exception of a failing camera is caught,
    and a file is saved and counted exactly when the camera has a record
    and [savemat] writes it. *)
Lemma export_camera_run all_intrinsics poses ref_cam cam_name p :
  let r := catch (export_camera all_intrinsics poses ref_cam cam_name) p in
  snd r = Ok tt /\
  MulticalMain.saved (fst r)
  = MulticalMain.saved p ++ files_of all_intrinsics poses ref_cam [cam_name] /\
  MulticalMain.processed_count (fst r)
  = (MulticalMain.processed_count p
     + length (files_of all_intrinsics poses ref_cam [cam_name]))%nat.
Proof.
  cbv zeta. unfold catch, MulticalMain.export_camera, Spec.files_of, Spec.camera_record.
  cbn [omap list_omap].
  destruct (all_intrinsics !! cam_name) as [intr|]; cbn;
    [|destruct (file_system_accepts _); cbn; rewrite app_nil_r;
      (split; [reflexivity|]; split; [reflexivity | lia])].
  unfold bind, MulticalMain.call, lift, modify, MulticalMain.savemat.
  destruct (Multical.extract_distortion _) as [w1 [distort|e1]]; cbn;
    [|destruct (file_system_accepts _); cbn; rewrite app_nil_r;
      (split; [reflexivity|]; split; [reflexivity | lia])].
  destruct (Multical.get_extrinsics_json _ _ _ _ _) as [w2 [pose|e2]]; cbn;
    [|destruct (file_system_accepts _); cbn; rewrite app_nil_r;
      (split; [reflexivity|]; split; [reflexivity | lia])].
  destruct (Multical.camera_mat_dict _ _ _ _ _ _) as [m|e3]; cbn;
    [|destruct (file_system_accepts _); cbn; rewrite app_nil_r;
      (split; [reflexivity|]; split; [reflexivity | lia])].
  destruct (file_system_accepts _); cbn;
    [|rewrite app_nil_r; split; [reflexivity|]; split; [reflexivity | lia]].
  split; [reflexivity|]. split; [reflexivity | lia].
Qed.

Lemma export_loop all_intrinsics poses ref_cam cams p :
  let r := for_each cams
             (fun cam_name => catch (export_camera all_intrinsics poses ref_cam cam_name))
             p in
  snd r = Ok tt /\
  MulticalMain.saved (fst r)
  = MulticalMain.saved p ++ files_of all_intrinsics poses ref_cam cams /\
  MulticalMain.processed_count (fst r)
  = (MulticalMain.processed_count p
     + length (files_of all_intrinsics poses ref_cam cams))%nat.
Proof.
  cbv zeta. revert p. induction cams as [|cam_name cams IH]; intros p.
  - cbn. rewrite app_nil_r. split; [reflexivity|]. split; [reflexivity | lia].
  - pose proof (export_camera_run all_intrinsics poses ref_cam cam_name p) as Hone.
    cbv zeta in Hone. change (for_each (cam_name :: cams) ?body p)
      with (match body cam_name p with
            | (s', Ok _) => for_each cams body s'
            | (s', Raise e) => (s', Raise e)
            end).
    cbv beta.
    destruct (catch _ p) as [p1 [[]|e]]; cbn [fst snd] in Hone;
      destruct Hone as (Hok & Hsaved & Hcount); [|discriminate Hok].
    destruct (IH p1) as (Hok' & Hsaved' & Hcount').
    rewrite files_of_cons, app_assoc, <- Hsaved, length_app.
    split; [exact Hok'|]. split; [exact Hsaved' | lia].
Qed.

(** X17. When the export runs on a JSON file to the end of the loop, a
    camera that fails does not stop the others: the files saved are exactly
    those of the cameras that have a record (the distortion splits, the
    pose resolves, [np.asarray] accepts the matrices, the translation has
    three elements, the intrinsic matrix is large enough) and whose file
    [savemat] writes, one each, in the sorted order of the camera names,
    every pose being taken relative to the detected reference camera; and
    the count reported at the end is the number of files saved. The loop
    is reached exactly when a reference camera is detected, both top-level
    keys are present, there is a camera, and the output directory exists
    or is created. *)
Theorem export_saves_each_camera_with_a_record (j : MulticalMain.json_data) :
  (forall p,
     MulticalMain.main allclose_identity allclose_zero create_output_dir
       file_system_accepts j = MulticalMain.Finished p ->
     exists detected_ref_cam all_intrinsics items,
       MulticalMain.camera_poses j = Some items /\
       MulticalMain.cameras j = Some all_intrinsics /\
       detect_reference_camera items = Some detected_ref_cam /\
       MulticalMain.saved p
       = files_of all_intrinsics (list_to_map items) detected_ref_cam
           (sorted_strings (dom all_intrinsics)) /\
       MulticalMain.processed_count p = length (MulticalMain.saved p) /\
       (length (MulticalMain.saved p) <= size (dom all_intrinsics))%nat) /\
  ((exists p,
      MulticalMain.main allclose_identity allclose_zero create_output_dir
        file_system_accepts j = MulticalMain.Finished p)
   <-> exists detected_ref_cam all_intrinsics items,
         MulticalMain.camera_poses j = Some items /\
         MulticalMain.cameras j = Some all_intrinsics /\
         detect_reference_camera items = Some detected_ref_cam /\
         dom all_intrinsics <> ∅ /\
         create_output_dir = Ok tt).
Proof.
  unfold MulticalMain.main.
  destruct (MulticalMain.camera_poses j) as [items|].
  2: { split; [intros p H; discriminate H|].
       split; [intros [p H]; discriminate H | intros (? & ? & ? & H & _); discriminate H]. }
  destruct (detect_reference_camera items) as [ref_cam|] eqn:Hdet.
  2: { split; [intros p H; discriminate H|].
       split; [intros [p H]; discriminate H|].
       intros (? & ? & ? & [= <-] & _ & H & _). rewrite Hdet in H. discriminate H. }
  destruct (MulticalMain.cameras j) as [all_intrinsics|].
  2: { split; [intros p H; discriminate H|].
       split; [intros [p H]; discriminate H | intros (? & ? & ? & _ & H & _); discriminate H]. }
  assert (Hempty : sorted_strings (dom all_intrinsics) = [] <-> dom all_intrinsics = ∅).
  { unfold sorted_strings. split.
    - intros H. apply (f_equal length) in H. rewrite merge_sort_Permutation in H.
      cbn in H. apply length_zero_iff_nil, elements_empty_iff in H.
      apply leibniz_equiv. exact H.
    - intros ->. apply Permutation_nil_r. rewrite merge_sort_Permutation.
      rewrite elements_empty. reflexivity. }
  destruct (decide _) as [Hnil|Hcams].
  { split; [intros p H; discriminate H|].
    split; [intros [p H]; discriminate H|].
    intros (? & ai & ? & _ & [= <-] & _ & Hne & _). apply Hempty in Hnil. contradiction. }
  destruct create_output_dir as [[]|e].
  2: { split; [intros p H; discriminate H|].
       split; [intros [p H]; discriminate H | intros (? & ? & ? & _ & _ & _ & _ & H); discriminate H]. }
  split.
  - intros p [= <-]. exists ref_cam, all_intrinsics, items.
    destruct (export_loop all_intrinsics (list_to_map items) ref_cam
                (sorted_strings (dom all_intrinsics))
                {| MulticalMain.saved := []; MulticalMain.processed_count := 0;
                   MulticalMain.printed := [] |})
      as (_ & Hsaved & Hcount).
    cbn [MulticalMain.saved MulticalMain.processed_count app] in Hsaved, Hcount.
    split; [reflexivity|]. split; [reflexivity|]. split; [exact Hdet|].
    split; [exact Hsaved|]. split; [rewrite Hsaved; exact Hcount|].
    rewrite Hsaved. unfold Spec.files_of.
    etransitivity; [apply omap_length_le|].
    unfold sorted_strings. rewrite merge_sort_Permutation. reflexivity.
  - split; [|intros _; eexists; reflexivity].
    intros _. exists ref_cam, all_intrinsics, items.
    split; [reflexivity|]. split; [reflexivity|]. split; [exact Hdet|].
    split; [|reflexivity]. intros H. apply Hcams, Hempty, H.
Qed.

End CalibrationExport.

Lemma detected_reference_resolves_witness :
  exists pose_info,
    ("Cam_A"%string, pose_info) ∈ Sample.calibration_poses /\
    Multical.get_extrinsics_json Sample.exactly_identity Sample.exactly_zero
      (list_to_map Sample.calibration_poses) "Cam_A" "Cam_A"
    = ([], Ok (Multical.pose_R pose_info, Multical.pose_T pose_info)).
Proof.
  destruct (detected_reference_resolves Sample.exactly_identity Sample.exactly_zero
              Sample.calibration_poses "Cam_A")
    as (pose_info & Hin & _ & _ & Hget).
  - apply (bool_decide_unpack _). vm_compute. exact I.
  - vm_compute. reflexivity.
  - exists pose_info. split; assumption.
Defined.

(** X17 at the sample calibration file, on a file system that takes every
    file. *)
Lemma export_saves_each_camera_with_a_record_witness :
  exists p,
    MulticalMain.main Sample.exactly_identity Sample.exactly_zero (Ok tt)
      (fun _ => true) Sample.calibration
    = MulticalMain.Finished p /\
    MulticalMain.processed_count p = 2%nat /\
    MulticalMain.saved p
    = Spec.files_of Sample.exactly_identity Sample.exactly_zero (fun _ => true)
        {[ "Cam_A"%string := Sample.intrinsics_standard;
           "Cam_B"%string := Sample.intrinsics_standard ]}
        (list_to_map Sample.calibration_poses) "Cam_A"
        ["Cam_A"; "Cam_B"]%string.
Proof.
  assert (Hrun : exists p,
             MulticalMain.main Sample.exactly_identity Sample.exactly_zero (Ok tt)
               (fun _ => true) Sample.calibration = MulticalMain.Finished p /\
             length (MulticalMain.saved p) = 2%nat).
  { eexists. split; [vm_compute; reflexivity | vm_compute; reflexivity]. }
  destruct Hrun as (p & Hrun & Hlen). exists p. split; [exact Hrun|].
  destruct (proj1 (export_saves_each_camera_with_a_record Sample.exactly_identity
              Sample.exactly_zero (Ok tt) (fun _ => true) Sample.calibration) p Hrun)
    as (ref_cam & all_intrinsics & items & Hposes & Hcams & Hdet & Hsaved & Hcount & _).
  injection Hposes as <-. injection Hcams as <-.
  assert (Href : ref_cam = "Cam_A"%string).
  { vm_compute in Hdet. injection Hdet as <-. reflexivity. }
  subst ref_cam. split; [rewrite Hcount; exact Hlen|].
  rewrite Hsaved. f_equal.
Defined.

(* ===================================================================== *)
(** * create_coco_skeleton.py, and the skeleton read back                  *)
(* ===================================================================== *)

Section SkeletonFile.

Local Open Scope Z_scope.

(** What the validation block accepts. *)
Lemma validate_accepts names idx cols :
  Skeleton.validate names idx cols = Ok tt ->
  length idx = length cols /\
  Forall (fun i => 1 <= i <= Z.of_nat (length names)) (concat idx).
Proof.
  unfold Skeleton.validate.
  destruct (decide (length idx <> length cols)) as [|Hlen]; [discriminate|].
  destruct idx as [|row idx']; [discriminate|]. cbn [Skeleton.shape1 rbind].
  destruct (decide (length row <> 2%nat)) as [|Hrow]; [discriminate|].
  destruct (Skeleton.shape1 cols) as [cc|]; [|discriminate]. cbn [rbind].
  destruct (decide (cc <> 3%nat)); [discriminate|].
  destruct row as [|a row]; [exfalso; apply Hrow; cbn; lia|].
  cbn [concat app]. rewrite list_max_greatest, list_min_least. cbn [rbind].
  destruct (decide (_ > _)) as [|Hhi]; [discriminate|].
  destruct (decide (_ < _)) as [|Hlo]; [discriminate|].
  intros _. split; [lia|].
  destruct (least_spec a (row ++ concat idx')) as [_ Hleast].
  destruct (greatest_spec a (row ++ concat idx')) as [_ Hgreatest].
  apply Forall_forall. intros i Hi. apply list_elem_of_In in Hi.
  specialize (Hleast i Hi). specialize (Hgreatest i Hi). lia.
Qed.

(** X18. A skeleton that passes the validation of the skeleton script
    gives, once read back by the converter, one category whose keypoints
    are the joint names and whose edges, as many as there are colours, are
    0-based indices into those keypoints. *)
Theorem validated_skeleton_gives_valid_edges names idx cols :
  Skeleton.validate names idx cols = Ok tt ->
  exists c,
    L3d.categories (L3d.coco (L3d.initial_state (Skeleton.as_base_skeleton names idx)))
    = [c] /\
    L3d.cat_keypoints c = names /\
    length (L3d.cat_skeleton c) = length cols /\
    Forall (fun edge => Forall (fun i => 0 <= i < Z.of_nat (length names)) edge)
           (L3d.cat_skeleton c).
Proof.
  intros Hvalid. destruct (validate_accepts _ _ _ Hvalid) as [Hlen Hall].
  eexists. split; [reflexivity|]. cbn.
  split; [reflexivity|]. split; [rewrite length_fmap; exact Hlen|].
  apply Forall_fmap, Forall_forall. intros edge Hedge.
  apply Forall_fmap, Forall_forall. intros i Hi. cbn.
  rewrite Forall_forall in Hall.
  assert (Hin : i ∈ concat idx) by (apply elem_of_concat; eauto).
  specialize (Hall i Hin). lia.
Qed.

End SkeletonFile.

Lemma validated_skeleton_gives_valid_edges_witness :
  exists c,
    L3d.categories
      (L3d.coco (L3d.initial_state
                   (Skeleton.as_base_skeleton Skeleton.joint_names Skeleton.joints_idx)))
    = [c] /\
    length (L3d.cat_keypoints c) = 17%nat /\
    length (L3d.cat_skeleton c) = 18%nat.
Proof.
  destruct (validated_skeleton_gives_valid_edges Skeleton.joint_names
              Skeleton.joints_idx Skeleton.colors)
    as (c & Hc & Hnames & Hedges & _).
  - vm_compute. reflexivity.
  - exists c. split; [exact Hc|]. rewrite Hnames, Hedges. split; reflexivity.
Defined.

(* ===================================================================== *)
(** * prepare_label3d_poses.py: what the cells hold                        *)
(* ===================================================================== *)

Section CellContents.

Variable num_keypoints_per_instance : nat.
Variable kpt_score_threshold : float.
Variable frame_id_to_mat_idx_map : gmap Z nat.
Variable instance_id_to_slot_idx_map : gmap string nat.
Variable cameras : list (list Prepare.frame_json).

Local Abbreviation kept_joint :=
  (Spec.kept_joint num_keypoints_per_instance kpt_score_threshold).
Local Abbreviation cell_of :=
  (Spec.cell_of num_keypoints_per_instance kpt_score_threshold
     frame_id_to_mat_idx_map instance_id_to_slot_idx_map cameras).
Local Abbreviation stored_from :=
  (Spec.stored_from num_keypoints_per_instance kpt_score_threshold
     frame_id_to_mat_idx_map instance_id_to_slot_idx_map cameras).
Local Abbreviation process_joint := (Prepare.process_joint kpt_score_threshold).
Local Abbreviation process_instance :=
  (Prepare.process_instance num_keypoints_per_instance kpt_score_threshold
     instance_id_to_slot_idx_map).
Local Abbreviation process_frame :=
  (Prepare.process_frame num_keypoints_per_instance kpt_score_threshold
     frame_id_to_mat_idx_map instance_id_to_slot_idx_map).
Local Abbreviation populate :=
  (Prepare.populate num_keypoints_per_instance kpt_score_threshold
     frame_id_to_mat_idx_map instance_id_to_slot_idx_map).

(** What one joint does to the stored pairs: nothing, or one pair stored
    in its cell, and then the joint is a kept one. *)
Lemma process_joint_cases cam_idx mat_frame_idx instance_slot_idx inst_json joint_idx a :
  length (Prepare.keypoints inst_json) = num_keypoints_per_instance ->
  (Prepare.keypoint_scores inst_json = []
   \/ length (Prepare.keypoint_scores inst_json) = num_keypoints_per_instance) ->
  let a' := fst (process_joint cam_idx mat_frame_idx
                   (instance_slot_idx * num_keypoints_per_instance)
                   (Prepare.keypoints inst_json) (Prepare.keypoint_scores inst_json)
                   joint_idx a) in
  Prepare.cam_points_data a' = Prepare.cam_points_data a \/
  exists xy,
    kept_joint inst_json joint_idx xy /\
    Prepare.cam_points_data a'
    = <[((instance_slot_idx * num_keypoints_per_instance + joint_idx)%nat, cam_idx,
         mat_frame_idx) := xy]> (Prepare.cam_points_data a).
Proof.
  intros Hlen Hscores. cbv zeta.
  destruct (process_joint_outcome kpt_score_threshold cam_idx mat_frame_idx
              (instance_slot_idx * num_keypoints_per_instance)
              (Prepare.keypoints inst_json) (Prepare.keypoint_scores inst_json) joint_idx a)
    as [[-> _]|(px & py & Hpoint & Hge & _ & ->)]; [left; reflexivity|].
  right. exists (px, py). split; [|reflexivity].
  split; [exact Hlen|]. split; [exact Hscores|]. split; [exact Hge | exact Hpoint].
Qed.

Lemma process_joint_grows cam_idx mat_frame_idx marker_offset kps_list scores_list
    joint_idx a idx :
  is_Some (Prepare.cam_points_data a !! idx) ->
  is_Some (Prepare.cam_points_data
             (fst (process_joint cam_idx mat_frame_idx marker_offset kps_list scores_list
                     joint_idx a)) !! idx).
Proof.
  intros Hidx.
  destruct (process_joint_outcome kpt_score_threshold cam_idx mat_frame_idx marker_offset
              kps_list scores_list joint_idx a)
    as [[-> _]|(px & py & _ & _ & _ & ->)]; [exact Hidx|].
  cbn [fst Prepare.cam_points_data].
  apply lookup_insert_is_Some.
  destruct (decide (((marker_offset + joint_idx)%nat, cam_idx, mat_frame_idx) = idx));
    [left; assumption | right; split; assumption].
Qed.

Lemma process_instance_grows cam_idx mat_frame_idx inst_json a idx :
  is_Some (Prepare.cam_points_data a !! idx) ->
  is_Some (Prepare.cam_points_data
             (fst (process_instance cam_idx mat_frame_idx inst_json a)) !! idx).
Proof.
  intros Hidx. unfold Prepare.process_instance.
  destruct (instance_id_to_slot_idx_map !! _) as [slot|]; [|exact Hidx].
  destruct (decide _); [|exact Hidx].
  apply (for_each_preserves (fun a => is_Some (Prepare.cam_points_data a !! idx)));
    [|exact Hidx].
  intros joint_idx a'. apply process_joint_grows.
Qed.

Lemma process_frame_grows cam_idx frame_content a idx :
  is_Some (Prepare.cam_points_data a !! idx) ->
  is_Some (Prepare.cam_points_data (fst (process_frame cam_idx frame_content a)) !! idx).
Proof.
  intros Hidx. unfold Prepare.process_frame.
  destruct (Prepare.actual_frame_id frame_content) as [fid|]; [|exact Hidx].
  destruct (frame_id_to_mat_idx_map !! fid) as [mat_frame_idx|]; [|exact Hidx].
  apply (for_each_preserves (fun a => is_Some (Prepare.cam_points_data a !! idx)));
    [|exact Hidx].
  intros inst_json a'. apply process_instance_grows.
Qed.

Lemma elem_of_enumerated {X} (l : list X) (i : nat) (x : X) :
  In (i, x) (zip (seq 0 (length l)) l) <-> l !! i = Some x.
Proof.
  rewrite <- list_elem_of_In, list_elem_of_lookup. split.
  - intros [k Hk]. apply lookup_zip_with_Some in Hk.
    destruct Hk as (i' & x' & [= <- <-] & Hseq & Hx).
    apply lookup_seq in Hseq. destruct Hseq as [-> _]. exact Hx.
  - intros Hx. exists i. apply lookup_zip_with_Some. exists i, x.
    split; [reflexivity|]. split; [|exact Hx].
    apply lookup_seq. split; [reflexivity|]. apply lookup_lt_Some in Hx. exact Hx.
Qed.

(** Soundness: whatever is stored comes from a kept joint of its cell. *)
Lemma populate_stored_from a :
  stored_from a -> stored_from (fst (populate cameras a)).
Proof.
  unfold Prepare.populate.
  apply (for_each_preserves_in stored_from).
  intros [cam_idx frames_of_cam] a1 Hcam Ha1. apply elem_of_enumerated in Hcam.
  apply (for_each_preserves_in stored_from); [|exact Ha1].
  intros frame_content a2 Hframe Ha2. apply list_elem_of_In in Hframe.
  unfold Prepare.process_frame.
  destruct (Prepare.actual_frame_id frame_content) as [fid|] eqn:Hfid; [|exact Ha2].
  destruct (frame_id_to_mat_idx_map !! fid) as [mat_frame_idx|] eqn:Hcol; [|exact Ha2].
  apply (for_each_preserves_in stored_from); [|exact Ha2].
  intros inst_json a3 Hinst Ha3. apply list_elem_of_In in Hinst.
  unfold Prepare.process_instance.
  destruct (instance_id_to_slot_idx_map !! _) as [slot|] eqn:Hslot; [|exact Ha3].
  destruct (decide _) as [[Hlen Hscores]|]; [|exact Ha3].
  apply (for_each_preserves_in stored_from); [|exact Ha3].
  intros joint_idx a4 Hjoint Ha4. apply list_elem_of_In, elem_of_seq in Hjoint.
  destruct (process_joint_cases cam_idx mat_frame_idx slot inst_json joint_idx a4
              Hlen Hscores) as [Hsame|(xy & Hkept & Hnew)].
  - intros idx xy. rewrite Hsame. apply Ha4.
  - intros idx xy'. rewrite Hnew. intros Hidx.
    apply lookup_insert_Some in Hidx. destruct Hidx as [[<- <-]|[_ Hidx]].
    + exists frames_of_cam, frame_content, inst_json, fid, slot, joint_idx.
      cbn [fst snd].
      split; [exact Hcam|]. split; [exact Hframe|]. split; [exact Hinst|].
      split; [exact Hfid|]. split; [exact Hcol|]. split; [exact Hslot|].
      split; [reflexivity|]. split; [lia | exact Hkept].
    + exact (Ha4 idx xy' Hidx).
Qed.

(** A kept joint that does not raise stores its pair. *)
Lemma process_joint_stores cam_idx mat_frame_idx instance_slot_idx inst_json joint_idx xy a :
  kept_joint inst_json joint_idx xy ->
  let r := process_joint cam_idx mat_frame_idx
             (instance_slot_idx * num_keypoints_per_instance)
             (Prepare.keypoints inst_json) (Prepare.keypoint_scores inst_json)
             joint_idx a in
  snd r = Ok tt ->
  is_Some (Prepare.cam_points_data (fst r)
           !! ((instance_slot_idx * num_keypoints_per_instance + joint_idx)%nat, cam_idx,
               mat_frame_idx)).
Proof.
  intros (Hlen & Hscores & Hge & Hpoint). cbv zeta.
  unfold Prepare.process_joint, bind, lift, getitem. rewrite Nat2Z.id, Hpoint.
  replace (match Prepare.keypoint_scores inst_json !! joint_idx with
           | Some sc => sc
           | None => kpt_score_threshold
           end)
    with (default kpt_score_threshold (Prepare.keypoint_scores inst_json !! joint_idx))
    by reflexivity.
  rewrite Hge. cbn [length lookup_total list_lookup_total Prepare.is_none orb negb].
  rewrite (bool_decide_eq_true_2 _ (eq_refl 2%nat)). cbn [andb].
  unfold Prepare.try_except, bind, lift. cbn [Prepare.to_float].
  unfold Prepare.set_cam_points, Prepare.set_status.
  destruct (decide (Prepare.in_bounds a _)) as [Hin|_];
    cbn [Prepare.value_or_type_error fst snd]; [|intros H; discriminate H].
  unfold Prepare.in_bounds at 1.
  cbn [Prepare.total_num_markers Prepare.num_processed_cams Prepare.num_processed_frames].
  destruct (decide _) as [_|Hn]; [|exfalso; apply Hn; exact Hin].
  cbn [fst snd Prepare.cam_points_data]. intros _.
  rewrite lookup_insert_eq. eauto.
Qed.

(** Completeness: when population runs to the end, the cell of a kept
    joint is stored. *)
Lemma populate_stores a idx xy :
  cell_of idx xy ->
  snd (populate cameras a) = Ok tt ->
  is_Some (Prepare.cam_points_data (fst (populate cameras a)) !! idx).
Proof.
  intros (frames_of_cam & frame_content & inst_json & fid & slot & joint_idx
          & Hcam & Hframe & Hinst & Hfid & Hcol & Hslot & Hmarker & Hjoint & Hkept).
  destruct idx as [[marker cam_idx] mat_frame_idx]. cbn [fst snd] in *. subst marker.
  set (Q := fun a : Prepare.arrays =>
              is_Some (Prepare.cam_points_data a
                       !! ((slot * num_keypoints_per_instance + joint_idx)%nat, cam_idx,
                           mat_frame_idx))).
  unfold Prepare.populate.
  apply (for_each_reaches Q _ _ (cam_idx, frames_of_cam));
    [apply elem_of_enumerated; exact Hcam | |].
  - intros a1.
    apply (for_each_reaches Q _ _ frame_content); [apply list_elem_of_In; exact Hframe | |].
    + intros a2. unfold Prepare.process_frame. rewrite Hfid, Hcol.
      apply (for_each_reaches Q _ _ inst_json); [apply list_elem_of_In; exact Hinst | |].
      * intros a3. unfold Prepare.process_instance. rewrite Hslot.
        pose proof Hkept as (Hlen & Hscores & _).
        destruct (decide _) as [_|Hn]; [|exfalso; apply Hn; split; assumption].
        apply (for_each_reaches Q _ _ joint_idx);
          [apply list_elem_of_In, elem_of_seq; lia | |].
        -- intros a4. apply (process_joint_stores _ _ _ _ _ xy). exact Hkept.
        -- intros j a4. apply process_joint_grows.
      * intros inst a3. apply process_instance_grows.
    + intros fc a2. apply process_frame_grows.
  - intros [c fs] a1 HQ.
    apply (for_each_preserves (fun a => is_Some (Prepare.cam_points_data a !! _)));
      [|exact HQ].
    intros fc a2. apply process_frame_grows.
Qed.

End CellContents.

Section SavedCells.

Lemma consistent_status_iff a idx :
  Spec.arrays_consistent a ->
  Prepare.status_at a idx = 1%N <-> is_Some (Prepare.cam_points_data a !! idx).
Proof.
  intros (Hdom & Hone & _).
  assert (Hiff : is_Some (Prepare.status_data a !! idx)
                 <-> is_Some (Prepare.cam_points_data a !! idx)).
  { rewrite <- !elem_of_dom, Hdom. reflexivity. }
  unfold Prepare.status_at.
  destruct (Prepare.status_data a !! idx) as [v|] eqn:Ev; cbn [default].
  - rewrite (Hone idx v Ev). split; [intros _; apply Hiff; eauto | reflexivity].
  - split; [discriminate|]. intros Hc. apply Hiff in Hc. destruct Hc as [? Hc].
    discriminate Hc.
Qed.

(** X19. In the file the preparation saves, a cell has status 1 exactly
    when it is the cell of a kept joint of the camera files: a joint of an
    instance of a frame of that camera, with as many keypoints as the
    skeleton has joints, a score that reaches the threshold and a pair of
    numbers for coordinates. The pair a cell stores is the pair of such a
    joint of that very cell; nothing else is ever stored. *)
Theorem saved_cells_are_kept_joints num_keypoints_per_instance kpt_score_threshold
    savemat_writes cameras out idx :
  PrepareMain.main num_keypoints_per_instance kpt_score_threshold savemat_writes cameras
  = PrepareMain.Saved out ->
  let cell :=
    Spec.cell_of num_keypoints_per_instance kpt_score_threshold
      (enumerate_map (PrepareMain.processed_frame_ids out))
      (enumerate_map (PrepareMain.discovered_instance_ids out)) cameras idx in
  (Prepare.status_at (PrepareMain.precomputed out) idx = 1%N <-> exists xy, cell xy) /\
  (forall xy,
     Prepare.cam_points_data (PrepareMain.precomputed out) !! idx = Some xy -> cell xy).
Proof.
  unfold PrepareMain.main.
  destruct (decide (num_keypoints_per_instance = 0%nat)); [discriminate|].
  destruct (decide (cameras = [])); [discriminate|].
  destruct (decide (PrepareMain.all_frame_ids_set cameras = ∅)); [discriminate|].
  destruct (decide (PrepareMain.all_instance_ids_set cameras = ∅)); [discriminate|].
  set (fids := sorted_ints (PrepareMain.all_frame_ids_set cameras)).
  set (iids := sorted_strings (PrepareMain.all_instance_ids_set cameras)).
  unfold Prepare.prepare_arrays.
  set (start := Prepare.new_arrays (length iids * num_keypoints_per_instance)
                  (length cameras) (length fids)).
  pose proof (new_arrays_kept (length iids * num_keypoints_per_instance)
                (length cameras) (length fids)) as Hstart. fold start in Hstart.
  pose proof (populate_kept num_keypoints_per_instance kpt_score_threshold
                (enumerate_map fids) (enumerate_map iids) _ cameras start Hstart)
    as [Hcons _].
  assert (Hsound : Spec.stored_from num_keypoints_per_instance kpt_score_threshold
                     (enumerate_map fids) (enumerate_map iids) cameras
                     (fst (Prepare.populate num_keypoints_per_instance kpt_score_threshold
                             (enumerate_map fids) (enumerate_map iids) cameras start))).
  { apply populate_stored_from. intros i xy Hi. cbn in Hi.
    rewrite lookup_empty in Hi. discriminate Hi. }
  pose proof (fun xy =>
                populate_stores num_keypoints_per_instance kpt_score_threshold
                  (enumerate_map fids) (enumerate_map iids) cameras
                  start idx xy) as Hcomplete.
  destruct (Prepare.populate _ _ _ _ _ _) as [a [[]|e]]; cbn [fst snd] in *; [|discriminate].
  destruct (forallb PrepareMain.fits_int64 fids); [|discriminate].
  destruct savemat_writes; [|discriminate].
  intros [= <-]. cbv zeta.
  cbn [PrepareMain.processed_frame_ids PrepareMain.discovered_instance_ids
       PrepareMain.precomputed].
  split; [|intros xy; apply Hsound].
  rewrite (consistent_status_iff a idx Hcons). split.
  - intros [xy Hxy]. exists xy. apply Hsound. exact Hxy.
  - intros [xy Hcell]. exact (Hcomplete xy Hcell eq_refl).
Qed.

End SavedCells.

(** X19 at the sample camera file: it is saved, and the first joint of
    its instance, at (10, 20), is a kept joint of cell (0, 0, 0). *)
Lemma saved_cells_are_kept_joints_witness :
  exists out,
    PrepareMain.main 2 Sample.quarter true Sample.pose_results = PrepareMain.Saved out /\
    Prepare.status_at (PrepareMain.precomputed out) (0, 0, 0)%nat = 1%N /\
    exists xy,
      Spec.cell_of 2 Sample.quarter
        (enumerate_map (PrepareMain.processed_frame_ids out))
        (enumerate_map (PrepareMain.discovered_instance_ids out))
        Sample.pose_results (0, 0, 0)%nat xy.
Proof.
  assert (Hrun : exists out,
             PrepareMain.main 2 Sample.quarter true Sample.pose_results
             = PrepareMain.Saved out /\
             Prepare.status_at (PrepareMain.precomputed out) (0, 0, 0)%nat = 1%N).
  { eexists. split; vm_compute; reflexivity. }
  destruct Hrun as (out & Hrun & Hstatus). exists out.
  split; [exact Hrun|]. split; [exact Hstatus|].
  apply (saved_cells_are_kept_joints 2 Sample.quarter true Sample.pose_results out
           (0, 0, 0)%nat Hrun).
  exact Hstatus.
Defined.
